(** * A shallow embedding of the chat server of [main.c]

    The C program is a single-threaded [poll] loop over a table of client
    sockets.  Every function of [main.c] is transcribed below as a state
    transformer over a record [State] holding the program's global
    variables ([first_free_buffer], [connections], [history]) and the
    part of the operating system the program talks to ([World]).

    Conventions of the embedding:
    - [int], [size_t] and [ssize_t] values are [Z]; where the source
      subtracts from [sizeof(buffer->data)], which is unsigned
      arithmetic, the wrap-around is written out ([size_t]); the other
      integers stay within the sizes of the arrays they count;
    - a C string is the [list ascii] of its characters before the
      terminating NUL; a raw [char] array is a [list ascii] of the
      array's full size;
    - the singly linked chains of [struct LinkedBuffer] (the free list and
      the per-connection [struct ListOfBuffers]) are Rocq lists, head
      first: [first] is the head and [last] the last element;
    - fixed-size arrays are lists of exactly their declared size; a write
      outside an array ends the run with [OutOfBounds] (undefined
      behaviour), [die] ends it with [Exit], a failing [assert] with
      [AssertionFailed];
    - the one out-of-range *read* the program performs
      ([history.messages[i]] in the handler of [new]) yields whatever the
      memory around the array holds ([stray] of the [World]) and the
      indices read are returned next to the result of the scan;
    - system calls take their answers from tapes in the [World] and log
      what the program hands to them ([close]d descriptors, bytes
      accepted by [send]). *)

From Stdlib Require Import ZArith Lia List Ascii String Sorted.
From stdpp Require Import base tactics option list pretty.

Local Open Scope Z_scope.

(** ** Constants ([#define]s) *)

Definition TIMESTAMP_LENGTH : Z := 10.
Definition BUFFER_POOL_SIZE : Z := 16.
Definition MAX_CONNECTIONS : Z := 1024.
Definition MAX_MESSAGE_LENGTH : Z := 140.
Definition MAX_NICK_LENGTH : Z := 20.
Definition MAX_HISTORY_LENGTH : Z := 50.
Definition MAX_PACKAGE_LENGTH : Z :=
  TIMESTAMP_LENGTH + MAX_NICK_LENGTH + MAX_MESSAGE_LENGTH + 3.

(** [<poll.h>] on Linux. *)
Definition POLLIN : Z := 1.
Definition POLLOUT : Z := 4.
Definition POLLERR : Z := 8.
Definition POLLHUP : Z := 16.
Definition POLLNVAL : Z := 32.

(** ** C strings and characters *)

Definition cstring := list ascii.

Definition str (s : string) : cstring := list_ascii_of_string s.

Definition NUL : ascii := ascii_of_nat 0.
Definition CR : ascii := ascii_of_nat 13.
Definition LF : ascii := ascii_of_nat 10.
Definition CRLF : cstring := [CR; LF].

Definition ascii_eqb (a b : ascii) : bool := Ascii.eqb a b.

Definition strlen (s : cstring) : Z := Z.of_nat (length s).

Fixpoint cstring_eqb (a b : cstring) : bool :=
  match a, b with
  | [], [] => true
  | x :: a', y :: b' => ascii_eqb x y && cstring_eqb a' b'
  | _, _ => false
  end.

(** [!strcmp(a, b)] *)
Definition strcmp_eq (a b : cstring) : bool := cstring_eqb a b.

(** [starts_with]: [!strncmp(string, start, strlen(start))] *)
Definition starts_with (string start : cstring) : bool :=
  cstring_eqb (take (length start) string) start.

(** [size_t] is 64 bits wide. *)
Definition size_t (z : Z) : Z := z mod 2 ^ 64.

(** ** Data structures *)

Record timespec := { tv_sec : Z; tv_nsec : Z }.

Record tm := { tm_hour : Z; tm_min : Z; tm_sec : Z }.

Record pollfd := { fd : Z; events : Z; revents : Z }.

(** [struct Buffer]: [char data[MAX_PACKAGE_LENGTH]; int used]. *)
Record Buffer := { data : list ascii; used : Z }.

(** [sizeof(buffer->data)] *)
Definition sizeof_data : Z := MAX_PACKAGE_LENGTH.

(** [struct ConnectionData]; [pending_to_be_sent] is the chain of blocks
    from [first] to [last]. *)
Record ConnectionData := {
  closed : bool;
  nick : cstring;
  last_received_message : timespec;
  pending_to_be_sent : list Buffer;
  input_buffer : Buffer
}.

(** The anonymous struct [connections]. *)
Record Connections := {
  sockets : list pollfd;
  conn_data : list ConnectionData;
  conn_length : Z
}.

(** [struct Message] *)
Record Message := { msg_nick : cstring; msg_data : cstring; msg_time : timespec }.

(** The anonymous struct [history]. *)
Record History := { messages : list Message; hist_length : Z }.

(** ** The operating system *)

Inductive recv_answer :=
| Received (bytes : list ascii)   (* bytes waiting in the socket *)
| PeerClosed                      (* recv returns 0 *)
| RecvFailed.                     (* recv returns -1 *)

Inductive send_answer :=
| Room (n : Z)        (* the socket takes at most [n] bytes now *)
| WouldBlock          (* -1 with EWOULDBLOCK or EAGAIN *)
| SendFailed.         (* -1 with another errno *)

Record World := {
  clock : list timespec;              (* successive readings of CLOCK_REALTIME *)
  localtime : Z -> option tm;         (* localtime_r; None is a NULL result *)
  stray : Z -> Message;               (* memory around history.messages *)
  accept_tape : list Z;               (* results of accept *)
  poll_tape : list (list Z);          (* revents reported by each poll *)
  recv_tape : list recv_answer;
  send_tape : list send_answer;
  closed_fds : list Z;                (* descriptors given to close, latest first *)
  wire : list (Z * list ascii)        (* bytes taken by send, latest first *)
}.

(** ** Program state and outcomes *)

Record State := {
  first_free_buffer : list Buffer;
  connections : Connections;
  history : History;
  world : World
}.

Inductive outcome (A : Type) :=
| Ok (a : A)
| Exit (msg : string)
| AssertionFailed (expr : string)
| OutOfBounds (what : string)
| OutOfFuel.

Arguments Ok {A} a.
Arguments Exit {A} msg.
Arguments AssertionFailed {A} expr.
Arguments OutOfBounds {A} what.
Arguments OutOfFuel {A}.

Definition M (A : Type) : Type := State -> outcome (A * State).

#[global] Instance M_ret : MRet M := fun A a s => Ok (a, s).

#[global] Instance M_bind : MBind M := fun A B f m s =>
  match m s with
  | Ok (a, s') => f a s'
  | Exit msg => Exit msg
  | AssertionFailed e => AssertionFailed e
  | OutOfBounds w => OutOfBounds w
  | OutOfFuel => OutOfFuel
  end.

Definition die {A} (msg : string) : M A := fun _ => Exit msg.
Definition assert_fails {A} (expr : string) : M A := fun _ => AssertionFailed expr.
Definition out_of_bounds {A} (what : string) : M A := fun _ => OutOfBounds what.
Definition out_of_fuel {A} : M A := fun _ => OutOfFuel.

Definition get_state : M State := fun s => Ok (s, s).
Definition modify (f : State -> State) : M unit := fun s => Ok (tt, f s).

(** A checked array access: [None] is an index outside the array. *)
Definition in_bounds {A} (what : string) (o : option A) : M A :=
  match o with
  | Some a => mret a
  | None => out_of_bounds what
  end.

Definition array_get {A} (a : list A) (i : Z) : option A :=
  if 0 <=? i then a !! Z.to_nat i else None.

Definition array_set {A} (a : list A) (i : Z) (v : A) : option (list A) :=
  if (0 <=? i) && (i <? Z.of_nat (length a))
  then Some (<[Z.to_nat i := v]> a) else None.

(** [memcpy(dst + off, src, |src|)] into the array [dst]. *)
Definition memcpy_at (dst : list ascii) (off : Z) (src : list ascii)
  : option (list ascii) :=
  if (0 <=? off) && (off + Z.of_nat (length src) <=? Z.of_nat (length dst))
  then Some (take (Z.to_nat off) dst ++ src
             ++ drop (Z.to_nat off + length src) dst)
  else None.

(** ** Record updates *)

Definition set_first_free_buffer (l : list Buffer) (s : State) : State :=
  {| first_free_buffer := l; connections := connections s;
     history := history s; world := world s |}.

Definition set_connections (c : Connections) (s : State) : State :=
  {| first_free_buffer := first_free_buffer s; connections := c;
     history := history s; world := world s |}.

Definition set_history (h : History) (s : State) : State :=
  {| first_free_buffer := first_free_buffer s; connections := connections s;
     history := h; world := world s |}.

Definition set_world (w : World) (s : State) : State :=
  {| first_free_buffer := first_free_buffer s; connections := connections s;
     history := history s; world := w |}.

Definition set_sockets (l : list pollfd) (c : Connections) : Connections :=
  {| sockets := l; conn_data := conn_data c; conn_length := conn_length c |}.

Definition set_conn_data (l : list ConnectionData) (c : Connections) : Connections :=
  {| sockets := sockets c; conn_data := l; conn_length := conn_length c |}.

Definition set_conn_length (n : Z) (c : Connections) : Connections :=
  {| sockets := sockets c; conn_data := conn_data c; conn_length := n |}.

Definition set_closed (b : bool) (c : ConnectionData) : ConnectionData :=
  {| closed := b; nick := nick c;
     last_received_message := last_received_message c;
     pending_to_be_sent := pending_to_be_sent c;
     input_buffer := input_buffer c |}.

Definition set_nick (n : cstring) (c : ConnectionData) : ConnectionData :=
  {| closed := closed c; nick := n;
     last_received_message := last_received_message c;
     pending_to_be_sent := pending_to_be_sent c;
     input_buffer := input_buffer c |}.

Definition set_last_received_message (t : timespec) (c : ConnectionData)
  : ConnectionData :=
  {| closed := closed c; nick := nick c;
     last_received_message := t;
     pending_to_be_sent := pending_to_be_sent c;
     input_buffer := input_buffer c |}.

Definition set_pending_to_be_sent (l : list Buffer) (c : ConnectionData)
  : ConnectionData :=
  {| closed := closed c; nick := nick c;
     last_received_message := last_received_message c;
     pending_to_be_sent := l;
     input_buffer := input_buffer c |}.

Definition set_input_buffer (b : Buffer) (c : ConnectionData) : ConnectionData :=
  {| closed := closed c; nick := nick c;
     last_received_message := last_received_message c;
     pending_to_be_sent := pending_to_be_sent c;
     input_buffer := b |}.

Definition set_events (e : Z) (p : pollfd) : pollfd :=
  {| fd := fd p; events := e; revents := revents p |}.

Definition set_revents (e : Z) (p : pollfd) : pollfd :=
  {| fd := fd p; events := events p; revents := e |}.

(** ** Access to the connection table *)

(** [connections.data[client]] *)
Definition read_data (client : Z) : M ConnectionData := fun s =>
  in_bounds "connections.data" (array_get (conn_data (connections s)) client) s.

Definition write_data (client : Z) (c : ConnectionData) : M unit := fun s =>
  match array_set (conn_data (connections s)) client c with
  | Some l => Ok (tt, set_connections (set_conn_data l (connections s)) s)
  | None => OutOfBounds "connections.data"
  end.

(** [connections.sockets[client]] *)
Definition read_socket (client : Z) : M pollfd := fun s =>
  in_bounds "connections.sockets" (array_get (sockets (connections s)) client) s.

Definition write_socket (client : Z) (p : pollfd) : M unit := fun s =>
  match array_set (sockets (connections s)) client p with
  | Some l => Ok (tt, set_connections (set_sockets l (connections s)) s)
  | None => OutOfBounds "connections.sockets"
  end.

(** ** System calls *)

Definition with_clock (l : list timespec) (w : World) : World :=
  {| clock := l; localtime := localtime w; stray := stray w;
     accept_tape := accept_tape w; poll_tape := poll_tape w;
     recv_tape := recv_tape w; send_tape := send_tape w;
     closed_fds := closed_fds w; wire := wire w |}.

Definition with_accept_tape (l : list Z) (w : World) : World :=
  {| clock := clock w; localtime := localtime w; stray := stray w;
     accept_tape := l; poll_tape := poll_tape w;
     recv_tape := recv_tape w; send_tape := send_tape w;
     closed_fds := closed_fds w; wire := wire w |}.

Definition with_poll_tape (l : list (list Z)) (w : World) : World :=
  {| clock := clock w; localtime := localtime w; stray := stray w;
     accept_tape := accept_tape w; poll_tape := l;
     recv_tape := recv_tape w; send_tape := send_tape w;
     closed_fds := closed_fds w; wire := wire w |}.

Definition with_recv_tape (l : list recv_answer) (w : World) : World :=
  {| clock := clock w; localtime := localtime w; stray := stray w;
     accept_tape := accept_tape w; poll_tape := poll_tape w;
     recv_tape := l; send_tape := send_tape w;
     closed_fds := closed_fds w; wire := wire w |}.

Definition with_send_tape (l : list send_answer) (w : World) : World :=
  {| clock := clock w; localtime := localtime w; stray := stray w;
     accept_tape := accept_tape w; poll_tape := poll_tape w;
     recv_tape := recv_tape w; send_tape := l;
     closed_fds := closed_fds w; wire := wire w |}.

Definition with_closed_fds (l : list Z) (w : World) : World :=
  {| clock := clock w; localtime := localtime w; stray := stray w;
     accept_tape := accept_tape w; poll_tape := poll_tape w;
     recv_tape := recv_tape w; send_tape := send_tape w;
     closed_fds := l; wire := wire w |}.

Definition with_wire (l : list (Z * list ascii)) (w : World) : World :=
  {| clock := clock w; localtime := localtime w; stray := stray w;
     accept_tape := accept_tape w; poll_tape := poll_tape w;
     recv_tape := recv_tape w; send_tape := send_tape w;
     closed_fds := closed_fds w; wire := l |}.

(** [get_time]: a clock with no reading left is a failing
    [clock_gettime]. *)
Definition get_time : M timespec := fun s =>
  match clock (world s) with
  | [] => Exit "'clock_gettime' failed"
  | t :: rest => Ok (t, set_world (with_clock rest (world s)) s)
  end.

(** [close(fd)] *)
Definition close (d : Z) : M unit := fun s =>
  Ok (tt, set_world (with_closed_fds (d :: closed_fds (world s)) (world s)) s).

(** [localtime_r(&time.tv_sec, &pretty_time)] *)
Definition localtime_r (sec : Z) : M (option tm) := fun s =>
  Ok (localtime (world s) sec, s).

(** ** The buffer pool *)

Definition take_buffer : M Buffer := fun s =>
  match first_free_buffer s with
  | [] => Exit "Memory limit exceeded"
  | buffer :: next =>
      Ok ({| data := data buffer; used := 0 |}, set_first_free_buffer next s)
  end.

Definition release_buffer (buffer : Buffer) : M unit := fun s =>
  Ok (tt, set_first_free_buffer (buffer :: first_free_buffer s) s).

(** ** Queueing output *)

(** [pending->last->next = take_buffer(); pending->last = pending->last->next] *)
Definition chain_buffer (pending : list Buffer) : M (list Buffer) :=
  buffer ← take_buffer; mret (pending ++ [buffer]).

(** Replaces the block [pending->last]. *)
Definition set_last (pending : list Buffer) (buffer : Buffer) : list Buffer :=
  removelast pending ++ [buffer].

(** The [while (stored < size)] loop of [send_later]. *)
Fixpoint send_later_loop (fuel : nat) (message : cstring) (stored : Z)
    (pending : list Buffer) : M (list Buffer) :=
  let size := strlen message in
  if stored <? size then
    match fuel with
    | O => out_of_fuel
    | S fuel' =>
        pending ← (if stored =? 0 then mret pending else chain_buffer pending);
        buffer ← in_bounds "pending->last" (last pending);
        let part_size :=
          Z.min (size_t (sizeof_data - used buffer)) (size - stored) in
        let part := take (Z.to_nat part_size) (drop (Z.to_nat stored) message) in
        bytes ← in_bounds "buffer->data" (memcpy_at (data buffer) (used buffer) part);
        send_later_loop fuel' message (stored + part_size)
          (set_last pending {| data := bytes; used := used buffer + part_size |})
    end
  else mret pending.

Definition send_later (client : Z) (message : cstring) : M unit :=
  conn ← read_data client;
  let pending := pending_to_be_sent conn in
  pending ← match last pending with
            | None => buffer ← take_buffer; mret [buffer]
            | Some l =>
                if used l =? sizeof_data then chain_buffer pending
                else mret pending
            end;
  pending ← send_later_loop (length message) message 0 pending;
  write_data client (set_pending_to_be_sent pending conn);;
  sock ← read_socket client;
  write_socket client (set_events POLLOUT sock).

Definition send_package (client : Z) (message : cstring) : M unit :=
  send_later client message;;
  send_later client CRLF.

(** ** The history *)

(** [strcpy(dst, src)] into a [char dst[capacity]]: [strlen(src) + 1]
    bytes are written. *)
Definition strcpy (capacity : Z) (src : cstring) : option cstring :=
  if strlen src + 1 <=? capacity then Some src else None.

(** [memmove(a + 1, a, n * sizeof(a[0]))]: elements [a[1..n]] are
    overwritten with the old [a[0..n-1]]. *)
Definition memmove_up (a : list Message) (n : Z) : option (list Message) :=
  if n =? 0 then Some a
  else if (0 <? n) && (1 + n <=? Z.of_nat (length a))
  then Some (take 1 a ++ take (Z.to_nat n) a ++ drop (1 + Z.to_nat n) a)
  else None.

Definition add_to_history (nick message : cstring) : M unit :=
  now ← get_time;
  s ← get_state;
  let h := history s in
  moved ← in_bounds "history.messages" (memmove_up (messages h) (hist_length h));
  n ← in_bounds "history.messages[0].nick" (strcpy (MAX_NICK_LENGTH + 1) nick);
  d ← in_bounds "history.messages[0].data" (strcpy (MAX_MESSAGE_LENGTH + 1) message);
  stored ← in_bounds "history.messages"
    (array_set moved 0 {| msg_nick := n; msg_data := d; msg_time := now |});
  let length' :=
    if hist_length h <? MAX_HISTORY_LENGTH then hist_length h + 1
    else hist_length h in
  modify (set_history {| messages := stored; hist_length := length' |}).

Definition PACKAGE_BEGIN_MY_NAME_IS : cstring := str "my name is ".
Definition PACKAGE_BEGIN_SEND : cstring := str "send ".
Definition PACKAGE_OK : cstring := str "ok".
Definition PACKAGE_FOLKS : cstring := str "folks".
Definition PACKAGE_NEW : cstring := str "new".

Definition older (a b : timespec) : bool :=
  (tv_sec a <? tv_sec b)
  || ((tv_sec a =? tv_sec b) && (tv_nsec a <? tv_nsec b)).

(** ** Formatting *)

(** [%d] *)
Definition fmt_d (z : Z) : cstring := str (pretty z).

(** [%02d]: padded with zeros to a width of two. *)
Definition fmt_02d (z : Z) : cstring :=
  let s := fmt_d z in
  if (length s <? 2)%nat then str "0" ++ s else s.

(** ["[%02d:%02d:%02d] %s: %s"] *)
Definition format_line (t : tm) (nick message : cstring) : cstring :=
  str "[" ++ fmt_02d (tm_hour t) ++ str ":" ++ fmt_02d (tm_min t) ++ str ":"
  ++ fmt_02d (tm_sec t) ++ str "] " ++ nick ++ str ": " ++ message.

(** [sprintf(outgoing, ...)] into [char outgoing[MAX_PACKAGE_LENGTH]]. *)
Definition sprintf_outgoing (text : cstring) : M cstring :=
  in_bounds "outgoing" (strcpy MAX_PACKAGE_LENGTH text).

(** ** The protocol handler *)

(** [history.messages[i]] as an rvalue. *)
Definition read_message (w : World) (h : History) (i : Z) : Message :=
  match array_get (messages h) i with
  | Some m => m
  | None => stray w i
  end.

(** The loop
    [while (older(history.messages[i].time, last_received_message) && i >= 0) --i;]
    Returns the final [i] and the indices of [history.messages] that
    were read, in the order of the reads. *)
Fixpoint new_scan (fuel : nat) (w : World) (h : History)
    (last_received_message : timespec) (i : Z) : option (Z * list Z) :=
  let m := read_message w h i in
  if older (msg_time m) last_received_message && (0 <=? i) then
    match fuel with
    | O => None
    | S fuel' =>
        match new_scan fuel' w h last_received_message (i - 1) with
        | Some (r, reads) => Some (r, i :: reads)
        | None => None
        end
    end
  else Some (i, [i]).

(** The loop [while (i >= 0) { ... --i; }] of the handler of [new];
    [false] is the jump to [close_connection]. *)
Fixpoint new_emit (fuel : nat) (client : Z) (i : Z) : M bool :=
  if 0 <=? i then
    match fuel with
    | O => out_of_fuel
    | S fuel' =>
        s ← get_state;
        let m := read_message (world s) (history s) i in
        let time := msg_time m in
        pretty_time ← localtime_r (tv_sec time);
        match pretty_time with
        | None => mret false
        | Some pretty_time =>
            outgoing ← sprintf_outgoing
              (format_line pretty_time (msg_nick m) (msg_data m));
            send_package client outgoing;;
            new_emit fuel' client (i - 1)
        end
    end
  else mret true.

(** The loop [for (i = 1; i < connections.length; ++i)] of [folks]. *)
Fixpoint folks_loop (fuel : nat) (client : Z) (i : Z) : M unit :=
  s ← get_state;
  if i <? conn_length (connections s) then
    match fuel with
    | O => out_of_fuel
    | S fuel' =>
        conn ← read_data i;
        send_package client (nick conn);;
        folks_loop fuel' client (i + 1)
    end
  else mret tt.

(** The label [close_connection] of [process_new_package]. *)
Definition close_connection (client : Z) : M Z :=
  sock ← read_socket client;
  close (fd sock);;
  mret (-1).

Definition process_new_package (client : Z) (package : cstring) : M Z :=
  if starts_with package PACKAGE_BEGIN_MY_NAME_IS then
    let rest := drop (length PACKAGE_BEGIN_MY_NAME_IS) package in
    let length := strlen rest in
    if MAX_NICK_LENGTH <? length then close_connection client
    else
      n ← in_bounds "connections.data[client].nick"
             (strcpy (MAX_NICK_LENGTH + 1) rest);
      conn ← read_data client;
      write_data client (set_nick n conn);;
      send_package client PACKAGE_OK;;
      mret 0
  else if strcmp_eq package PACKAGE_FOLKS then
    s ← get_state;
    outgoing ← sprintf_outgoing (fmt_d (conn_length (connections s) - 1));
    send_package client outgoing;;
    folks_loop (Z.to_nat (conn_length (connections s))) client 1;;
    mret 0
  else if starts_with package PACKAGE_BEGIN_SEND then
    let rest := drop (length PACKAGE_BEGIN_SEND) package in
    let length := strlen rest in
    if MAX_MESSAGE_LENGTH <? length then mret (-1)
    else
      conn ← read_data client;
      add_to_history (nick conn) rest;;
      send_package client PACKAGE_OK;;
      mret 0
  else if strcmp_eq package PACKAGE_NEW then
    conn ← read_data client;
    let last_received_message := last_received_message conn in
    s ← get_state;
    let i := hist_length (history s) - 1 in
    match new_scan (Z.to_nat (i + 1)) (world s) (history s)
            last_received_message i with
    | None => out_of_fuel
    | Some (i, _) =>
        outgoing ← sprintf_outgoing (fmt_d (i + 1));
        send_package client outgoing;;
        sent ← new_emit (Z.to_nat (i + 1)) client i;
        if sent : bool then
          now ← get_time;
          conn ← read_data client;
          write_data client (set_last_received_message now conn);;
          mret 0
        else close_connection client
    end
  else close_connection client.

(** ** The input line framer *)

(** The C string stored at the start of [mem]: everything before the
    first NUL. *)
Fixpoint c_str (mem : list ascii) : cstring :=
  match mem with
  | [] => []
  | c :: rest => if ascii_eqb c NUL then [] else c :: c_str rest
  end.

Fixpoint find_sub (needle hay : cstring) : option nat :=
  if starts_with hay needle then Some O
  else match hay with
       | [] => None
       | _ :: rest => S <$> find_sub needle rest
       end.

(** [strstr(mem, needle)]: the offset of the first occurrence. *)
Definition strstr (mem : list ascii) (needle : cstring) : option nat :=
  find_sub needle (c_str mem).

(** [memmove(a, a + from, n)] *)
Definition memmove_down (a : list ascii) (from n : Z) : option (list ascii) :=
  if (0 <=? from) && (0 <=? n) && (from + n <=? Z.of_nat (length a))
  then Some (take (Z.to_nat n) (drop (Z.to_nat from) a) ++ drop (Z.to_nat n) a)
  else None.

Definition write_input_buffer (client : Z) (b : Buffer) : M unit :=
  conn ← read_data client;
  write_data client (set_input_buffer b conn).

(** The [while (1)] loop of [process_new_data]; [begin] is the offset
    [begin - buffer->data].  The result is [inl (-1)] for the two
    [return -1] and [inr begin] for the [break]. *)
Fixpoint process_new_data_loop (fuel : nat) (client : Z) (begin : Z)
    (process : Z -> cstring -> M Z) : M (Z + Z) :=
  match fuel with
  | O => out_of_fuel
  | S fuel' =>
      conn ← read_data client;
      let buffer := input_buffer conn in
      match strstr (drop (Z.to_nat begin) (data buffer)) CRLF with
      | None =>
          if (begin =? 0) && (sizeof_data - 1 =? used buffer) then
            sock ← read_socket client;
            close (fd sock);;
            mret (inl (-1))
          else mret (inr begin)
      | Some off =>
          let end_of_package := begin + Z.of_nat off in
          bytes ← in_bounds "buffer->data"
                    (array_set (data buffer) end_of_package NUL);
          write_input_buffer client {| data := bytes; used := used buffer |};;
          r ← process client (c_str (drop (Z.to_nat begin) bytes));
          if r =? -1 then mret (inl (-1))
          else process_new_data_loop fuel' client (end_of_package + 2) process
      end
  end.

Definition process_new_data (client : Z) : M Z :=
  r ← process_new_data_loop (Z.to_nat sizeof_data) client 0 process_new_package;
  match r with
  | inl code => mret code
  | inr begin =>
      conn ← read_data client;
      let buffer := input_buffer conn in
      let used' := used buffer - begin in
      bytes ← in_bounds "buffer->data" (memmove_down (data buffer) begin used');
      write_input_buffer client {| data := bytes; used := used' |};;
      mret 0
  end.

(** [recv(fd, buf, len, 0)]: the result and the bytes stored at [buf].
    Bytes that do not fit stay in the socket.  The tape is that of one
    sender: it is not indexed by the descriptor, so bytes left over are
    handed to the next [recv] whatever its socket, and the worlds below
    have a single client that sends. *)
Definition recv (len : Z) : M (Z * list ascii) := fun s =>
  let w := world s in
  match recv_tape w with
  | [] => Ok ((-1, []), s)
  | Received bytes :: rest =>
      let got := take (Z.to_nat len) bytes in
      let left := drop (Z.to_nat len) bytes in
      let tape := match left with [] => rest | _ => Received left :: rest end in
      Ok ((Z.of_nat (length got), got), set_world (with_recv_tape tape w) s)
  | PeerClosed :: rest => Ok ((0, []), set_world (with_recv_tape rest w) s)
  | RecvFailed :: rest => Ok ((-1, []), set_world (with_recv_tape rest w) s)
  end.

(** [connections.data[client].closed = 1] *)
Definition mark_closed (client : Z) : M unit :=
  conn ← read_data client;
  write_data client (set_closed true conn).

Definition handle_input (client : Z) : M unit :=
  sock ← read_socket client;
  conn ← read_data client;
  let buffer := input_buffer conn in
  '(received, bytes) ← recv (size_t (sizeof_data - used buffer - 1));
  if received =? 0 then mark_closed client
  else if received =? -1 then mark_closed client
  else
    stored ← in_bounds "buffer->data" (memcpy_at (data buffer) (used buffer) bytes);
    let used' := used buffer + received in
    ended ← in_bounds "buffer->data" (array_set stored used' NUL);
    write_input_buffer client {| data := ended; used := used' |};;
    r ← process_new_data client;
    if r =? -1 then mark_closed client else mret tt.

(** ** Draining the output queue *)

(** [send(fd, data, len, 0)]: [inl n] is the number of bytes taken,
    [inr true] is -1 with EWOULDBLOCK or EAGAIN, [inr false] is -1 with
    another error.  A socket with no answer left would block. *)
Definition send (d : Z) (bytes : list ascii) : M (Z + bool) := fun s =>
  let w := world s in
  match send_tape w with
  | [] => Ok (inr true, s)
  | Room n :: rest =>
      let sent := Z.max 0 (Z.min n (Z.of_nat (length bytes))) in
      Ok (inl sent,
          set_world (with_wire ((d, take (Z.to_nat sent) bytes) :: wire w)
                       (with_send_tape rest w)) s)
  | WouldBlock :: rest => Ok (inr true, set_world (with_send_tape rest w) s)
  | SendFailed :: rest => Ok (inr false, set_world (with_send_tape rest w) s)
  end.

(** The [while (1)] loop of [handle_output] over the chain that starts
    at [pending->first].  Returns the chain that is left and whether the
    loop was left by [break] ([true]) or by [return] ([false]). *)
Fixpoint handle_output_loop (d : Z) (pending : list Buffer)
  : M (list Buffer * bool) :=
  match pending with
  | [] => out_of_bounds "pending->first"
  | buffer :: next =>
      sent ← send d (take (Z.to_nat (used buffer)) (data buffer));
      match sent with
      | inr true => mret (pending, false)
      | inr false => die "'send' failed"
      | inl sent =>
          if sent =? used buffer then
            release_buffer buffer;;
            match next with
            | [] => mret ([], true)
            | _ => handle_output_loop d next
            end
          else assert_fails "sent == buffer->buffer.used"
      end
  end.

Definition handle_output (client : Z) : M unit :=
  conn ← read_data client;
  let pending := pending_to_be_sent conn in
  sock ← read_socket client;
  match pending with
  | [] => assert_fails "pending->first"
  | _ =>
      '(pending, finished) ← handle_output_loop (fd sock) pending;
      conn ← read_data client;
      write_data client (set_pending_to_be_sent pending conn);;
      if finished : bool then
        sock ← read_socket client;
        write_socket client (set_events POLLIN sock)
      else mret tt
  end.

(** ** The connection table *)

Definition zero_timespec : timespec := {| tv_sec := 0; tv_nsec := 0 |}.

Definition zero_Buffer : Buffer :=
  {| data := replicate (Z.to_nat sizeof_data) NUL; used := 0 |}.

(** [memset(&connections.data[n], 0, sizeof(connections.data[n]))] *)
Definition zero_ConnectionData : ConnectionData :=
  {| closed := false; nick := []; last_received_message := zero_timespec;
     pending_to_be_sent := []; input_buffer := zero_Buffer |}.

Definition zero_pollfd : pollfd := {| fd := 0; events := 0; revents := 0 |}.

Definition zero_Message : Message :=
  {| msg_nick := []; msg_data := []; msg_time := zero_timespec |}.

(** [accept(...)]: no answer left is a failure. *)
Definition accept : M Z := fun s =>
  let w := world s in
  match accept_tape w with
  | [] => Ok (-1, s)
  | d :: rest => Ok (d, set_world (with_accept_tape rest w) s)
  end.

Definition accept_new_client : M unit :=
  client_fd ← accept;
  if client_fd <? 0 then die "'accept' failed"
  else
    s ← get_state;
    let n := conn_length (connections s) in
    sock ← read_socket n;
    write_socket n {| fd := client_fd; events := POLLIN; revents := revents sock |};;
    write_data n zero_ConnectionData;;
    nick ← in_bounds "connections.data[n].nick"
             (strcpy (MAX_NICK_LENGTH + 1) (str "anonym"));
    conn ← read_data n;
    write_data n (set_nick nick conn);;
    now ← get_time;
    conn ← read_data n;
    write_data n (set_last_received_message now conn);;
    modify (fun s => set_connections
                       (set_conn_length (conn_length (connections s) + 1)
                          (connections s)) s).

(** The loop of [clean_closed_sockets]; returns the final [d]. *)
Fixpoint clean_closed_sockets_loop (fuel : nat) (s d : Z) : M Z :=
  st ← get_state;
  if s <? conn_length (connections st) then
    match fuel with
    | O => out_of_fuel
    | S fuel' =>
        conn ← read_data s;
        if closed conn then clean_closed_sockets_loop fuel' (s + 1) d
        else
          sock ← read_socket s;
          write_socket d sock;;
          write_data d conn;;
          clean_closed_sockets_loop fuel' (s + 1) (d + 1)
    end
  else mret d.

Definition clean_closed_sockets : M unit :=
  st ← get_state;
  d ← clean_closed_sockets_loop (Z.to_nat (conn_length (connections st))) 0 0;
  modify (fun s => set_connections (set_conn_length d (connections s)) s).

(** ** Start-up and the event loop *)

(** The state of the globals when [main] starts (static storage is
    zeroed), in a given world. *)
Definition startup (w : World) : State :=
  {| first_free_buffer := [];
     connections :=
       {| sockets := replicate (Z.to_nat MAX_CONNECTIONS) zero_pollfd;
          conn_data := replicate (Z.to_nat MAX_CONNECTIONS) zero_ConnectionData;
          conn_length := 0 |};
     history :=
       {| messages := replicate (Z.to_nat MAX_HISTORY_LENGTH) zero_Message;
          hist_length := 0 |};
     world := w |}.

(** [init]: chains the [BUFFER_POOL_SIZE] blocks of [free_buffers]. *)
Definition init : M unit :=
  modify (set_first_free_buffer
            (replicate (Z.to_nat BUFFER_POOL_SIZE) zero_Buffer)).

(** The end of [prepare_server], once [socket], [bind] and [listen]
    have succeeded. *)
Definition prepare_server (server_fd : Z) : M unit :=
  sock ← read_socket 0;
  write_socket 0 {| fd := server_fd; events := POLLIN; revents := revents sock |};;
  modify (fun s => set_connections (set_conn_length 1 (connections s)) s).

(** [poll(connections.sockets, connections.length, -1)]: stores the
    reported [revents] in the first [connections.length] entries.  Only
    requested events and error conditions are reported. *)
Definition poll : M unit := fun s =>
  let w := world s in
  match poll_tape w with
  | [] => Exit "'poll' failed"
  | answer :: rest =>
      let n := Z.to_nat (conn_length (connections s)) in
      let reportable p :=
        Z.lor (events p) (Z.lor POLLERR (Z.lor POLLHUP POLLNVAL)) in
      let polled :=
        imap (fun i p =>
                if (i <? n)%nat
                then set_revents (Z.land (default 0 (answer !! i)) (reportable p)) p
                else p)
             (sockets (connections s)) in
      Ok (tt, set_world (with_poll_tape rest w)
                (set_connections (set_sockets polled (connections s)) s))
  end.

Definition has (events flag : Z) : bool := negb (Z.land events flag =? 0).

(** The [for (i = 0, n = connections.length; i < n; ++i)] loop of [main]. *)
Fixpoint dispatch_loop (fuel : nat) (i n : Z) : M unit :=
  if i <? n then
    match fuel with
    | O => out_of_fuel
    | S fuel' =>
        sock ← read_socket i;
        let events := revents sock in
        (if has events POLLIN then
           if i =? 0 then accept_new_client else handle_input i
         else mret tt);;
        (if has events POLLOUT then
           if i =? 0 then assert_fails "i" else handle_output i
         else if has events (Z.lor POLLERR (Z.lor POLLHUP POLLNVAL)) then
           mark_closed i
         else mret tt);;
        dispatch_loop fuel' (i + 1) n
    end
  else mret tt.

(** One turn of the [while (1)] loop of [main]. *)
Definition iteration : M unit :=
  poll;;
  s ← get_state;
  let n := conn_length (connections s) in
  dispatch_loop (Z.to_nat n) 0 n;;
  clean_closed_sockets.

(** [main] up to the event loop. *)
Definition boot (server_fd : Z) : M unit :=
  init;;
  prepare_server server_fd.

(** * Vocabulary of the properties *)

(** [connections.data[client]], when [client] is a slot of the table. *)
Definition conn_of (client : Z) (s : State) : option ConnectionData :=
  array_get (conn_data (connections s)) client.

(** The output queue of a connection and the bytes it holds. *)
Definition queue (client : Z) (s : State) : list Buffer :=
  match conn_of client s with
  | Some conn => pending_to_be_sent conn
  | None => []
  end.

Definition block_bytes (b : Buffer) : list ascii :=
  take (Z.to_nat (used b)) (data b).

Definition chain_bytes (q : list Buffer) : list ascii :=
  concat (map block_bytes q).

Definition queue_bytes (client : Z) (s : State) : list ascii :=
  chain_bytes (queue client s).

(** The time of the connection's last [new]. *)
Definition cursor (client : Z) (s : State) : option timespec :=
  last_received_message <$> conn_of client s.

Definition free_blocks (s : State) : Z :=
  Z.of_nat (length (first_free_buffer s)).

(** Blocks held by the output queues of the slots [0 .. length) of the
    table. *)
Definition queued_blocks (s : State) : Z :=
  Z.of_nat
    (length
       (concat
          (map pending_to_be_sent
             (take (Z.to_nat (conn_length (connections s)))
                (conn_data (connections s)))))).

Definition pool_invariant (s : State) : Prop :=
  free_blocks s + queued_blocks s = BUFFER_POOL_SIZE.

(** The entries of the history, newest first. *)
Definition entries (h : History) : list Message :=
  take (Z.to_nat (hist_length h)) (messages h).

(** Well-formed blocks, pool and history. *)
Definition wf_block (b : Buffer) : Prop :=
  length (data b) = Z.to_nat sizeof_data /\ 0 <= used b <= sizeof_data.

Definition wf_pool (s : State) : Prop :=
  Forall (fun b => length (data b) = Z.to_nat sizeof_data) (first_free_buffer s).

Definition wf_history (h : History) : Prop :=
  length (messages h) = Z.to_nat MAX_HISTORY_LENGTH
  /\ 0 <= hist_length h <= MAX_HISTORY_LENGTH.

(** A connection that output can be queued for. *)
Definition ready (client : Z) (s : State) : Prop :=
  is_Some (conn_of client s)
  /\ is_Some (array_get (sockets (connections s)) client)
  /\ Forall wf_block (queue client s)
  /\ wf_pool s.

(** Free bytes in the last block of a chain. *)
Definition slack (q : list Buffer) : Z :=
  match last q with
  | Some b => sizeof_data - used b
  | None => 0
  end.

(** Bytes that can still be queued for [client]: the free blocks and
    the rest of its last block. *)
Definition room (client : Z) (s : State) : Z :=
  sizeof_data * free_blocks s + slack (queue client s).

(** Non-increasing timestamps. *)
Definition newest_first (l : list Message) : Prop :=
  StronglySorted (fun a b => older (msg_time a) (msg_time b) = false) l.

(** One line of the reply to [new], with its terminator. *)
Definition line (w : World) (m : Message) : cstring :=
  match localtime w (tv_sec (msg_time m)) with
  | Some t => format_line t (msg_nick m) (msg_data m) ++ CRLF
  | None => []
  end.

(** The reply to [new] for a selection of entries given newest first:
    the count, then the lines from the oldest to the newest. *)
Definition new_reply (w : World) (selection : list Message) : cstring :=
  fmt_d (Z.of_nat (length selection)) ++ CRLF
  ++ concat (map (line w) (rev selection)).

(** The reply in the words of the specification: the count, then the
    lines newest first. *)
Definition new_reply_newest_first (w : World) (selection : list Message)
  : cstring :=
  fmt_d (Z.of_nat (length selection)) ++ CRLF
  ++ concat (map (line w) selection).

(** The entries that are strictly later than a cursor, and those that
    are not older than it. *)
Definition later_than (cursor : timespec) (h : History) : list Message :=
  List.filter (fun m => older cursor (msg_time m)) (entries h).

Definition not_older_than (cursor : timespec) (h : History) : list Message :=
  List.filter (fun m => negb (older (msg_time m) cursor)) (entries h).

(** The entries the handler of [new] replies with: the first [i + 1]
    entries, for the [i] its scan stops at. *)
Definition new_selection (w : World) (h : History) (cursor : timespec)
  : option (list Message) :=
  let i := hist_length h - 1 in
  match new_scan (Z.to_nat (i + 1)) w h cursor i with
  | Some (i, _) => Some (take (Z.to_nat (i + 1)) (messages h))
  | None => None
  end.

(** The reply fits the packet buffer and the local time is known. *)
Definition printable (w : World) (m : Message) : Prop :=
  exists t, localtime w (tv_sec (msg_time m)) = Some t
            /\ strlen (format_line t (msg_nick m) (msg_data m)) + 1
               <= MAX_PACKAGE_LENGTH.

(** What queueing output for [client] leaves alone. *)
Definition same_but_queue (client : Z) (s s' : State) : Prop :=
  history s' = history s /\ world s' = world s
  /\ cursor client s' = cursor client s.

(** ** Running the program *)

(** What is seen of the state at the end of a run. *)
Definition observe {A B} (f : State -> B) (o : outcome (A * State)) : outcome B :=
  match o with
  | Ok (_, s) => Ok (f s)
  | Exit msg => Exit msg
  | AssertionFailed e => AssertionFailed e
  | OutOfBounds w => OutOfBounds w
  | OutOfFuel => OutOfFuel
  end.

(** The state a run ends in. *)
Definition state_after {A} (m : M A) (s : State) : State :=
  match m s with
  | Ok (_, s') => s'
  | _ => s
  end.

Fixpoint times (n : nat) (m : M unit) : M unit :=
  match n with
  | O => mret tt
  | S n' => m;; times n' m
  end.

(** ** The properties as the specification words them *)

(** The reply to [new] lists the entries later than the cursor, newest
    first. *)
Definition new_replies_newest_first (client : Z) (s : State) : Prop :=
  forall conn, conn_of client s = Some conn ->
  exists s',
    process_new_package client PACKAGE_NEW s = Ok (0, s')
    /\ queue_bytes client s'
       = queue_bytes client s
         ++ new_reply_newest_first (world s)
              (later_than (last_received_message conn) (history s)).

(** [new] selects the entries strictly later than the cursor. *)
Definition new_selects_later_than (client : Z) (s : State) : Prop :=
  forall conn, conn_of client s = Some conn ->
  new_selection (world s) (history s) (last_received_message conn)
  = Some (later_than (last_received_message conn) (history s)).

(** A [new] that follows a successful [new] is answered with [0]. *)
Definition second_new_is_empty (client : Z) (s : State) : Prop :=
  forall s1, process_new_package client PACKAGE_NEW s = Ok (0, s1) ->
  exists s2,
    process_new_package client PACKAGE_NEW s1 = Ok (0, s2)
    /\ queue_bytes client s2 = queue_bytes client s1 ++ str "0" ++ CRLF.

(** * Scenarios

    Worlds in which one client (descriptor 5) connects to a server that
    listens on descriptor 3, and the states the server reaches in them. *)

(** A server whose local time is UTC. *)
Definition utc (sec : Z) : option tm :=
  Some {| tm_hour := (sec / 3600) mod 24;
          tm_min := (sec / 60) mod 60;
          tm_sec := sec mod 60 |}.

Definition at_second (s : Z) : timespec := {| tv_sec := s; tv_nsec := 0 |}.

Definition quiet : World :=
  {| clock := []; localtime := utc; stray := fun _ => zero_Message;
     accept_tape := []; poll_tape := []; recv_tape := []; send_tape := [];
     closed_fds := []; wire := [] |}.

(** The listener is readable at the first [poll]; at each of the next
    [turns] polls the client's socket is readable and writable.  The
    clock is read at the given seconds, the client sends [input], and
    the socket answers the server's writes with [drains]. *)
Definition one_client (readings : list Z) (input : list cstring)
    (drains : list send_answer) (turns : nat) : World :=
  with_clock (map at_second readings)
    (with_accept_tape [5]
       (with_poll_tape
          ([POLLIN] :: replicate turns [0; Z.lor POLLIN POLLOUT])
          (with_recv_tape (map Received input)
             (with_send_tape drains quiet)))).

Definition packet (text : string) : cstring := str text ++ CRLF.

(** [main] up to the event loop and [n] turns of the loop. *)
Definition serve (n : nat) : M unit := boot 3;; times n iteration.

(** The client asks for the peers and then sends an unknown command,
    in one segment. *)
Definition leak_world : World :=
  one_client [100] [packet "folks" ++ packet "garble"] [] 1.

(** The client posts [n] messages. *)
Definition flood (n : nat) : World :=
  one_client (seqZ 100 (Z.of_nat n + 1))
    [concat (replicate n (packet "send x"))] (replicate 5 (Room 1000)) 5.

(** Fields at and just over their limits. *)
Definition long_message : World :=
  one_client [100; 200]
    [str "send " ++ replicate 141 "m"%char ++ CRLF] [] 1.

Definition long_nick : World :=
  one_client [100; 200]
    [str "my name is " ++ replicate 21 "n"%char ++ CRLF] [] 1.

Definition longest_message : World :=
  one_client [100; 200]
    [str "send " ++ replicate 140 "m"%char ++ CRLF] [] 1.

Definition longest_nick : World :=
  one_client [100; 200]
    [str "my name is " ++ replicate 20 "n"%char ++ CRLF] [] 1.

(** 1024 clients arrive. *)
Definition crowd : World :=
  with_clock (replicate 1024 (at_second 100))
    (with_accept_tape (seqZ 4 1024) quiet).

(** The socket takes 3 of the 11 bytes of the reply to [folks]. *)
Definition slow_reader : World :=
  one_client [100] [packet "folks"] [Room 3] 2.

(** The client polls before anything was posted. *)
Definition early_poll : World :=
  one_client [100; 200] [packet "new"] [Room 100] 2.

(** A nick of 20 bytes posts a message of 140 bytes and polls. *)
Definition longest_line : World :=
  one_client [100; 200; 300]
    [str "my name is " ++ replicate 20 "n"%char ++ CRLF;
     str "send " ++ replicate 140 "m"%char ++ CRLF;
     packet "new"] (replicate 5 (Room 1000)) 5.

(** Two messages were posted since the client's cursor. *)
Definition two_messages : State :=
  state_after (serve 2)
    (startup (one_client [100; 200; 300; 400]
                [packet "send a" ++ packet "send b"] [] 1)).

Definition two_messages_conn : ConnectionData :=
  default zero_ConnectionData (conn_of 1 two_messages).

(** The clock gave the same reading when the client was accepted and
    when the message was posted. *)
Definition same_reading : State :=
  state_after (serve 2)
    (startup (one_client [100; 100; 300] [packet "send a"] [] 1)).

(** The clock will give the reading of the last post once more. *)
Definition coarse_clock : State :=
  state_after (serve 2)
    (startup (one_client [100; 200; 200; 300] [packet "send hi"] [] 1)).

(** One message was posted; the clock advances at every reading. *)
Definition one_message : State :=
  state_after (serve 2)
    (startup (one_client [100; 200; 300; 400] [packet "send hi"] [] 1)).

(** * Vocabulary of the further properties *)

(** [connections.sockets[client]], when [client] is a slot of the table. *)
Definition sock_of (client : Z) (s : State) : option pollfd :=
  array_get (sockets (connections s)) client.

(** The bytes [send] has taken for descriptor [d], in the order sent. *)
Definition wire_bytes (d : Z) (w : World) : list ascii :=
  concat (map snd (List.filter (fun p => fst p =? d) (rev (wire w)))).

(** What queueing output for [client] changes: blocks move from the
    pool to the end of its queue and its socket waits for [POLLOUT];
    the history, the world and the other slots stay as they are. *)
Definition queued_for (client : Z) (s s' : State) : Prop :=
  history s' = history s /\ world s' = world s
  /\ conn_length (connections s') = conn_length (connections s)
  /\ length (conn_data (connections s')) = length (conn_data (connections s))
  /\ length (sockets (connections s')) = length (sockets (connections s))
  /\ (forall i, i <> client -> conn_of i s' = conn_of i s)
  /\ (forall i, i <> client -> sock_of i s' = sock_of i s)
  /\ (exists conn q,
        conn_of client s = Some conn
        /\ conn_of client s' = Some (set_pending_to_be_sent q conn))
  /\ (exists sock,
        sock_of client s = Some sock
        /\ sock_of client s' = Some (set_events POLLOUT sock))
  /\ free_blocks s' + Z.of_nat (length (queue client s'))
     = free_blocks s + Z.of_nat (length (queue client s)).

(** A reply to [folks] is queued and the socket takes whatever is
    written. *)
Definition reply_pending : State :=
  state_after (serve 2)
    (startup (one_client [100] [packet "folks"] [Room 1000] 2)).

(** The same with a socket that would block. *)
Definition reply_blocked : State :=
  state_after (serve 2)
    (startup (one_client [100] [packet "folks"] [WouldBlock] 2)).

(** The nicks [folks] lists: those of the slots [1 .. length) of the
    table. *)
Definition peer_nicks (s : State) : list cstring :=
  drop 1 (take (Z.to_nat (conn_length (connections s)))
            (map nick (conn_data (connections s)))).

(** The reply to [folks]: the count, then one line per nick. *)
Definition folks_reply (s : State) : cstring :=
  fmt_d (conn_length (connections s) - 1) ++ CRLF
  ++ concat (map (fun n => n ++ CRLF) (peer_nicks s)).

(** Two clients are connected; the second one has named itself. *)
Definition two_clients : State :=
  state_after (serve 3)
    (startup
       (with_clock [at_second 100; at_second 110]
          (with_accept_tape [5; 6]
             (with_poll_tape [[POLLIN]; [POLLIN]; [0; 0; POLLIN]]
                (with_recv_tape [Received (packet "my name is bob")]
                   quiet))))).

(** The slots of the table with their descriptors. *)
Definition table (s : State) : list (ConnectionData * pollfd) :=
  let n := Z.to_nat (conn_length (connections s)) in
  combine (take n (conn_data (connections s))) (take n (sockets (connections s))).

(** A slot that is not marked closed. *)
Definition open_slot (p : ConnectionData * pollfd) : bool := negb (closed (fst p)).

(** The slots of the table that are not marked closed, in their order. *)
Definition open_slots (s : State) : list (ConnectionData * pollfd) :=
  List.filter open_slot (table s).

(** The record of a client that was just accepted. *)
Definition fresh_ConnectionData (now : timespec) : ConnectionData :=
  {| closed := false; nick := str "anonym"; last_received_message := now;
     pending_to_be_sent := []; input_buffer := zero_Buffer |}.

(** The server is up and nobody has connected. *)
Definition listening : State :=
  state_after (boot 3) (startup (one_client [100] [] [] 0)).

(** The peer of the only client has closed the connection. *)
Definition hung_up : State :=
  state_after (serve 1)
    (startup
       (with_recv_tape [PeerClosed] (one_client [100] [] [] 1))).

(** Three clients, the second of which is marked closed. *)
Definition one_of_three_closed : State :=
  state_after
    (boot 3;; times 3 accept_new_client;; mark_closed 2)
    (startup
       (with_clock (map at_second [100; 110; 120])
          (with_accept_tape [5; 6; 7] quiet))).

(** What handling a packet leaves alone: the length of the table and,
    in every slot, the input buffer, the [closed] mark and the
    descriptor. *)
Definition keeps_framing (s s' : State) : Prop :=
  conn_length (connections s') = conn_length (connections s)
  /\ (forall i c, conn_of i s = Some c ->
        exists c', conn_of i s' = Some c'
                   /\ input_buffer c' = input_buffer c /\ closed c' = closed c)
  /\ (forall i p, sock_of i s = Some p ->
        exists p', sock_of i s' = Some p' /\ fd p' = fd p).

(** The value a run returns. *)
Definition returned {A} (o : outcome (A * State)) : outcome A :=
  match o with
  | Ok (a, _) => Ok a
  | Exit msg => Exit msg
  | AssertionFailed e => AssertionFailed e
  | OutOfBounds w => OutOfBounds w
  | OutOfFuel => OutOfFuel
  end.

(** One client whose input buffer holds [bytes] and their terminator,
    as [handle_input] leaves it before it calls [process_new_data]. *)
Definition with_input (bytes : list ascii) : State :=
  state_after
    (boot 3;; accept_new_client;;
     write_input_buffer 1
       {| data := take (Z.to_nat sizeof_data)
                    (bytes ++ replicate (Z.to_nat sizeof_data) NUL);
          used := strlen bytes |})
    (startup (with_clock [at_second 100] (with_accept_tape [5] quiet))).

(** A client whose input buffer holds the line [folks] and the two
    first bytes of a next line, and the state once the line has been
    cut and handled. *)
Definition line_and_a_half : State := with_input (packet "folks" ++ str "ne").

Definition line_handled : State :=
  state_after
    (write_input_buffer 1
       {| data := str "folks" ++ NUL :: LF :: str "ne" ++ NUL :: replicate 163 NUL;
          used := 9 |};;
     process_new_package 1 (str "folks"))
    line_and_a_half.

(** Two clients are connected, and the next [poll] reports that the
    first of them hung up. *)
Definition hangup_pending : State :=
  state_after (boot 3;; times 2 accept_new_client)
    (startup (with_clock (map at_second [100; 110])
                (with_accept_tape [5; 6]
                   (with_poll_tape [[0; POLLHUP]] quiet)))).

(** * Proofs *)

(** ** The state monad *)

Lemma bind_Ok {A B} (m : M A) (f : A -> M B) s a s' :
  m s = Ok (a, s') -> (m ≫= f) s = f a s'.
Proof. intros H. unfold mbind, M_bind. now rewrite H. Qed.

Lemma ret_Ok {A} (a : A) s : (mret a : M A) s = Ok (a, s).
Proof. reflexivity. Qed.

Lemma in_bounds_Some {A} what (o : option A) a s :
  o = Some a -> in_bounds what o s = Ok (a, s).
Proof. now intros ->. Qed.

(** Runs a step of a monadic program whose outcome is known. *)
Ltac run H := erewrite bind_Ok by (exact H).

(** ** Chains of blocks *)

Lemma sizeof_data_eq : sizeof_data = 173.
Proof. reflexivity. Qed.

Lemma size_t_small z : 0 <= z < 2 ^ 64 -> size_t z = z.
Proof. intros H. unfold size_t. now apply Z.mod_small. Qed.

Lemma chain_bytes_app q1 q2 : chain_bytes (q1 ++ q2) = chain_bytes q1 ++ chain_bytes q2.
Proof. unfold chain_bytes. now rewrite map_app, concat_app. Qed.

Lemma chain_bytes_one b : chain_bytes [b] = block_bytes b.
Proof. unfold chain_bytes. simpl. apply app_nil_r. Qed.

Lemma set_last_snoc q b b' : set_last (q ++ [b]) b' = q ++ [b'].
Proof. unfold set_last. now rewrite removelast_last. Qed.

Lemma slack_snoc q b : slack (q ++ [b]) = sizeof_data - used b.
Proof. unfold slack. now rewrite last_snoc. Qed.

Lemma memcpy_at_append dst off src :
  0 <= off -> off + Z.of_nat (length src) <= Z.of_nat (length dst) ->
  exists bytes,
    memcpy_at dst off src = Some bytes
    /\ length bytes = length dst
    /\ take (Z.to_nat (off + Z.of_nat (length src))) bytes
       = take (Z.to_nat off) dst ++ src.
Proof.
  intros Hoff Hfit. unfold memcpy_at.
  replace (0 <=? off) with true by (symmetry; apply Z.leb_le; lia).
  replace (off + Z.of_nat (length src) <=? Z.of_nat (length dst)) with true
    by (symmetry; apply Z.leb_le; lia).
  simpl. eexists. split; [reflexivity|]. split.
  - rewrite !length_app, length_take, length_drop. lia.
  - rewrite app_assoc. rewrite take_app_length'; [reflexivity|].
    rewrite length_app, length_take. lia.
Qed.

Lemma set_first_free_buffer_twice l1 l2 s :
  set_first_free_buffer l1 (set_first_free_buffer l2 s) = set_first_free_buffer l1 s.
Proof. reflexivity. Qed.

Lemma set_first_free_buffer_same s :
  set_first_free_buffer (first_free_buffer s) s = s.
Proof. now destruct s. Qed.

Lemma take_part_length (message : cstring) stored part :
  0 <= stored -> 0 <= part -> stored + part <= strlen message ->
  length (take (Z.to_nat part) (drop (Z.to_nat stored) message)) = Z.to_nat part.
Proof.
  unfold strlen. intros. rewrite length_take, length_drop. lia.
Qed.

Lemma drop_split_part (message : cstring) stored part :
  0 <= stored -> 0 <= part ->
  drop (Z.to_nat stored) message
  = take (Z.to_nat part) (drop (Z.to_nat stored) message)
    ++ drop (Z.to_nat (stored + part)) message.
Proof.
  intros. rewrite Z2Nat.inj_add by lia.
  rewrite <- drop_drop. now rewrite take_drop.
Qed.

Lemma Forall_snoc_inv {A} (P : A -> Prop) q b :
  Forall P (q ++ [b]) -> Forall P q /\ P b.
Proof.
  intros H. apply Forall_app in H as [Hq Hb]. split; [assumption|].
  now inversion Hb.
Qed.

Lemma Forall_snoc {A} (P : A -> Prop) q b :
  Forall P q -> P b -> Forall P (q ++ [b]).
Proof. intros Hq Hb. apply Forall_app. split; [assumption|]. now constructor. Qed.

(** One pass through the body of the loop once the block to fill is the
    last of the chain. *)
Lemma fill_last message stored q b :
  0 <= stored < strlen message ->
  wf_block b -> used b < sizeof_data ->
  let part_size := Z.min (size_t (sizeof_data - used b)) (strlen message - stored) in
  let part := take (Z.to_nat part_size) (drop (Z.to_nat stored) message) in
  exists bytes,
    memcpy_at (data b) (used b) part = Some bytes
    /\ 0 < part_size
    /\ part_size = Z.min (sizeof_data - used b) (strlen message - stored)
    /\ wf_block {| data := bytes; used := used b + part_size |}
    /\ chain_bytes (q ++ [{| data := bytes; used := used b + part_size |}])
         ++ drop (Z.to_nat (stored + part_size)) message
       = chain_bytes (q ++ [b]) ++ drop (Z.to_nat stored) message.
Proof.
  intros Hst [Hlen Hused] Hroom part_size part.
  assert (Hsz : size_t (sizeof_data - used b) = sizeof_data - used b).
  { apply size_t_small. rewrite sizeof_data_eq in *. lia. }
  assert (Hps : part_size = Z.min (sizeof_data - used b) (strlen message - stored)).
  { unfold part_size. now rewrite Hsz. }
  assert (Hpos : 0 < part_size) by lia.
  assert (Hpl : length part = Z.to_nat part_size).
  { apply take_part_length; lia. }
  destruct (memcpy_at_append (data b) (used b) part) as (bytes & Hcpy & Hbl & Htake).
  { lia. } { rewrite Hpl, Hlen. lia. }
  exists bytes. repeat split; try assumption; simpl; try lia.
  rewrite !chain_bytes_app, !chain_bytes_one. unfold block_bytes. simpl.
  rewrite Hpl, Z2Nat.id in Htake by lia. rewrite Htake.
  rewrite <- !app_assoc. do 2 f_equal.
  symmetry. apply drop_split_part; lia.
Qed.

Lemma send_later_loop_spec fuel : forall message stored q b s,
  0 <= stored <= strlen message ->
  strlen message - stored <= Z.of_nat fuel ->
  Forall wf_block (q ++ [b]) -> wf_pool s ->
  (stored < strlen message -> stored = 0 -> used b < sizeof_data) ->
  (stored < strlen message -> 0 < stored -> used b = sizeof_data) ->
  strlen message - stored
    <= sizeof_data * free_blocks s + (sizeof_data - used b) ->
  exists q' free',
    send_later_loop fuel message stored (q ++ [b]) s
      = Ok (q', set_first_free_buffer free' s)
    /\ chain_bytes q' = chain_bytes (q ++ [b]) ++ drop (Z.to_nat stored) message
    /\ Forall wf_block q'
    /\ wf_pool (set_first_free_buffer free' s)
    /\ sizeof_data * Z.of_nat (length free') + slack q'
       = sizeof_data * free_blocks s + (sizeof_data - used b)
         - (strlen message - stored).
Proof.
  induction fuel as [|fuel IH]; intros message stored q b s Hst Hfuel Hwf Hpool H0 H1 Hcap.
  - assert (stored = strlen message) as -> by lia.
    exists (q ++ [b]), (first_free_buffer s). simpl.
    rewrite Z.ltb_irrefl, set_first_free_buffer_same.
    split; [reflexivity|]. split.
    { unfold strlen. rewrite Nat2Z.id, drop_all. now rewrite app_nil_r. }
    split; [assumption|]. split; [assumption|].
    rewrite slack_snoc. unfold free_blocks. lia.
  - simpl. destruct (stored <? strlen message) eqn:Hlt.
    2:{ apply Z.ltb_ge in Hlt. assert (stored = strlen message) as -> by lia.
        exists (q ++ [b]), (first_free_buffer s).
        rewrite set_first_free_buffer_same.
        split; [reflexivity|]. split.
        { unfold strlen. rewrite Nat2Z.id, drop_all. now rewrite app_nil_r. }
        split; [assumption|]. split; [assumption|].
        rewrite slack_snoc. unfold free_blocks. lia. }
    apply Z.ltb_lt in Hlt.
    destruct (Forall_snoc_inv _ _ _ Hwf) as [Hq Hb].
    destruct (stored =? 0) eqn:Hz.
    + apply Z.eqb_eq in Hz. specialize (H0 Hlt Hz).
      destruct (fill_last message stored q b ltac:(lia) Hb H0)
        as (bytes & Hcpy & Hpos & Hps & Hwfb & Hbytes).
      erewrite bind_Ok by apply ret_Ok.
      erewrite bind_Ok by (apply in_bounds_Some; apply last_snoc).
      erewrite bind_Ok by (apply in_bounds_Some; exact Hcpy).
      rewrite set_last_snoc.
      edestruct (IH message (stored + Z.min (size_t (sizeof_data - used b)) (strlen message - stored)) q
                   {| data := bytes; used := used b + Z.min (size_t (sizeof_data - used b)) (strlen message - stored) |} s)
        as (q' & free' & Hrun & Hb' & Hwf' & Hpool' & Hacc); simpl; try lia.
      { now apply Forall_snoc. }
      { assumption. }
      exists q', free'. split; [exact Hrun|]. split.
      { rewrite Hb'. exact Hbytes. }
      split; [assumption|]. split; [assumption|]. cbn [used] in Hacc. lia.
    + apply Z.eqb_neq in Hz. assert (Hfull : used b = sizeof_data) by (apply H1; lia).
      destruct (first_free_buffer s) as [|f free] eqn:Hfree.
      { exfalso. unfold free_blocks in Hcap. rewrite Hfree in Hcap. simpl in Hcap. lia. }
      assert (Hf : length (data f) = Z.to_nat sizeof_data).
      { unfold wf_pool in Hpool. rewrite Hfree in Hpool. now inversion Hpool. }
      set (nb := {| data := data f; used := 0 |}).
      assert (Hnb : wf_block nb). { split; simpl; [assumption|]. rewrite sizeof_data_eq. lia. }
      assert (Hnbroom : used nb < sizeof_data) by (simpl; rewrite sizeof_data_eq; lia).
      destruct (fill_last message stored (q ++ [b]) nb ltac:(lia) Hnb Hnbroom)
        as (bytes & Hcpy & Hpos & Hps & Hwfb & Hbytes).
      assert (Htake : chain_buffer (q ++ [b]) s
                      = Ok ((q ++ [b]) ++ [nb], set_first_free_buffer free s)).
      { unfold chain_buffer, take_buffer, mbind, M_bind. now rewrite Hfree. }
      run Htake.
      erewrite bind_Ok by (apply in_bounds_Some; apply last_snoc).
      erewrite bind_Ok by (apply in_bounds_Some; exact Hcpy).
      rewrite set_last_snoc.
      assert (Hblank : block_bytes nb = []) by reflexivity.
      rewrite chain_bytes_app with (q2 := [nb]), chain_bytes_one, Hblank,
        app_nil_r in Hbytes.
      subst nb. cbn [used data] in *.
      edestruct (IH message (stored + Z.min (size_t (sizeof_data - 0)) (strlen message - stored)) (q ++ [b])
                   {| data := bytes; used := 0 + Z.min (size_t (sizeof_data - 0)) (strlen message - stored) |}
                   (set_first_free_buffer free s))
        as (q' & free' & Hrun & Hb' & Hwf' & Hpool' & Hacc); cbn [used]; try lia.
      { now apply Forall_snoc. }
      { unfold wf_pool in *. simpl. rewrite Hfree in Hpool. now inversion Hpool. }
      { unfold free_blocks in *. rewrite Hfree in Hcap.
        cbn [length first_free_buffer set_first_free_buffer] in *. lia. }
      exists q', free'. split; [exact Hrun|]. split.
      { rewrite Hb'. exact Hbytes. }
      split; [assumption|]. split; [assumption|].
      unfold free_blocks in *. rewrite Hfree.
      cbn [used length first_free_buffer set_first_free_buffer] in *. lia.
Qed.

Lemma array_get_set {A} (a : list A) i x v :
  array_get a i = Some x ->
  array_set a i v = Some (<[Z.to_nat i := v]> a)
  /\ array_get (<[Z.to_nat i := v]> a) i = Some v.
Proof.
  unfold array_get, array_set. destruct (0 <=? i) eqn:Hi; [|discriminate].
  intros Hget. apply lookup_lt_Some in Hget.
  replace (i <? Z.of_nat (length a)) with true
    by (symmetry; apply Z.ltb_lt; apply Z.leb_le in Hi; lia).
  split; [reflexivity|]. now apply list_lookup_insert_eq.
Qed.

Lemma strlen_app a b : strlen (a ++ b) = strlen a + strlen b.
Proof. unfold strlen. rewrite length_app. lia. Qed.

Lemma strlen_nonneg a : 0 <= strlen a.
Proof. unfold strlen. lia. Qed.

Lemma read_message_in_range w h i m :
  messages h !! i = Some m -> read_message w h (Z.of_nat i) = m.
Proof.
  intros H. unfold read_message, array_get.
  replace (0 <=? Z.of_nat i) with true by (symmetry; apply Z.leb_le; lia).
  now rewrite Nat2Z.id, H.
Qed.

Lemma sprintf_outgoing_fits text s :
  strlen text + 1 <= MAX_PACKAGE_LENGTH ->
  sprintf_outgoing text s = Ok (text, s).
Proof.
  intros H. unfold sprintf_outgoing, strcpy.
  replace (strlen text + 1 <=? MAX_PACKAGE_LENGTH) with true
    by (symmetry; now apply Z.leb_le).
  reflexivity.
Qed.

Lemma line_printable w m t :
  localtime w (tv_sec (msg_time m)) = Some t ->
  line w m = format_line t (msg_nick m) (msg_data m) ++ CRLF.
Proof. intros H. unfold line. now rewrite H. Qed.

(** ** The scan of the history *)

Lemma new_scan_spec w h cur : forall k : nat,
  (k <= length (messages h))%nat ->
  exists (n : nat) reads,
    new_scan k w h cur (Z.of_nat k - 1) = Some (Z.of_nat n - 1, reads)
    /\ (n <= k)%nat
    /\ Forall (fun m => older (msg_time m) cur = true)
         (drop n (take k (messages h)))
    /\ (n <> O ->
        exists m, messages h !! pred n = Some m
                  /\ older (msg_time m) cur = false)
    /\ (n = O -> In (-1) reads).
Proof.
  induction k as [|k IH]; intros Hk.
  - exists O, [-1]. cbn [new_scan]. change (Z.of_nat 0 - 1) with (-1).
    change (0 <=? -1) with false. rewrite andb_false_r.
    split; [reflexivity|]. split; [lia|]. split; [constructor|].
    split; [congruence|]. intros _. now left.
  - destruct (lookup_lt_is_Some_2 (messages h) k ltac:(lia)) as [m Hm].
    replace (Z.of_nat (S k) - 1) with (Z.of_nat k) by lia.
    cbn [new_scan]. rewrite (read_message_in_range _ _ _ _ Hm).
    replace (0 <=? Z.of_nat k) with true by (symmetry; apply Z.leb_le; lia).
    rewrite andb_true_r. destruct (older (msg_time m) cur) eqn:Hold.
    + destruct IH as (n & reads & Hrun & Hn & Holder & Hstop & Hout); [lia|].
      rewrite Hrun. exists n, (Z.of_nat k :: reads).
      split; [reflexivity|]. split; [lia|]. split.
      { rewrite (take_S_r _ _ _ Hm). rewrite drop_app_le by (rewrite length_take; lia).
        apply Forall_snoc; assumption. }
      split; [assumption|]. intros H. right. now apply Hout.
    + exists (S k), [Z.of_nat k]. split.
      { do 3 f_equal. lia. }
      split; [lia|]. split.
      { rewrite drop_ge by (rewrite length_take; lia). constructor. }
      split; [|congruence]. intros _. exists m. now split.
Qed.

Lemma older_true a b :
  older a b = true <->
  tv_sec a < tv_sec b \/ (tv_sec a = tv_sec b /\ tv_nsec a < tv_nsec b).
Proof.
  unfold older. rewrite orb_true_iff, andb_true_iff, !Z.ltb_lt, Z.eqb_eq.
  reflexivity.
Qed.

Lemma older_false a b :
  older a b = false <->
  tv_sec b < tv_sec a \/ (tv_sec a = tv_sec b /\ tv_nsec b <= tv_nsec a).
Proof.
  rewrite <- not_true_iff_false, older_true. lia.
Qed.

(** [older] is the strict part of a total preorder. *)
Lemma not_older_trans a b c :
  older a b = false -> older b c = false -> older a c = false.
Proof. rewrite !older_false. lia. Qed.

Lemma filter_all {A} (f : A -> bool) l :
  Forall (fun x => f x = true) l -> List.filter f l = l.
Proof.
  induction 1 as [|x l Hx _ IH]; simpl; [reflexivity|]. now rewrite Hx, IH.
Qed.

Lemma filter_none {A} (f : A -> bool) l :
  Forall (fun x => f x = false) l -> List.filter f l = [].
Proof.
  induction 1 as [|x l Hx _ IH]; simpl; [reflexivity|]. now rewrite Hx, IH.
Qed.

Lemma newest_first_snoc l m :
  newest_first (l ++ [m]) ->
  Forall (fun x => older (msg_time x) (msg_time m) = false) l.
Proof.
  induction l as [|x l IH]; intros H; [constructor|].
  simpl in H. inversion H as [|? ? Hl Hx]; subst. constructor.
  - apply Forall_app in Hx as [_ Hm]. now inversion Hm.
  - now apply IH.
Qed.

Lemma newest_first_app_l l1 l2 : newest_first (l1 ++ l2) -> newest_first l1.
Proof.
  induction l1 as [|x l1 IH]; intros H; [constructor|].
  simpl in H. inversion H as [|? ? Hl Hx]; subst. constructor.
  - now apply IH.
  - now apply Forall_app in Hx as [? _].
Qed.

(** On a history in non-increasing order the scan keeps exactly the
    entries that are not older than the cursor. *)
Lemma scan_keeps_not_older w h cur (k n : nat) reads :
  (k <= length (messages h))%nat ->
  newest_first (take k (messages h)) ->
  new_scan k w h cur (Z.of_nat k - 1) = Some (Z.of_nat n - 1, reads) ->
  (n <= k)%nat
  /\ take n (messages h)
     = List.filter (fun m => negb (older (msg_time m) cur)) (take k (messages h)).
Proof.
  intros Hk Hsorted Hrun.
  destruct (new_scan_spec w h cur k Hk) as (n' & reads' & Hrun' & Hn & Holder & Hstop & _).
  rewrite Hrun in Hrun'. assert (n' = n) as -> by (injection Hrun'; lia).
  split; [assumption|].
  rewrite <- (take_drop n (take k (messages h))) at 1.
  rewrite <- (take_drop n (take k (messages h))) in Hsorted.
  rewrite List.filter_app, take_take, Nat.min_l by assumption.
  rewrite (filter_none _ (drop n _)).
  2:{ eapply Forall_impl; [exact Holder|]. intros m Hm. simpl in Hm. now rewrite Hm. }
  rewrite app_nil_r. symmetry. apply filter_all.
  rewrite take_take, Nat.min_l in Hsorted by assumption.
  apply newest_first_app_l in Hsorted.
  destruct n as [|n]; [constructor|].
  destruct Hstop as (m & Hm & Hnew); [congruence|]. simpl in Hm.
  rewrite (take_S_r _ _ _ Hm) in *.
  apply Forall_snoc.
  - apply newest_first_snoc in Hsorted.
    eapply Forall_impl; [exact Hsorted|]. intros x Hx. simpl in Hx.
    now rewrite (not_older_trans _ _ _ Hx Hnew).
  - now rewrite Hnew.
Qed.

(** When every entry is older than the cursor the scan runs off the
    front of the array: it stops at [-1], after reading
    [history.messages[-1]]. *)
Lemma scan_all_older w h cur (k : nat) :
  (k <= length (messages h))%nat ->
  Forall (fun m => older (msg_time m) cur = true) (take k (messages h)) ->
  exists reads,
    new_scan k w h cur (Z.of_nat k - 1) = Some (-1, reads) /\ In (-1) reads.
Proof.
  intros Hk Hall.
  destruct (new_scan_spec w h cur k Hk) as (n & reads & Hrun & Hn & _ & Hstop & Hout).
  destruct n as [|n].
  - exists reads. split; [exact Hrun|]. now apply Hout.
  - exfalso. destruct Hstop as (m & Hm & Hnew); [congruence|]. simpl in Hm.
    rewrite Forall_forall in Hall. specialize (Hall m).
    rewrite Hall in Hnew; [discriminate|].
    apply list_elem_of_lookup. exists n.
    rewrite lookup_take_lt by lia. exact Hm.
Qed.

(** ** Sizes of formatted text *)

Lemma forallb_upto (P : nat -> bool) (n : nat) :
  forallb P (seq 0 (S n)) = true -> forall k, (k <= n)%nat -> P k = true.
Proof.
  intros H k Hk. rewrite forallb_forall in H. apply H. apply in_seq. lia.
Qed.

Lemma count_fits (n : nat) :
  (n <= Z.to_nat MAX_HISTORY_LENGTH)%nat ->
  strlen (fmt_d (Z.of_nat n)) + 1 <= MAX_PACKAGE_LENGTH.
Proof.
  intros Hn. apply Z.leb_le.
  apply (forallb_upto
           (fun k => strlen (fmt_d (Z.of_nat k)) + 1 <=? MAX_PACKAGE_LENGTH)
           (Z.to_nat MAX_HISTORY_LENGTH)); [|assumption].
  vm_compute. reflexivity.
Qed.

(** ** Queueing output for one connection *)

Section Queueing.

Variable client : Z.

Lemma same_but_queue_refl s : same_but_queue client s s.
Proof. now repeat split. Qed.

Lemma same_but_queue_trans s1 s2 s3 :
  same_but_queue client s1 s2 -> same_but_queue client s2 s3 ->
  same_but_queue client s1 s3.
Proof.
  intros (H1 & H2 & H3) (H4 & H5 & H6). repeat split; congruence.
Qed.

Lemma send_later_spec message s :
  ready client s ->
  strlen message <= room client s -> 1 <= room client s ->
  exists s',
    send_later client message s = Ok (tt, s')
    /\ ready client s'
    /\ queue_bytes client s' = queue_bytes client s ++ message
    /\ room client s' = room client s - strlen message
    /\ same_but_queue client s s'.
Proof.
  intros ([conn Hconn] & [sock Hsock] & Hq & Hpool) Hfit Hone.
  unfold room, queue_bytes, queue in *. rewrite Hconn in *.
  unfold send_later.
  assert (Hread : read_data client s = Ok (conn, s)).
  { unfold read_data. now apply in_bounds_Some. }
  run Hread.
  (* the block that the loop starts to fill *)
  assert (Hstart : exists q b s1 free1,
    (match last (pending_to_be_sent conn) with
     | None => buffer ← take_buffer; mret [buffer]
     | Some l => if used l =? sizeof_data
                 then chain_buffer (pending_to_be_sent conn)
                 else mret (pending_to_be_sent conn)
     end) s = Ok (q ++ [b], s1)
    /\ s1 = set_first_free_buffer free1 s
    /\ Forall wf_block (q ++ [b]) /\ wf_pool s1
    /\ used b < sizeof_data
    /\ chain_bytes (q ++ [b]) = chain_bytes (pending_to_be_sent conn)
    /\ sizeof_data * free_blocks s1 + (sizeof_data - used b)
       = sizeof_data * free_blocks s + slack (pending_to_be_sent conn)).
  { assert (Hfresh : forall f, length (data f) = Z.to_nat sizeof_data ->
              wf_block {| data := data f; used := 0 |}).
    { intros f Hf. split; simpl; [assumption|]. rewrite sizeof_data_eq. lia. }
    assert (Hblank : forall f, block_bytes {| data := data f; used := 0 |} = [])
      by reflexivity.
    destruct (pending_to_be_sent conn) as [|b0 q0] eqn:Hpend using rev_ind.
    - (* empty queue *)
      unfold slack in Hone. cbn [last] in Hone.
      destruct (first_free_buffer s) as [|f free] eqn:Hfree.
      { unfold free_blocks in Hone. rewrite Hfree in Hone. simpl in Hone. lia. }
      exists [], {| data := data f; used := 0 |}, (set_first_free_buffer free s), free.
      unfold wf_pool in Hpool. rewrite Hfree in Hpool. inversion Hpool; subst.
      split. { unfold take_buffer, mbind, M_bind. simpl. now rewrite Hfree. }
      split. { reflexivity. }
      split. { apply Forall_snoc; [constructor|]. now apply Hfresh. }
      split. { assumption. }
      split. { simpl. rewrite sizeof_data_eq. lia. }
      split. { reflexivity. }
      unfold free_blocks, slack. rewrite Hfree. cbn [length last used first_free_buffer set_first_free_buffer].
      rewrite sizeof_data_eq. lia.
    - clear IHq0. rewrite last_snoc. rewrite slack_snoc in *.
      destruct (Forall_snoc_inv _ _ _ Hq) as [Hq0 Hb0].
      destruct (used b0 =? sizeof_data) eqn:Hfull.
      + apply Z.eqb_eq in Hfull.
        destruct (first_free_buffer s) as [|f free] eqn:Hfree.
        { unfold free_blocks in Hone. rewrite Hfree in Hone. simpl in Hone. lia. }
        exists (q0 ++ [b0]), {| data := data f; used := 0 |},
          (set_first_free_buffer free s), free.
        unfold wf_pool in Hpool. rewrite Hfree in Hpool. inversion Hpool; subst.
        split. { unfold chain_buffer, take_buffer, mbind, M_bind. now rewrite Hfree. }
        split. { reflexivity. }
        split. { apply Forall_snoc; [assumption|]. now apply Hfresh. }
        split. { assumption. }
        split. { simpl. rewrite sizeof_data_eq. lia. }
        split. { rewrite chain_bytes_app, chain_bytes_one, Hblank. apply app_nil_r. }
        unfold free_blocks. rewrite Hfree.
        cbn [length used first_free_buffer set_first_free_buffer].
        rewrite sizeof_data_eq in *. lia.
      + apply Z.eqb_neq in Hfull.
        exists q0, b0, s, (first_free_buffer s).
        split. { reflexivity. }
        split. { now rewrite set_first_free_buffer_same. }
        split. { assumption. }
        split. { assumption. }
        split. { destruct Hb0. lia. }
        split; reflexivity. }
  destruct Hstart as (q & b & s1 & free1 & Hrun1 & Hs1 & Hwf1 & Hpool1 & Hroom1 & Hbytes1 & Hacc1).
  run Hrun1.
  assert (Hlen : 0 <= strlen message) by (unfold strlen; lia).
  destruct (send_later_loop_spec (length message) message 0 q b s1)
    as (q' & free' & Hrun2 & Hbytes2 & Hwf2 & Hpool2 & Hacc2);
    [ lia | unfold strlen; lia | assumption | assumption
    | intros _ _; assumption | intros _ H; lia | lia | ].
  run Hrun2.
  subst s1. rewrite set_first_free_buffer_twice in *.
  set (s2 := set_first_free_buffer free' s) in *.
  destruct (array_get_set _ _ _ (set_pending_to_be_sent q' conn) Hconn) as [Hset Hget].
  assert (Hw : write_data client (set_pending_to_be_sent q' conn) s2
               = Ok (tt, set_connections (set_conn_data
                      (<[Z.to_nat client := set_pending_to_be_sent q' conn]>
                         (conn_data (connections s))) (connections s)) s2)).
  { unfold write_data. subst s2. simpl. now rewrite Hset. }
  run Hw.
  set (s3 := set_connections _ s2) in *.
  assert (Hrs : read_socket client s3 = Ok (sock, s3)).
  { unfold read_socket. apply in_bounds_Some. exact Hsock. }
  run Hrs.
  destruct (array_get_set _ _ _ (set_events POLLOUT sock) Hsock) as [Hsset Hsget].
  unfold write_socket. subst s3 s2. cbn [connections set_connections set_first_free_buffer sockets set_conn_data].
  rewrite Hsset. eexists. split; [reflexivity|].
  unfold ready, room, queue_bytes, queue, same_but_queue, cursor, conn_of, wf_pool, free_blocks in *.
  cbn [connections set_connections set_first_free_buffer sockets set_conn_data
       set_sockets conn_data first_free_buffer history world] in *.
  rewrite Hget. cbn [pending_to_be_sent set_pending_to_be_sent]. rewrite Hconn.
  split_and!; try eauto.
  - rewrite Hbytes2, Hbytes1. simpl. reflexivity.
  - simpl drop in Hbytes2. lia.
Qed.

Lemma send_package_spec message s :
  ready client s ->
  strlen message + 2 <= room client s ->
  exists s',
    send_package client message s = Ok (tt, s')
    /\ ready client s'
    /\ queue_bytes client s' = queue_bytes client s ++ message ++ CRLF
    /\ room client s' = room client s - (strlen message + 2)
    /\ same_but_queue client s s'.
Proof.
  intros Hready Hfit. pose proof (strlen_nonneg message) as Hlen.
  destruct (send_later_spec message s Hready)
    as (s1 & Hrun1 & Hready1 & Hbytes1 & Hroom1 & Hsame1); [lia | lia |].
  destruct (send_later_spec CRLF s1 Hready1)
    as (s2 & Hrun2 & Hready2 & Hbytes2 & Hroom2 & Hsame2).
  { change (strlen CRLF) with 2. lia. } { lia. }
  exists s2. unfold send_package.
  run Hrun1.
  split; [exact Hrun2|]. split; [assumption|]. split.
  { rewrite Hbytes2, Hbytes1. now rewrite <- app_assoc. }
  split. { rewrite Hroom2, Hroom1. change (strlen CRLF) with 2. lia. }
  eapply same_but_queue_trans; eassumption.
Qed.

Lemma new_emit_spec : forall (k : nat) s,
  (k <= length (messages (history s)))%nat ->
  let selection := take k (messages (history s)) in
  Forall (printable (world s)) selection ->
  ready client s ->
  strlen (concat (map (line (world s)) (rev selection))) <= room client s ->
  exists s',
    new_emit k client (Z.of_nat k - 1) s = Ok (true, s')
    /\ ready client s'
    /\ queue_bytes client s'
       = queue_bytes client s ++ concat (map (line (world s)) (rev selection))
    /\ room client s'
       = room client s - strlen (concat (map (line (world s)) (rev selection)))
    /\ same_but_queue client s s'.
Proof.
  induction k as [|k IH]; intros s Hk selection Hprint Hready Hfit.
  - exists s. simpl. split; [reflexivity|]. split; [assumption|].
    split. { now rewrite app_nil_r. }
    split. { unfold strlen. simpl. lia. }
    apply same_but_queue_refl.
  - destruct (lookup_lt_is_Some_2 (messages (history s)) k ltac:(lia)) as [m Hm].
    assert (Hsel : selection = take k (messages (history s)) ++ [m]).
    { unfold selection. now apply take_S_r. }
    rewrite Hsel in *. rewrite rev_unit in *. cbn [map concat] in *.
    destruct (Forall_snoc_inv _ _ _ Hprint) as [Hprint' (t & Ht & Hlen)].
    rewrite (line_printable _ _ _ Ht) in *.
    rewrite !strlen_app in Hfit. change (strlen CRLF) with 2 in Hfit.
    pose proof (strlen_nonneg (concat (map (line (world s)) (rev (take k (messages (history s))))))).
    replace (Z.of_nat (S k) - 1) with (Z.of_nat k) by lia.
    cbn [new_emit].
    replace (0 <=? Z.of_nat k) with true by (symmetry; apply Z.leb_le; lia).
    erewrite bind_Ok by reflexivity.
    rewrite (read_message_in_range _ _ _ _ Hm).
    erewrite bind_Ok by reflexivity. rewrite Ht.
    erewrite bind_Ok by (apply sprintf_outgoing_fits; exact Hlen).
    destruct (send_package_spec (format_line t (msg_nick m) (msg_data m)) s Hready)
      as (s1 & Hrun1 & Hready1 & Hbytes1 & Hroom1 & Hsame1); [lia|].
    run Hrun1.
    destruct Hsame1 as (Hh & Hw & Hc).
    destruct (IH s1) as (s2 & Hrun2 & Hready2 & Hbytes2 & Hroom2 & Hsame2).
    { rewrite Hh. lia. }
    { rewrite Hh, Hw. assumption. }
    { assumption. }
    { rewrite Hh, Hw, Hroom1. lia. }
    exists s2. replace (Z.of_nat k - 1) with (Z.of_nat k - 1) in Hrun2 by lia.
    split; [exact Hrun2|]. split; [assumption|].
    rewrite Hh, Hw in *. split.
    { rewrite Hbytes2, Hbytes1. now rewrite <- !app_assoc. }
    split. { rewrite Hroom2, Hroom1, !strlen_app. change (strlen CRLF) with 2. lia. }
    eapply same_but_queue_trans; [|eassumption]. now repeat split.
Qed.

Lemma process_new_spec s conn (n : nat) reads now rest :
  ready client s -> conn_of client s = Some conn ->
  wf_history (history s) ->
  new_scan (Z.to_nat (hist_length (history s))) (world s) (history s)
    (last_received_message conn) (hist_length (history s) - 1)
  = Some (Z.of_nat n - 1, reads) ->
  (n <= Z.to_nat (hist_length (history s)))%nat ->
  let selection := take n (messages (history s)) in
  Forall (printable (world s)) selection ->
  strlen (new_reply (world s) selection) <= room client s ->
  clock (world s) = now :: rest ->
  exists s',
    process_new_package client PACKAGE_NEW s = Ok (0, s')
    /\ ready client s'
    /\ queue_bytes client s'
       = queue_bytes client s ++ new_reply (world s) selection
    /\ room client s' = room client s - strlen (new_reply (world s) selection)
    /\ history s' = history s
    /\ cursor client s' = Some now
    /\ world s' = with_clock rest (world s).
Proof.
  intros Hready Hconn [Hcap Hlen] Hscan Hn selection Hprint Hfit Hclock.
  assert (Hsel : length selection = n).
  { unfold selection. rewrite length_take. lia. }
  unfold new_reply in *. rewrite Hsel in *.
  rewrite !strlen_app in Hfit. change (strlen CRLF) with 2 in Hfit.
  pose proof (strlen_nonneg (concat (map (line (world s)) (rev selection)))).
  unfold process_new_package.
  change (starts_with PACKAGE_NEW PACKAGE_BEGIN_MY_NAME_IS) with false.
  change (strcmp_eq PACKAGE_NEW PACKAGE_FOLKS) with false.
  change (starts_with PACKAGE_NEW PACKAGE_BEGIN_SEND) with false.
  change (strcmp_eq PACKAGE_NEW PACKAGE_NEW) with true. cbv iota.
  assert (Hread : read_data client s = Ok (conn, s)).
  { unfold read_data. now apply in_bounds_Some. }
  run Hread.
  erewrite bind_Ok by reflexivity.
  replace (hist_length (history s) - 1 + 1) with (hist_length (history s)) by lia.
  rewrite Hscan.
  replace (Z.of_nat n - 1 + 1) with (Z.of_nat n) by lia.
  erewrite bind_Ok by (apply sprintf_outgoing_fits, count_fits; lia).
  destruct (send_package_spec (fmt_d (Z.of_nat n)) s Hready)
    as (s1 & Hrun1 & Hready1 & Hbytes1 & Hroom1 & (Hh1 & Hw1 & Hc1)); [lia|].
  run Hrun1.
  rewrite Nat2Z.id.
  destruct (new_emit_spec n s1) as (s2 & Hrun2 & Hready2 & Hbytes2 & Hroom2 & (Hh2 & Hw2 & Hc2)).
  { rewrite Hh1. lia. }
  { rewrite Hh1, Hw1. exact Hprint. }
  { exact Hready1. }
  { rewrite Hh1, Hw1, Hroom1. fold selection. lia. }
  run Hrun2. cbv iota.
  rewrite Hh1, Hw1 in *. fold selection in Hbytes2, Hroom2.
  assert (Htime : get_time s2 = Ok (now, set_world (with_clock rest (world s2)) s2)).
  { unfold get_time. now rewrite Hw2, Hclock. }
  run Htime.
  set (s3 := set_world _ s2).
  destruct Hready2 as ([conn2 Hconn2] & Hsock2 & Hq2 & Hpool2).
  assert (Hread3 : read_data client s3 = Ok (conn2, s3)).
  { unfold read_data. apply in_bounds_Some. exact Hconn2. }
  run Hread3.
  destruct (array_get_set _ _ _ (set_last_received_message now conn2) Hconn2)
    as [Hset Hget].
  assert (Hw : write_data client (set_last_received_message now conn2) s3
               = Ok (tt, set_connections (set_conn_data
                      (<[Z.to_nat client := set_last_received_message now conn2]>
                         (conn_data (connections s2))) (connections s2)) s3)).
  { unfold write_data. subst s3. simpl. now rewrite Hset. }
  run Hw.
  eexists. split; [reflexivity|].
  unfold ready, room, queue_bytes, queue, cursor, conn_of, wf_pool, free_blocks in *.
  subst s3.
  cbn [connections set_connections set_world sockets set_conn_data
       conn_data first_free_buffer history world] in *.
  rewrite Hget. rewrite Hconn2 in *.
  cbn [pending_to_be_sent set_last_received_message last_received_message fmap option_fmap option_map].
  split_and!; try eauto.
  - rewrite Hbytes2, Hbytes1. now rewrite <- !app_assoc.
  - rewrite Hroom2, Hroom1, !strlen_app. change (strlen CRLF) with 2. lia.
  - now rewrite Hw2.
Qed.

End Queueing.

(** ** What the handlers leave undone *)

Lemma bind_inv {A B} (m : M A) (f : A -> M B) s b s' :
  (m ≫= f) s = Ok (b, s') ->
  exists a s1, m s = Ok (a, s1) /\ f a s1 = Ok (b, s').
Proof.
  unfold mbind, M_bind. destruct (m s) as [[a s1]| | | |]; try discriminate.
  intros H. now exists a, s1.
Qed.

(** ** Compaction and the pool *)

Lemma read_data_state i s c s' : read_data i s = Ok (c, s') -> s' = s.
Proof.
  unfold read_data, in_bounds. destruct (array_get _ _); [|discriminate].
  intros H. now injection H.
Qed.

Lemma read_socket_state i s c s' : read_socket i s = Ok (c, s') -> s' = s.
Proof.
  unfold read_socket, in_bounds. destruct (array_get _ _); [|discriminate].
  intros H. now injection H.
Qed.

Lemma write_data_pool i c s u s' :
  write_data i c s = Ok (u, s') -> first_free_buffer s' = first_free_buffer s.
Proof.
  unfold write_data. destruct (array_set _ _ _); [|discriminate].
  intros H. injection H as _ <-. reflexivity.
Qed.

Lemma write_socket_pool i p s u s' :
  write_socket i p s = Ok (u, s') -> first_free_buffer s' = first_free_buffer s.
Proof.
  unfold write_socket. destruct (array_set _ _ _); [|discriminate].
  intros H. injection H as _ <-. reflexivity.
Qed.

Lemma clean_closed_sockets_loop_pool fuel : forall s d st r st',
  clean_closed_sockets_loop fuel s d st = Ok (r, st') ->
  first_free_buffer st' = first_free_buffer st.
Proof.
  induction fuel as [|fuel IH]; intros s d st r st' H; cbn [clean_closed_sockets_loop] in H;
    apply bind_inv in H as (st0 & s1 & Hget & H); injection Hget as <- <-;
    destruct (s <? conn_length (connections st)); try discriminate;
    try (injection H as _ <-; reflexivity).
  apply bind_inv in H as (conn & s1 & Hread & H).
  apply read_data_state in Hread as ->.
  destruct (closed conn); [now apply IH in H|].
  apply bind_inv in H as (sock & s1 & Hsock & H).
  apply read_socket_state in Hsock as ->.
  apply bind_inv in H as (u1 & s1 & Hw1 & H). apply write_socket_pool in Hw1.
  apply bind_inv in H as (u2 & s2 & Hw2 & H). apply write_data_pool in Hw2.
  apply IH in H. congruence.
Qed.

(** Compaction hands no block back: whatever the table holds, the free
    list is the same before and after [clean_closed_sockets]. *)
Lemma clean_closed_sockets_releases_nothing s s' :
  clean_closed_sockets s = Ok (tt, s') ->
  first_free_buffer s' = first_free_buffer s.
Proof.
  unfold clean_closed_sockets. intros H.
  apply bind_inv in H as (st0 & s1 & Hget & H). injection Hget as <- <-.
  apply bind_inv in H as (d & s1 & Hloop & H).
  apply clean_closed_sockets_loop_pool in Hloop.
  injection H as <-. exact Hloop.
Qed.

(** ** Appending to the history *)

(** Below its capacity the history takes the new entry in front and
    keeps the others. *)
Lemma add_to_history_below_capacity nick message s now rest :
  clock (world s) = now :: rest ->
  wf_history (history s) ->
  hist_length (history s) < MAX_HISTORY_LENGTH ->
  strlen nick <= MAX_NICK_LENGTH -> strlen message <= MAX_MESSAGE_LENGTH ->
  exists s',
    add_to_history nick message s = Ok (tt, s')
    /\ entries (history s')
       = {| msg_nick := nick; msg_data := message; msg_time := now |}
         :: entries (history s)
    /\ wf_history (history s').
Proof.
  intros Hclock [Hcap Hlen] Hroom Hnick Hmsg. unfold add_to_history.
  assert (Htime : get_time s = Ok (now, set_world (with_clock rest (world s)) s)).
  { unfold get_time. now rewrite Hclock. }
  run Htime. erewrite bind_Ok by reflexivity.
  cbn [history set_world].
  set (h := history s) in *. set (n := hist_length h) in *.
  set (new := {| msg_nick := nick; msg_data := message; msg_time := now |}).
  assert (Hmoved : exists moved,
            memmove_up (messages h) n = Some moved
            /\ length moved = length (messages h)
            /\ take (Z.to_nat n) (drop 1 moved) = take (Z.to_nat n) (messages h)).
  { unfold memmove_up. destruct (Z.eqb_spec n 0) as [Hz|Hz].
    - exists (messages h). rewrite Hz. now split_and!.
    - replace (0 <? n) with true by (symmetry; apply Z.ltb_lt; lia).
      replace (1 + n <=? Z.of_nat (length (messages h))) with true
        by (symmetry; apply Z.leb_le; rewrite Hcap;
            change (Z.of_nat (Z.to_nat MAX_HISTORY_LENGTH)) with MAX_HISTORY_LENGTH;
            lia).
      eexists. split; [reflexivity|].
      assert (H1 : length (take 1 (messages h)) = 1%nat).
      { rewrite length_take, Hcap. reflexivity. }
      split.
      + rewrite !length_app, H1, length_take, length_drop. lia.
      + rewrite drop_app_length' by (symmetry; exact H1).
        rewrite take_app_length'; [reflexivity|]. rewrite length_take. lia. }
  destruct Hmoved as (moved & Hmove & Hmlen & Hkeep).
  erewrite bind_Ok by (apply in_bounds_Some; exact Hmove).
  assert (Hn : strcpy (MAX_NICK_LENGTH + 1) nick = Some nick).
  { unfold strcpy.
    replace (strlen nick + 1 <=? MAX_NICK_LENGTH + 1) with true
      by (symmetry; apply Z.leb_le; lia). reflexivity. }
  assert (Hd : strcpy (MAX_MESSAGE_LENGTH + 1) message = Some message).
  { unfold strcpy.
    replace (strlen message + 1 <=? MAX_MESSAGE_LENGTH + 1) with true
      by (symmetry; apply Z.leb_le; lia). reflexivity. }
  erewrite bind_Ok by (apply in_bounds_Some; exact Hn).
  erewrite bind_Ok by (apply in_bounds_Some; exact Hd).
  fold new.
  assert (Hset : array_set moved 0 new = Some (new :: drop 1 moved)).
  { unfold array_set. rewrite Hmlen, Hcap. change (Z.to_nat 0) with O.
    destruct moved as [|m0 moved']; [discriminate Hmlen || (simpl in Hmlen; rewrite Hcap in Hmlen; discriminate)|].
    reflexivity. }
  erewrite bind_Ok by (apply in_bounds_Some; exact Hset).
  replace (n <? MAX_HISTORY_LENGTH) with true by (symmetry; apply Z.ltb_lt; lia).
  eexists. split; [reflexivity|].
  unfold entries, wf_history.
  cbn [history set_history messages hist_length modify].
  split.
  - fold n. replace (Z.to_nat (n + 1)) with (S (Z.to_nat n)) by lia.
    cbn [take]. f_equal. exact Hkeep.
  - split; [|lia]. cbn [length]. rewrite length_drop, Hmlen, Hcap. reflexivity.
Qed.

Lemma add_to_history_full nick message s now rest :
  clock (world s) = now :: rest ->
  hist_length (history s) = MAX_HISTORY_LENGTH ->
  length (messages (history s)) = Z.to_nat MAX_HISTORY_LENGTH ->
  add_to_history nick message s = OutOfBounds "history.messages".
Proof.
  intros Hclock Hlen Hcap. unfold add_to_history.
  assert (Htime : get_time s = Ok (now, set_world (with_clock rest (world s)) s)).
  { unfold get_time. now rewrite Hclock. }
  run Htime.
  erewrite bind_Ok by reflexivity.
  cbn [history set_world]. rewrite Hlen. unfold memmove_up. rewrite Hcap.
  reflexivity.
Qed.

(** ** An oversize message *)

Lemma oversize_send_is_not_closed client rest s :
  MAX_MESSAGE_LENGTH < strlen rest ->
  process_new_package client (PACKAGE_BEGIN_SEND ++ rest) s = Ok (-1, s).
Proof.
  intros Hlong. unfold process_new_package.
  change (starts_with (PACKAGE_BEGIN_SEND ++ rest) PACKAGE_BEGIN_MY_NAME_IS) with false.
  change (strcmp_eq (PACKAGE_BEGIN_SEND ++ rest) PACKAGE_FOLKS) with false.
  change (starts_with (PACKAGE_BEGIN_SEND ++ rest) PACKAGE_BEGIN_SEND) with true.
  cbv iota.
  change (drop (length PACKAGE_BEGIN_SEND) (PACKAGE_BEGIN_SEND ++ rest)) with rest.
  replace (MAX_MESSAGE_LENGTH <? strlen rest) with true
    by (symmetry; now apply Z.ltb_lt).
  reflexivity.
Qed.

Lemma oversize_nick_is_closed client rest s sock :
  MAX_NICK_LENGTH < strlen rest ->
  array_get (sockets (connections s)) client = Some sock ->
  process_new_package client (PACKAGE_BEGIN_MY_NAME_IS ++ rest) s
  = Ok (-1, set_world (with_closed_fds (fd sock :: closed_fds (world s)) (world s)) s).
Proof.
  intros Hlong Hsock. unfold process_new_package.
  change (starts_with (PACKAGE_BEGIN_MY_NAME_IS ++ rest) PACKAGE_BEGIN_MY_NAME_IS) with true.
  cbv iota.
  change (drop (length PACKAGE_BEGIN_MY_NAME_IS) (PACKAGE_BEGIN_MY_NAME_IS ++ rest)) with rest.
  replace (MAX_NICK_LENGTH <? strlen rest) with true
    by (symmetry; now apply Z.ltb_lt).
  unfold close_connection.
  erewrite bind_Ok by (unfold read_socket; apply in_bounds_Some; exact Hsock).
  reflexivity.
Qed.

(** ** A full table *)

Lemma accept_into_full_table s d rest :
  accept_tape (world s) = d :: rest -> 0 <= d ->
  conn_length (connections s) = MAX_CONNECTIONS ->
  length (sockets (connections s)) = Z.to_nat MAX_CONNECTIONS ->
  accept_new_client s = OutOfBounds "connections.sockets".
Proof.
  intros Htape Hd Hlen Hcap. unfold accept_new_client.
  assert (Hacc : accept s = Ok (d, set_world (with_accept_tape rest (world s)) s)).
  { unfold accept. now rewrite Htape. }
  run Hacc.
  replace (d <? 0) with false by (symmetry; apply Z.ltb_ge; lia).
  erewrite bind_Ok by reflexivity.
  cbn [connections set_world]. rewrite Hlen.
  unfold mbind, M_bind, read_socket, array_get. cbn [connections set_world].
  change (0 <=? MAX_CONNECTIONS) with true. cbv iota.
  rewrite lookup_ge_None_2 by lia. reflexivity.
Qed.

(** ** Partial writes *)
Lemma partial_write_fails_assertion d buffer next n rest s :
  send_tape (world s) = Room n :: rest ->
  0 <= n < used buffer -> used buffer <= Z.of_nat (length (data buffer)) ->
  handle_output_loop d (buffer :: next) s
  = AssertionFailed "sent == buffer->buffer.used".
Proof.
  intros Htape Hn Hused. cbn [handle_output_loop].
  set (bytes := take (Z.to_nat (used buffer)) (data buffer)).
  assert (Hlen : Z.of_nat (length bytes) = used buffer).
  { unfold bytes. rewrite length_take. lia. }
  assert (Hsend : exists s1, send d bytes s = Ok (inl n, s1)).
  { unfold send. rewrite Htape. eexists. do 3 f_equal. lia. }
  destruct Hsend as [s1 Hsend].
  run Hsend.
  cbv beta iota.
  destruct (Z.eqb_spec n (used buffer)); [lia | reflexivity].
Qed.

(** ** Formatting *)

Lemma fmt_02d_two_digits z : 0 <= z < 100 -> length (fmt_02d z) = 2%nat.
Proof.
  intros Hz. replace z with (Z.of_nat (Z.to_nat z)) by lia.
  apply Nat.eqb_eq.
  apply (forallb_upto (fun k => length (fmt_02d (Z.of_nat k)) =? 2)%nat 99);
    [vm_compute; reflexivity | lia].
Qed.

Lemma format_line_length t nick message :
  0 <= tm_hour t < 100 -> 0 <= tm_min t < 100 -> 0 <= tm_sec t < 100 ->
  strlen (format_line t nick message) = 13 + strlen nick + strlen message.
Proof.
  intros Hh Hm Hs. unfold format_line, strlen.
  rewrite !length_app, !fmt_02d_two_digits by assumption. simpl length. lia.
Qed.

Lemma longest_line_overflows t nick message s :
  0 <= tm_hour t < 100 -> 0 <= tm_min t < 100 -> 0 <= tm_sec t < 100 ->
  strlen nick = MAX_NICK_LENGTH -> strlen message = MAX_MESSAGE_LENGTH ->
  strlen (format_line t nick message) + 1 = MAX_PACKAGE_LENGTH + 1
  /\ sprintf_outgoing (format_line t nick message) s = OutOfBounds "outgoing".
Proof.
  intros Hh Hm Hs Hn Hd.
  pose proof (format_line_length t nick message Hh Hm Hs) as Hlen.
  rewrite Hn, Hd in Hlen. split; [rewrite Hlen; reflexivity|].
  unfold sprintf_outgoing, strcpy. rewrite Hlen. reflexivity.
Qed.

(** ** Selection by the scan *)

Lemma new_selection_scan w h cur :
  wf_history h ->
  exists (n : nat) reads,
    new_scan (Z.to_nat (hist_length h)) w h cur (hist_length h - 1)
    = Some (Z.of_nat n - 1, reads)
    /\ (n <= Z.to_nat (hist_length h))%nat
    /\ new_selection w h cur = Some (take n (messages h)).
Proof.
  intros [Hcap Hlen].
  destruct (new_scan_spec w h cur (Z.to_nat (hist_length h)))
    as (n & reads & Hrun & Hn & _); [lia|].
  rewrite Z2Nat.id in Hrun by lia.
  exists n, reads. split; [exact Hrun|]. split; [exact Hn|].
  unfold new_selection.
  replace (hist_length h - 1 + 1) with (hist_length h) by lia.
  rewrite Hrun. do 2 f_equal. lia.
Qed.

Lemma new_selection_sorted w h cur :
  wf_history h -> newest_first (entries h) ->
  new_selection w h cur = Some (not_older_than cur h).
Proof.
  intros Hwf Hsorted.
  destruct (new_selection_scan w h cur Hwf) as (n & reads & Hrun & Hn & ->).
  destruct Hwf as [Hcap Hlen].
  replace (hist_length h - 1)
    with (Z.of_nat (Z.to_nat (hist_length h)) - 1) in Hrun by lia.
  apply scan_keeps_not_older in Hrun as [_ Heq]; [|lia|exact Hsorted].
  now rewrite Heq.
Qed.

Lemma process_new_selection client s conn selection now rest :
  ready client s -> conn_of client s = Some conn ->
  wf_history (history s) ->
  new_selection (world s) (history s) (last_received_message conn)
  = Some selection ->
  Forall (printable (world s)) selection ->
  strlen (new_reply (world s) selection) <= room client s ->
  clock (world s) = now :: rest ->
  exists s',
    process_new_package client PACKAGE_NEW s = Ok (0, s')
    /\ ready client s'
    /\ queue_bytes client s'
       = queue_bytes client s ++ new_reply (world s) selection
    /\ room client s' = room client s - strlen (new_reply (world s) selection)
    /\ history s' = history s
    /\ cursor client s' = Some now
    /\ world s' = with_clock rest (world s).
Proof.
  intros Hready Hconn Hwf Hsel Hprint Hfit Hclock.
  destruct (new_selection_scan (world s) (history s)
              (last_received_message conn) Hwf)
    as (n & reads & Hrun & Hn & Hsel').
  rewrite Hsel in Hsel'. injection Hsel' as ->.
  eapply process_new_spec; eassumption.
Qed.

(** ** Runs *)

Lemma observe_elim {B} (f : State -> B) (o : outcome (unit * State)) b :
  observe f o = Ok b -> exists s, o = Ok (tt, s) /\ f s = b.
Proof.
  unfold observe. destruct o as [[[] s]| | | |]; try discriminate.
  intros H. exists s. split; [reflexivity|]. now injection H.
Qed.

Lemma observe_Ok {A B} (f : State -> B) (o : outcome (A * State)) a s :
  o = Ok (a, s) -> observe f o = Ok (f s).
Proof. now intros ->. Qed.

Lemma state_after_Ok {A} (m : M A) s :
  observe (fun _ => tt) (m s) = Ok tt ->
  exists a, m s = Ok (a, state_after m s).
Proof.
  unfold state_after, observe.
  destruct (m s) as [[a s']| | | |]; try discriminate.
  intros _. now exists a.
Qed.

Lemma two_messages_ready : ready 1 two_messages.
Proof.
  unfold ready. split_and!.
  - vm_compute. eexists. reflexivity.
  - vm_compute. eexists. reflexivity.
  - vm_compute. repeat constructor; discriminate.
  - unfold wf_pool. vm_compute. repeat constructor.
Defined.

Lemma one_message_ready : ready 1 one_message.
Proof.
  unfold ready. split_and!.
  - vm_compute. eexists. reflexivity.
  - vm_compute. eexists. reflexivity.
  - vm_compute. repeat constructor; discriminate.
  - unfold wf_pool. vm_compute. repeat constructor.
Defined.

(** * The claims *)

(** ** C1: the pool invariant across compaction *)

(** C1.  The specification wants the free blocks and the blocks held by
    the output queues of the table to add up to [BUFFER_POOL_SIZE] at
    every boundary between two turns of the event loop, compaction
    releasing the blocks of closed connections.  The code loses them: a
    client that sends [folks] and then an unknown command in one segment
    is closed with its reply still queued; after that turn the table
    holds the listener alone, 15 blocks are free and none is queued. *)
Theorem closed_connection_leaks_its_block :
  exists s,
    serve 2 (startup leak_world) = Ok (tt, s)
    /\ conn_length (connections s) = 1
    /\ free_blocks s = 15
    /\ queued_blocks s = 0
    /\ ~ pool_invariant s.
Proof.
  destruct (observe_elim
              (fun s => (conn_length (connections s), free_blocks s,
                         queued_blocks s))
              (serve 2 (startup leak_world)) (1, 15, 0))
    as (s & Hrun & Hobs); [vm_compute; reflexivity|].
  injection Hobs as Hlen Hfree Hqueued.
  exists s. split_and!; try assumption.
  unfold pool_invariant. rewrite Hfree, Hqueued. discriminate.
Qed.

(** ** C2: the reply to [new] *)

(** C2, as the specification words it, fails: with two messages posted
    since the cursor the reply does not list them newest first. *)
Lemma new_reply_not_newest_first : ~ new_replies_newest_first 1 two_messages.
Proof.
  intros H.
  destruct (H two_messages_conn) as (s' & Hrun & Hbytes).
  { vm_compute. reflexivity. }
  apply (observe_Ok (queue_bytes 1)) in Hrun. rewrite Hbytes in Hrun.
  vm_compute in Hrun. discriminate Hrun.
Qed.

(** C2, amended.  On a history in non-increasing timestamp order that
    contains N entries not older than the connection's cursor, when the
    clock can be read, every one of these entries can be rendered in
    local time into the packet buffer and the reply fits what the pool
    and the connection's last block can still take, processing [new]
    returns 0 and appends to the connection's output queue first the
    line with the decimal count N, then the N entries from the oldest
    to the newest, each as [[HH:MM:SS] nick: message] in the server's
    local time, every line followed by CR LF. *)
Theorem new_reply_oldest_first client s conn now rest :
  ready client s -> conn_of client s = Some conn ->
  wf_history (history s) -> newest_first (entries (history s)) ->
  clock (world s) = now :: rest ->
  let selection := not_older_than (last_received_message conn) (history s) in
  Forall (printable (world s)) selection ->
  strlen (new_reply (world s) selection) <= room client s ->
  exists s',
    process_new_package client PACKAGE_NEW s = Ok (0, s')
    /\ queue_bytes client s'
       = queue_bytes client s
         ++ fmt_d (Z.of_nat (length selection)) ++ CRLF
         ++ concat (map (line (world s)) (rev selection)).
Proof.
  intros Hready Hconn Hwf Hsorted Hclock selection Hprint Hfit.
  destruct (process_new_selection client s conn selection now rest)
    as (s' & Hrun & _ & Hbytes & _); try assumption.
  { now apply new_selection_sorted. }
  exists s'. split; [exact Hrun|]. exact Hbytes.
Qed.

Lemma new_reply_oldest_first_witness :
  exists s',
    process_new_package 1 PACKAGE_NEW two_messages = Ok (0, s')
    /\ queue_bytes 1 s'
       = queue_bytes 1 two_messages
         ++ packet "2"
         ++ packet "[00:03:20] anonym: a"
         ++ packet "[00:05:00] anonym: b".
Proof.
  destruct (new_reply_oldest_first 1 two_messages two_messages_conn
              (at_second 400) [])
    as (s' & Hrun & Hbytes).
  - exact two_messages_ready.
  - vm_compute. reflexivity.
  - split; vm_compute; [reflexivity | split; discriminate].
  - unfold newest_first. vm_compute. repeat constructor.
  - vm_compute. reflexivity.
  - vm_compute.
    repeat constructor; eexists; (split; [reflexivity | discriminate]).
  - vm_compute. discriminate.
  - exists s'. split; [exact Hrun|]. rewrite Hbytes. f_equal.
Defined.

(** ** C3: the entries selected by [new] and the cursor *)

(** C3, as the specification words it, fails: an entry whose timestamp
    equals the cursor is selected although it is not strictly later. *)
Lemma equal_timestamp_is_selected : ~ new_selects_later_than 1 same_reading.
Proof.
  intros H.
  specialize (H (default zero_ConnectionData (conn_of 1 same_reading))).
  assert (Hconn : conn_of 1 same_reading
                  = Some (default zero_ConnectionData (conn_of 1 same_reading)))
    by (vm_compute; reflexivity).
  specialize (H Hconn). vm_compute in H. discriminate H.
Qed.

(** C3, amended.  For every cursor and every history in non-increasing
    timestamp order, the entries selected by a [new] request are exactly
    those whose timestamp is not older than the cursor (later than or
    equal to it).  When, moreover, the reply can be produced (the
    connection is a slot of the table, the clock can be read, the
    selected entries are printable and the reply fits the room of the
    pool), they are what the reply lists, and the connection's cursor is
    afterwards the time read from the clock after the reply was
    queued. *)
Theorem new_selects_not_older client s :
  wf_history (history s) -> newest_first (entries (history s)) ->
  (forall cursor,
     new_selection (world s) (history s) cursor
     = Some (not_older_than cursor (history s)))
  /\ (forall conn now rest,
        ready client s -> conn_of client s = Some conn ->
        clock (world s) = now :: rest ->
        Forall (printable (world s))
          (not_older_than (last_received_message conn) (history s)) ->
        strlen (new_reply (world s)
                  (not_older_than (last_received_message conn) (history s)))
        <= room client s ->
        exists s',
          process_new_package client PACKAGE_NEW s = Ok (0, s')
          /\ queue_bytes client s'
             = queue_bytes client s
               ++ new_reply (world s)
                    (not_older_than (last_received_message conn) (history s))
          /\ cursor client s' = Some now).
Proof.
  intros Hwf Hsorted. split.
  - intros cursor. now apply new_selection_sorted.
  - intros conn now rest Hready Hconn Hclock Hprint Hfit.
    destruct (process_new_selection client s conn
                (not_older_than (last_received_message conn) (history s))
                now rest)
      as (s' & Hrun & _ & Hbytes & _ & _ & Hcursor & _); try assumption.
    + now apply new_selection_sorted.
    + exists s'. split; [exact Hrun|]. split; [exact Hbytes | exact Hcursor].
Qed.

Lemma new_selects_not_older_witness :
  (forall cursor,
     new_selection (world two_messages) (history two_messages) cursor
     = Some (not_older_than cursor (history two_messages)))
  /\ exists s',
       process_new_package 1 PACKAGE_NEW two_messages = Ok (0, s')
       /\ queue_bytes 1 s'
          = queue_bytes 1 two_messages
            ++ new_reply (world two_messages)
                 (not_older_than (last_received_message two_messages_conn)
                    (history two_messages))
       /\ cursor 1 s' = Some (at_second 400).
Proof.
  destruct (new_selects_not_older 1 two_messages) as [Hselect Hreply].
  - split; vm_compute; [reflexivity | split; discriminate].
  - unfold newest_first. vm_compute. repeat constructor.
  - split; [exact Hselect|].
    apply (Hreply two_messages_conn (at_second 400) []).
    + exact two_messages_ready.
    + vm_compute. reflexivity.
    + vm_compute. reflexivity.
    + vm_compute.
      repeat constructor; eexists; (split; [reflexivity | discriminate]).
    + vm_compute. discriminate.
Defined.

(** ** C4: appending to the history *)

(** C4.  The specification wants every append to leave a history of at
    most [MAX_HISTORY_LENGTH] entries, also when it is full.  The code
    shifts all [history.length] entries up by one before it stores the
    new one: fifty posts fill the history, and the fifty-first moves
    fifty entries to [history.messages[1..50]], one past the end of the
    array. *)
Theorem append_to_full_history_overruns :
  (exists s,
     serve 6 (startup (flood 50)) = Ok (tt, s)
     /\ hist_length (history s) = MAX_HISTORY_LENGTH)
  /\ serve 6 (startup (flood 51)) = OutOfBounds "history.messages".
Proof.
  split.
  - destruct (observe_elim (fun s => hist_length (history s))
                (serve 6 (startup (flood 50))) MAX_HISTORY_LENGTH)
      as (s & Hrun & Hobs); [vm_compute; reflexivity|].
    exists s. split; assumption.
  - vm_compute. reflexivity.
Qed.

(** ** C5: protocol violations and oversize fields *)

(** C5.  The specification wants the connection closed, without a
    reply, on every protocol violation or oversize field.  A nick of 21
    bytes is answered as specified (the socket is closed, nothing is
    queued) and fields of exactly 20 and 140 bytes are accepted with
    [ok], but for a message of 141 bytes the code returns without
    closing the socket: the slot leaves the table and descriptor 5 is
    never given to [close]. *)
Theorem oversize_message_leaves_socket_open :
  (exists s,
     serve 2 (startup long_message) = Ok (tt, s)
     /\ conn_length (connections s) = 1
     /\ free_blocks s = BUFFER_POOL_SIZE
     /\ closed_fds (world s) = [])
  /\ (exists s,
        serve 2 (startup long_nick) = Ok (tt, s)
        /\ conn_length (connections s) = 1
        /\ free_blocks s = BUFFER_POOL_SIZE
        /\ closed_fds (world s) = [5])
  /\ (exists s,
        serve 2 (startup longest_message) = Ok (tt, s)
        /\ conn_length (connections s) = 2
        /\ hist_length (history s) = 1
        /\ queue_bytes 1 s = packet "ok")
  /\ (exists s,
        serve 2 (startup longest_nick) = Ok (tt, s)
        /\ conn_length (connections s) = 2
        /\ nick <$> conn_of 1 s = Some (replicate 20 "n"%char)
        /\ queue_bytes 1 s = packet "ok").
Proof.
  split_and!.
  - destruct (observe_elim
                (fun s => (conn_length (connections s), free_blocks s,
                           closed_fds (world s)))
                (serve 2 (startup long_message)) (1, BUFFER_POOL_SIZE, []))
      as (s & Hrun & Hobs); [vm_compute; reflexivity|].
    injection Hobs as H1 H2 H3. exists s. split_and!; assumption.
  - destruct (observe_elim
                (fun s => (conn_length (connections s), free_blocks s,
                           closed_fds (world s)))
                (serve 2 (startup long_nick)) (1, BUFFER_POOL_SIZE, [5]))
      as (s & Hrun & Hobs); [vm_compute; reflexivity|].
    injection Hobs as H1 H2 H3. exists s. split_and!; assumption.
  - destruct (observe_elim
                (fun s => (conn_length (connections s),
                           hist_length (history s), queue_bytes 1 s))
                (serve 2 (startup longest_message)) (2, 1, packet "ok"))
      as (s & Hrun & Hobs); [vm_compute; reflexivity|].
    injection Hobs as H1 H2 H3. exists s. split_and!; assumption.
  - destruct (observe_elim
                (fun s => (conn_length (connections s),
                           nick <$> conn_of 1 s, queue_bytes 1 s))
                (serve 2 (startup longest_nick))
                (2, Some (replicate 20 "n"%char), packet "ok"))
      as (s & Hrun & Hobs); [vm_compute; reflexivity|].
    injection Hobs as H1 H2 H3. exists s. split_and!; assumption.
Qed.

(** ** C6: a full connection table *)

(** C6.  The specification wants a client that arrives at a full table
    rejected and the table unchanged.  The code does not look at the
    length: once 1023 clients fill the table, accepting one more writes
    [connections.sockets[1024]], past the end of the array. *)
Theorem accept_overruns_full_table :
  (exists s,
     (boot 3;; times 1023 accept_new_client) (startup crowd) = Ok (tt, s)
     /\ conn_length (connections s) = MAX_CONNECTIONS)
  /\ (boot 3;; times 1024 accept_new_client) (startup crowd)
     = OutOfBounds "connections.sockets".
Proof.
  split.
  - destruct (observe_elim (fun s => conn_length (connections s))
                ((boot 3;; times 1023 accept_new_client) (startup crowd))
                MAX_CONNECTIONS)
      as (s & Hrun & Hobs); [vm_compute; reflexivity|].
    exists s. split; assumption.
  - vm_compute. reflexivity.
Qed.

(** ** C7: partial writes *)

(** C7.  The specification wants a write that takes fewer bytes than
    the head block holds to leave the rest queued.  The code asserts
    that every write takes the whole block: with the 11 bytes of the
    reply to [folks] queued and a socket that takes 3 of them, the
    assertion fails and the server stops. *)
Theorem partial_write_fails_the_assertion :
  (exists s,
     serve 2 (startup slow_reader) = Ok (tt, s)
     /\ queue_bytes 1 s = packet "1" ++ packet "anonym")
  /\ serve 3 (startup slow_reader)
     = AssertionFailed "sent == buffer->buffer.used".
Proof.
  split.
  - destruct (observe_elim (queue_bytes 1) (serve 2 (startup slow_reader))
                (packet "1" ++ packet "anonym"))
      as (s & Hrun & Hobs); [vm_compute; reflexivity|].
    exists s. split; assumption.
  - vm_compute. reflexivity.
Qed.

(** ** C8: two [new] in a row *)

(** C8, as the specification words it, fails: when the clock gives the
    first [new] the reading it gave the last post, the second [new]
    reports that post again. *)
Lemma second_new_repeats_entry : ~ second_new_is_empty 1 coarse_clock.
Proof.
  intros H.
  destruct (state_after_Ok (process_new_package 1 PACKAGE_NEW) coarse_clock)
    as [r Hfirst].
  { vm_compute. reflexivity. }
  assert (r = 0) as ->.
  { apply (f_equal (fun o => match o with Ok (a, _) => a | _ => 1 end))
      in Hfirst.
    vm_compute in Hfirst. congruence. }
  destruct (H _ Hfirst) as (s2 & Hrun & Hbytes).
  apply (observe_Ok (queue_bytes 1)) in Hrun. rewrite Hbytes in Hrun.
  vm_compute in Hrun. discriminate Hrun.
Qed.

(** C8, amended.  When a [new] request succeeds (its reply queued, its
    cursor set to the time [now] read from the clock) and every entry
    of the history is strictly older than [now], a [new] that follows
    with no append in between, the clock readable and room for three
    more bytes in the output queue, returns 0 and queues the count [0]
    and no message line. *)
Theorem second_new_returns_zero client s conn selection now later rest :
  ready client s -> conn_of client s = Some conn ->
  wf_history (history s) ->
  new_selection (world s) (history s) (last_received_message conn)
  = Some selection ->
  Forall (printable (world s)) selection ->
  strlen (new_reply (world s) selection) + 3 <= room client s ->
  clock (world s) = now :: later :: rest ->
  Forall (fun m => older (msg_time m) now = true) (entries (history s)) ->
  exists s1 s2,
    process_new_package client PACKAGE_NEW s = Ok (0, s1)
    /\ history s1 = history s
    /\ process_new_package client PACKAGE_NEW s1 = Ok (0, s2)
    /\ queue_bytes client s2 = queue_bytes client s1 ++ str "0" ++ CRLF.
Proof.
  intros Hready Hconn Hwf Hsel Hprint Hfit Hclock Hold.
  destruct (process_new_selection client s conn selection now (later :: rest))
    as (s1 & Hrun1 & Hready1 & _ & Hroom1 & Hh1 & Hcur1 & Hw1);
    try assumption; [lia|].
  unfold cursor in Hcur1.
  destruct (conn_of client s1) as [conn1|] eqn:Hconn1; [|discriminate].
  injection Hcur1 as Hcur1.
  destruct (scan_all_older (world s1) (history s1) now
              (Z.to_nat (hist_length (history s1)))) as (reads & Hscan & _).
  { rewrite Hh1. destruct Hwf. lia. }
  { rewrite Hh1. exact Hold. }
  rewrite Z2Nat.id in Hscan by (rewrite Hh1; destruct Hwf; lia).
  destruct (process_new_spec client s1 conn1 O reads later rest)
    as (s2 & Hrun2 & _ & Hbytes2 & _); try assumption.
  { now rewrite Hh1. }
  { now rewrite Hcur1. }
  { lia. }
  { constructor. }
  { change (strlen (new_reply (world s1) (take 0 (messages (history s1)))))
      with 3. lia. }
  { now rewrite Hw1. }
  exists s1, s2. now split_and!.
Qed.

Lemma second_new_returns_zero_witness :
  exists s1 s2,
    process_new_package 1 PACKAGE_NEW one_message = Ok (0, s1)
    /\ history s1 = history one_message
    /\ process_new_package 1 PACKAGE_NEW s1 = Ok (0, s2)
    /\ queue_bytes 1 s2 = queue_bytes 1 s1 ++ str "0" ++ CRLF.
Proof.
  apply (second_new_returns_zero 1 one_message
           (default zero_ConnectionData (conn_of 1 one_message))
           (take 1 (messages (history one_message)))
           (at_second 300) (at_second 400) []).
  - exact one_message_ready.
  - vm_compute. reflexivity.
  - split; vm_compute; [reflexivity | split; discriminate].
  - vm_compute. reflexivity.
  - vm_compute.
    repeat constructor; eexists; (split; [reflexivity | discriminate]).
  - vm_compute. discriminate.
  - vm_compute. reflexivity.
  - vm_compute. repeat constructor.
Defined.

(** ** C9: the indices read by the scan *)

(** C9.  Every index of [history.messages] read while [new] is
    processed should lie in [0 .. history.length).  The scan tests the
    entry at [i] before it tests [i >= 0]: whenever the history is
    empty or all its entries are older than the cursor, the scan stops
    at [-1] after reading [history.messages[-1]], which is outside that
    range. *)
Theorem new_scan_reads_before_the_array w h cursor :
  wf_history h ->
  Forall (fun m => older (msg_time m) cursor = true) (entries h) ->
  exists reads,
    new_scan (Z.to_nat (hist_length h - 1 + 1)) w h cursor (hist_length h - 1)
    = Some (-1, reads)
    /\ In (-1) reads
    /\ ~ (0 <= -1 < hist_length h).
Proof.
  intros [Hcap Hlen] Hold.
  destruct (scan_all_older w h cursor (Z.to_nat (hist_length h)))
    as (reads & Hscan & Hin); [lia | exact Hold |].
  rewrite Z2Nat.id in Hscan by lia.
  exists reads.
  replace (hist_length h - 1 + 1) with (hist_length h) by lia.
  split; [exact Hscan|]. split; [exact Hin|]. lia.
Qed.

Lemma new_scan_reads_before_the_array_witness :
  exists reads,
    new_scan (Z.to_nat (hist_length (history (startup quiet)) - 1 + 1)) quiet
      (history (startup quiet)) (at_second 100)
      (hist_length (history (startup quiet)) - 1)
    = Some (-1, reads)
    /\ In (-1) reads
    /\ ~ (0 <= -1 < hist_length (history (startup quiet))).
Proof.
  apply (new_scan_reads_before_the_array quiet (history (startup quiet))
           (at_second 100)).
  - split; vm_compute; [reflexivity | split; discriminate].
  - vm_compute. constructor.
Defined.

(** A client that polls before anything was posted gets the count [0]:
    the value read in front of the array does not matter. *)
Lemma early_poll_is_answered :
  exists s,
    serve 3 (startup early_poll) = Ok (tt, s)
    /\ wire (world s) = [(5, packet "0")].
Proof.
  destruct (observe_elim (fun s => wire (world s))
              (serve 3 (startup early_poll)) [(5, packet "0")])
    as (s & Hrun & Hobs); [vm_compute; reflexivity|].
  exists s. split; assumption.
Qed.

(** ** C10: the size of the packet buffer *)

(** C10.  Every formatted line should fit [outgoing], which has
    [MAX_PACKAGE_LENGTH] bytes.  An entry with a nick of 20 bytes and a
    message of 140 bytes, both accepted by the server, is formatted into
    173 characters; with the terminator [sprintf] writes 174 bytes. *)
Theorem longest_line_overruns_outgoing :
  (exists s,
     serve 5 (startup longest_line) = Ok (tt, s)
     /\ entries (history s)
        = [{| msg_nick := replicate 20 "n"%char;
              msg_data := replicate 140 "m"%char;
              msg_time := at_second 200 |}])
  /\ strlen (format_line {| tm_hour := 0; tm_min := 3; tm_sec := 20 |}
               (replicate 20 "n"%char) (replicate 140 "m"%char)) + 1
     = MAX_PACKAGE_LENGTH + 1
  /\ serve 6 (startup longest_line) = OutOfBounds "outgoing".
Proof.
  split_and!.
  - destruct (observe_elim (fun s => entries (history s))
                (serve 5 (startup longest_line))
                [{| msg_nick := replicate 20 "n"%char;
                    msg_data := replicate 140 "m"%char;
                    msg_time := at_second 200 |}])
      as (s & Hrun & Hobs); [vm_compute; reflexivity|].
    exists s. split; assumption.
  - vm_compute. reflexivity.
  - vm_compute. reflexivity.
Qed.

(** * Further properties of the code *)

(** ** What queueing leaves alone *)

Lemma array_get_insert_ne {A} (a : list A) client i v :
  i <> client -> 0 <= client ->
  array_get (<[Z.to_nat client := v]> a) i = array_get a i.
Proof.
  intros Hne Hc. unfold array_get. destruct (0 <=? i) eqn:Hi; [|reflexivity].
  apply Z.leb_le in Hi. apply list_lookup_insert_ne. lia.
Qed.

Lemma array_get_nonneg {A} (a : list A) i x : array_get a i = Some x -> 0 <= i.
Proof.
  unfold array_get. destruct (0 <=? i) eqn:Hi; [|discriminate].
  intros _. now apply Z.leb_le.
Qed.

Lemma array_set_inv {A} (a : list A) i v a' :
  array_set a i v = Some a' ->
  a' = <[Z.to_nat i := v]> a /\ 0 <= i < Z.of_nat (length a).
Proof.
  unfold array_set.
  destruct (0 <=? i) eqn:H0; destruct (i <? Z.of_nat (length a)) eqn:H1;
    simpl; try discriminate.
  intros H. injection H as <-. apply Z.leb_le in H0. apply Z.ltb_lt in H1.
  split; [reflexivity | lia].
Qed.

Lemma in_bounds_inv {A} what (o : option A) a s s' :
  in_bounds what o s = Ok (a, s') -> o = Some a /\ s' = s.
Proof.
  unfold in_bounds. destruct o; [|discriminate].
  intros H. injection H as <- <-. now split.
Qed.

Lemma take_buffer_inv b s s' :
  take_buffer s = Ok (b, s') ->
  exists f rest,
    first_free_buffer s = f :: rest
    /\ b = {| data := data f; used := 0 |}
    /\ s' = set_first_free_buffer rest s.
Proof.
  unfold take_buffer. destruct (first_free_buffer s) as [|f rest]; [discriminate|].
  intros H. injection H as <- <-. now exists f, rest.
Qed.

Lemma chain_buffer_inv q q' s s' :
  chain_buffer q s = Ok (q', s') ->
  exists f rest,
    first_free_buffer s = f :: rest
    /\ q' = q ++ [{| data := data f; used := 0 |}]
    /\ s' = set_first_free_buffer rest s.
Proof.
  unfold chain_buffer. intros H.
  apply bind_inv in H as (b & s1 & Htake & H).
  apply take_buffer_inv in Htake as (f & rest & Hfree & -> & ->).
  injection H as <- <-. now exists f, rest.
Qed.

Lemma length_set_last q b l :
  last q = Some l -> length (set_last q b) = length q.
Proof.
  intros H. unfold set_last.
  destruct q as [|x q] using rev_ind; [discriminate|].
  rewrite removelast_last, !length_app. reflexivity.
Qed.

(** The loop of [send_later] changes the free list only, and every
    block it adds to the chain comes from there. *)
Lemma send_later_loop_inv fuel : forall message stored q s q' s',
  send_later_loop fuel message stored q s = Ok (q', s') ->
  exists free,
    s' = set_first_free_buffer free s
    /\ (length free + length q' = length (first_free_buffer s) + length q)%nat.
Proof.
  induction fuel as [|fuel IH]; intros message stored q s q' s' H;
    cbn [send_later_loop] in H;
    destruct (stored <? strlen message);
    try discriminate;
    try (injection H as <- <-; exists (first_free_buffer s);
         split; [now rewrite set_first_free_buffer_same | reflexivity]).
  apply bind_inv in H as (q1 & s1 & Hchain & H).
  apply bind_inv in H as (b & s2 & Hlast & H).
  apply in_bounds_inv in Hlast as [Hlast ->].
  apply bind_inv in H as (bytes & s2 & Hcpy & H).
  apply in_bounds_inv in Hcpy as [Hcpy ->].
  apply IH in H as (free & -> & Hcount).
  rewrite (length_set_last _ _ _ Hlast) in Hcount.
  destruct (stored =? 0).
  - injection Hchain as <- <-. now exists free.
  - apply chain_buffer_inv in Hchain as (f & rest & Hfree & -> & ->).
    exists free. split; [reflexivity|].
    rewrite Hfree. rewrite length_app in Hcount. simpl in *. lia.
Qed.

Lemma send_later_inv client message s s' :
  send_later client message s = Ok (tt, s') -> queued_for client s s'.
Proof.
  unfold send_later. intros H.
  apply bind_inv in H as (conn & s0 & Hread & H).
  unfold read_data in Hread. apply in_bounds_inv in Hread as [Hconn ->].
  apply bind_inv in H as (q1 & s1 & Hstart & H).
  assert (Hs1 : exists free1,
            s1 = set_first_free_buffer free1 s
            /\ (length free1 + length q1
                = length (first_free_buffer s) + length (pending_to_be_sent conn))%nat).
  { destruct (last (pending_to_be_sent conn)) as [l|] eqn:Hlast.
    - destruct (used l =? sizeof_data).
      + apply chain_buffer_inv in Hstart as (f & rest & Hfree & -> & ->).
        exists rest. split; [reflexivity|]. rewrite Hfree, length_app. simpl. lia.
      + injection Hstart as <- <-. exists (first_free_buffer s).
        split; [now rewrite set_first_free_buffer_same | reflexivity].
    - apply last_None in Hlast. rewrite Hlast.
      apply bind_inv in Hstart as (b & s2 & Htake & Hstart).
      apply take_buffer_inv in Htake as (f & rest & Hfree & -> & ->).
      injection Hstart as <- <-. exists rest. split; [reflexivity|].
      rewrite Hfree. simpl. lia. }
  destruct Hs1 as (free1 & -> & Hcount1).
  apply bind_inv in H as (q2 & s2 & Hloop & H).
  apply send_later_loop_inv in Hloop as (free2 & -> & Hcount2).
  rewrite set_first_free_buffer_twice in H.
  cbn [first_free_buffer set_first_free_buffer] in Hcount2.
  apply bind_inv in H as ([] & s3 & Hwrite & H).
  unfold write_data in Hwrite.
  cbn [connections set_first_free_buffer] in Hwrite.
  destruct (array_set (conn_data (connections s)) client
              (set_pending_to_be_sent q2 conn)) as [data'|] eqn:Hset;
    [|discriminate].
  injection Hwrite as <-.
  apply array_set_inv in Hset as [-> Hrange].
  apply bind_inv in H as (sock & s4 & Hsock & H).
  unfold read_socket in Hsock. apply in_bounds_inv in Hsock as [Hsock ->].
  cbn [connections set_connections sockets set_conn_data] in Hsock.
  unfold write_socket in H.
  cbn [connections set_connections sockets set_conn_data] in H.
  destruct (array_set (sockets (connections s)) client (set_events POLLOUT sock))
    as [socks'|] eqn:Hsset; [|discriminate].
  injection H as <-.
  apply array_set_inv in Hsset as [-> Hsrange].
  unfold queued_for, queue, conn_of, sock_of, free_blocks.
  cbn [connections set_connections sockets set_conn_data set_sockets conn_data
       conn_length history world first_free_buffer set_first_free_buffer].
  assert (Hc : 0 <= client) by lia.
  split_and!; try reflexivity.
  - apply length_insert.
  - apply length_insert.
  - intros i Hi. now apply array_get_insert_ne.
  - intros i Hi. now apply array_get_insert_ne.
  - exists conn, q2. split; [exact Hconn|].
    unfold array_get. replace (0 <=? client) with true by (symmetry; apply Z.leb_le; lia).
    apply list_lookup_insert_eq. lia.
  - exists sock. split; [exact Hsock|].
    unfold array_get. replace (0 <=? client) with true by (symmetry; apply Z.leb_le; lia).
    apply list_lookup_insert_eq. lia.
  - rewrite Hconn.
    unfold array_get. replace (0 <=? client) with true by (symmetry; apply Z.leb_le; lia).
    rewrite list_lookup_insert_eq by lia. cbn [pending_to_be_sent set_pending_to_be_sent].
    lia.
Qed.

Lemma queued_for_trans client s1 s2 s3 :
  queued_for client s1 s2 -> queued_for client s2 s3 -> queued_for client s1 s3.
Proof.
  intros (Hh1 & Hw1 & Hn1 & Hd1 & Hs1 & Ho1 & Hp1 & (c1 & q1 & Hc1 & Hc1') & (p1 & Hk1 & Hk1') & Hb1)
         (Hh2 & Hw2 & Hn2 & Hd2 & Hs2 & Ho2 & Hp2 & (c2 & q2 & Hc2 & Hc2') & (p2 & Hk2 & Hk2') & Hb2).
  unfold queued_for. split_and!; try congruence.
  - intros i Hi. rewrite Ho2, Ho1 by assumption. reflexivity.
  - intros i Hi. rewrite Hp2, Hp1 by assumption. reflexivity.
  - exists c1, q2. split; [assumption|].
    rewrite Hc2'. rewrite Hc1' in Hc2. injection Hc2 as <-. reflexivity.
  - exists p1. split; [assumption|].
    rewrite Hk2'. rewrite Hk1' in Hk2. injection Hk2 as <-. reflexivity.
Qed.

Lemma send_package_inv client message s s' :
  send_package client message s = Ok (tt, s') -> queued_for client s s'.
Proof.
  unfold send_package. intros H.
  apply bind_inv in H as ([] & s1 & H1 & H2).
  eapply queued_for_trans; eapply send_later_inv; eassumption.
Qed.

(** ** Running out of blocks *)

(** Arithmetic on block sizes. *)
Ltac block_lia :=
  unfold free_blocks in *;
  repeat match goal with
         | H : first_free_buffer _ = _ :: _ |- _ => rewrite H in *; clear H
         end;
  cbn [length used data first_free_buffer set_first_free_buffer] in *;
  rewrite ?sizeof_data_eq in *; lia.

Lemma bind_Exit {A B} (m : M A) (f : A -> M B) s msg :
  m s = Exit msg -> (m ≫= f) s = Exit msg.
Proof. intros H. unfold mbind, M_bind. now rewrite H. Qed.

Lemma fresh_block_wf f :
  length (data f) = Z.to_nat sizeof_data ->
  wf_block {| data := data f; used := 0 |}.
Proof. intros H. split; simpl; [assumption|]. rewrite sizeof_data_eq. lia. Qed.

Lemma wf_pool_cons s f free :
  wf_pool s -> first_free_buffer s = f :: free ->
  length (data f) = Z.to_nat sizeof_data
  /\ wf_pool (set_first_free_buffer free s).
Proof.
  unfold wf_pool. intros H Hfree. rewrite Hfree in H. inversion H; subst.
  now split.
Qed.

Lemma send_later_loop_exhausts fuel : forall message stored q b s,
  0 <= stored <= strlen message ->
  strlen message - stored <= Z.of_nat fuel ->
  Forall wf_block (q ++ [b]) -> wf_pool s ->
  (stored = 0 -> used b < sizeof_data) ->
  (0 < stored -> used b = sizeof_data) ->
  sizeof_data * free_blocks s + (sizeof_data - used b)
    < strlen message - stored ->
  send_later_loop fuel message stored (q ++ [b]) s
  = Exit "Memory limit exceeded".
Proof.
  induction fuel as [|fuel IH]; intros message stored q b s Hst Hfuel Hwf Hpool H0 H1 Hcap;
    destruct (Forall_snoc_inv _ _ _ Hwf) as [Hq Hb];
    pose proof Hb as [Hblen Hbused].
  - exfalso. block_lia.
  - cbn [send_later_loop].
    replace (stored <? strlen message) with true
      by (symmetry; apply Z.ltb_lt; block_lia).
    destruct (stored =? 0) eqn:Hz.
    + apply Z.eqb_eq in Hz. specialize (H0 Hz).
      destruct (fill_last message stored q b ltac:(block_lia) Hb H0)
        as (bytes & Hcpy & Hpos & Hps & Hwfb & _).
      erewrite bind_Ok by apply ret_Ok.
      erewrite bind_Ok by (apply in_bounds_Some; apply last_snoc).
      erewrite bind_Ok by (apply in_bounds_Some; exact Hcpy).
      rewrite set_last_snoc.
      apply IH; cbn [used]; try assumption; try block_lia.
      now apply Forall_snoc.
    + apply Z.eqb_neq in Hz.
      assert (Hfull : used b = sizeof_data) by (apply H1; lia).
      destruct (first_free_buffer s) as [|f free] eqn:Hfree.
      { unfold mbind, M_bind, chain_buffer, take_buffer, mbind, M_bind.
        now rewrite Hfree. }
      destruct (wf_pool_cons _ _ _ Hpool Hfree) as [Hf Hpool'].
      pose proof (fresh_block_wf f Hf) as Hnb.
      destruct (fill_last message stored (q ++ [b]) _ ltac:(block_lia) Hnb
                  ltac:(block_lia))
        as (bytes & Hcpy & Hpos & Hps & Hwfb & _).
      assert (Htake : chain_buffer (q ++ [b]) s
                      = Ok ((q ++ [b]) ++ [{| data := data f; used := 0 |}],
                            set_first_free_buffer free s)).
      { unfold chain_buffer, take_buffer, mbind, M_bind. now rewrite Hfree. }
      run Htake.
      erewrite bind_Ok by (apply in_bounds_Some; apply last_snoc).
      erewrite bind_Ok by (apply in_bounds_Some; exact Hcpy).
      rewrite set_last_snoc.
      apply IH; cbn [used]; try assumption.
      * block_lia.
      * block_lia.
      * now apply Forall_snoc.
      * intros; block_lia.
      * intros; block_lia.
      * block_lia.
Qed.

Lemma send_later_exhausts client message s :
  ready client s -> room client s < strlen message ->
  send_later client message s = Exit "Memory limit exceeded".
Proof.
  intros ([conn Hconn] & _ & Hq & Hpool) Hbig.
  unfold room, queue in *. rewrite Hconn in *.
  unfold send_later.
  assert (Hread : read_data client s = Ok (conn, s)).
  { unfold read_data. now apply in_bounds_Some. }
  run Hread.
  assert (Hlen : strlen message <= Z.of_nat (length message)) by (unfold strlen; lia).
  destruct (pending_to_be_sent conn) as [|b0 q0] eqn:Hpend using rev_ind.
  - cbn [last]. unfold slack in Hbig. cbn [last] in Hbig.
    destruct (first_free_buffer s) as [|f free] eqn:Hfree.
    { unfold mbind, M_bind, take_buffer. now rewrite Hfree. }
    destruct (wf_pool_cons _ _ _ Hpool Hfree) as [Hf Hpool'].
    assert (Htake : (buffer ← take_buffer; mret [buffer]) s
                    = Ok ([] ++ [{| data := data f; used := 0 |}],
                          set_first_free_buffer free s)).
    { unfold take_buffer, mbind, M_bind. now rewrite Hfree. }
    run Htake.
    apply bind_Exit, send_later_loop_exhausts;
      cbn [used]; try assumption.
    + block_lia.
    + block_lia.
    + apply Forall_snoc; [constructor|]. now apply fresh_block_wf.
    + intros; block_lia.
    + intros; block_lia.
    + block_lia.
  - clear IHq0. rewrite last_snoc. rewrite slack_snoc in Hbig.
    destruct (Forall_snoc_inv _ _ _ Hq) as [Hq0 [Hb0len Hb0]].
    destruct (used b0 =? sizeof_data) eqn:Hfull.
    + apply Z.eqb_eq in Hfull.
      destruct (first_free_buffer s) as [|f free] eqn:Hfree.
      { unfold mbind, M_bind, chain_buffer, take_buffer, mbind, M_bind.
        now rewrite Hfree. }
      destruct (wf_pool_cons _ _ _ Hpool Hfree) as [Hf Hpool'].
      assert (Htake : chain_buffer (q0 ++ [b0]) s
                      = Ok ((q0 ++ [b0]) ++ [{| data := data f; used := 0 |}],
                            set_first_free_buffer free s)).
      { unfold chain_buffer, take_buffer, mbind, M_bind. now rewrite Hfree. }
      run Htake.
      apply bind_Exit, send_later_loop_exhausts;
        cbn [used]; try assumption.
      * block_lia.
      * block_lia.
      * apply Forall_snoc; [assumption|]. now apply fresh_block_wf.
      * intros; block_lia.
      * intros; block_lia.
      * block_lia.
    + apply Z.eqb_neq in Hfull.
      erewrite bind_Ok by apply ret_Ok.
      apply bind_Exit, send_later_loop_exhausts;
        try assumption.
      * block_lia.
      * block_lia.
      * intros; block_lia.
      * intros; block_lia.
      * block_lia.
Qed.

(** ** Draining *)

Lemma send_whole_block d (b : Buffer) n rest s :
  send_tape (world s) = Room n :: rest ->
  0 <= used b <= Z.of_nat (length (data b)) -> used b <= n ->
  send d (take (Z.to_nat (used b)) (data b)) s
  = Ok (inl (used b),
        set_world (with_wire ((d, block_bytes b) :: wire (world s))
                     (with_send_tape rest (world s))) s).
Proof.
  intros Htape Hused Hn. unfold send. rewrite Htape.
  assert (Hlen : Z.of_nat (length (take (Z.to_nat (used b)) (data b))) = used b).
  { rewrite length_take. lia. }
  rewrite Hlen.
  replace (Z.max 0 (Z.min n (used b))) with (used b) by lia.
  unfold block_bytes. rewrite take_take, Nat.min_id. reflexivity.
Qed.

Lemma handle_output_loop_drains d : forall pending answers rest s,
  pending <> [] ->
  Forall2 (fun b n => used b <= n) pending answers ->
  Forall (fun b => 0 <= used b <= Z.of_nat (length (data b))) pending ->
  send_tape (world s) = map Room answers ++ rest ->
  handle_output_loop d pending s
  = Ok (([], true),
        set_world
          (with_wire (rev (map (fun b => (d, block_bytes b)) pending)
                      ++ wire (world s))
             (with_send_tape rest (world s)))
          (set_first_free_buffer (rev pending ++ first_free_buffer s) s)).
Proof.
  induction pending as [|b next IH]; intros answers rest s Hne Hfit Hwf Htape;
    [congruence|].
  inversion Hfit as [|? n ? answers' Hn Hfit']; subst.
  inversion Hwf as [|? ? Hb Hwf']; subst.
  cbn [handle_output_loop].
  erewrite bind_Ok by (apply (send_whole_block d b n (map Room answers' ++ rest));
                       [exact Htape | exact Hb | exact Hn]).
  cbv beta iota. rewrite Z.eqb_refl.
  erewrite bind_Ok by reflexivity.
  destruct next as [|b' next'].
  - inversion Hfit'; subst. cbn [map app rev]. reflexivity.
  - rewrite (IH answers' rest); [| congruence | exact Hfit' | exact Hwf' | reflexivity].
    unfold set_world, set_first_free_buffer, with_wire, with_send_tape.
    cbn [world first_free_buffer wire send_tape clock localtime stray
         accept_tape poll_tape recv_tape closed_fds connections history].
    cbn [map rev]. rewrite <- !app_assoc. reflexivity.
Qed.

Lemma wire_bytes_app d w w' chunks :
  wire w' = rev chunks ++ wire w ->
  Forall (fun p => fst p = d) chunks ->
  wire_bytes d w' = wire_bytes d w ++ concat (map snd chunks).
Proof.
  intros Hw Hd. unfold wire_bytes. rewrite Hw.
  rewrite rev_app_distr, rev_involutive, List.filter_app, map_app, concat_app.
  f_equal. f_equal. clear Hw.
  induction Hd as [|p l Hp _ IH]; [reflexivity|].
  simpl. rewrite Hp, Z.eqb_refl. simpl. f_equal. exact IH.
Qed.

Lemma write_data_Ok client v s x :
  conn_of client s = Some x ->
  write_data client v s
  = Ok (tt, set_connections
              (set_conn_data (<[Z.to_nat client := v]> (conn_data (connections s)))
                 (connections s)) s).
Proof.
  intros H. destruct (array_get_set _ _ _ v H) as [Hset _].
  unfold write_data. now rewrite Hset.
Qed.

Lemma write_socket_Ok client v s x :
  sock_of client s = Some x ->
  write_socket client v s
  = Ok (tt, set_connections
              (set_sockets (<[Z.to_nat client := v]> (sockets (connections s)))
                 (connections s)) s).
Proof.
  intros H. destruct (array_get_set _ _ _ v H) as [Hset _].
  unfold write_socket. now rewrite Hset.
Qed.

Lemma read_data_Ok client s x :
  conn_of client s = Some x -> read_data client s = Ok (x, s).
Proof. intros H. unfold read_data. now apply in_bounds_Some. Qed.

Lemma read_socket_Ok client s x :
  sock_of client s = Some x -> read_socket client s = Ok (x, s).
Proof. intros H. unfold read_socket. now apply in_bounds_Some. Qed.

(** ** Queueing output: [send_later], [send_package], [take_buffer] *)

(** X1.  [send_later] appends the bytes of the message, in order, to
    the bytes queued for the connection, whenever the free blocks and
    the rest of the connection's last block have room for them; the
    room shrinks by the length of the message, the blocks of the queue
    stay well formed and the socket is set to wait for [POLLOUT]. *)
Theorem send_later_appends client message s :
  ready client s ->
  strlen message <= room client s -> 1 <= room client s ->
  exists s',
    send_later client message s = Ok (tt, s')
    /\ queue_bytes client s' = queue_bytes client s ++ message
    /\ room client s' = room client s - strlen message
    /\ Forall wf_block (queue client s')
    /\ events <$> sock_of client s' = Some POLLOUT.
Proof.
  intros Hready Hfit Hone.
  destruct (send_later_spec client message s Hready Hfit Hone)
    as (s' & Hrun & (_ & _ & Hwf & _) & Hbytes & Hroom & _).
  pose proof (send_later_inv _ _ _ _ Hrun)
    as (_ & _ & _ & _ & _ & _ & _ & _ & (sock & _ & Hsock) & _).
  exists s'. split_and!; try assumption.
  rewrite Hsock. reflexivity.
Qed.

Lemma send_later_appends_witness :
  exists s',
    send_later 1 (str "hello") two_messages = Ok (tt, s')
    /\ queue_bytes 1 s' = queue_bytes 1 two_messages ++ str "hello"
    /\ room 1 s' = room 1 two_messages - strlen (str "hello")
    /\ Forall wf_block (queue 1 s')
    /\ events <$> sock_of 1 s' = Some POLLOUT.
Proof.
  apply (send_later_appends 1 (str "hello") two_messages).
  - exact two_messages_ready.
  - vm_compute. discriminate.
  - vm_compute. discriminate.
Defined.

(** X2.  The blocks [send_later] adds to a queue come out of the pool:
    the free blocks and the blocks of the connection's queue add up to
    the same number before and after, and no other slot of the table,
    nor the history, changes. *)
Theorem send_later_takes_blocks_from_pool client message s :
  ready client s ->
  strlen message <= room client s -> 1 <= room client s ->
  exists s',
    send_later client message s = Ok (tt, s')
    /\ free_blocks s' + Z.of_nat (length (queue client s'))
       = free_blocks s + Z.of_nat (length (queue client s))
    /\ (forall i, i <> client -> conn_of i s' = conn_of i s)
    /\ history s' = history s.
Proof.
  intros Hready Hfit Hone.
  destruct (send_later_spec client message s Hready Hfit Hone)
    as (s' & Hrun & _).
  pose proof (send_later_inv _ _ _ _ Hrun)
    as (Hh & _ & _ & _ & _ & Hothers & _ & _ & _ & Hblocks).
  exists s'. now split_and!.
Qed.

Lemma send_later_takes_blocks_from_pool_witness :
  exists s',
    send_later 1 (replicate 400 "x"%char) two_messages = Ok (tt, s')
    /\ free_blocks s' + Z.of_nat (length (queue 1 s'))
       = free_blocks two_messages + Z.of_nat (length (queue 1 two_messages))
    /\ (forall i, i <> 1 -> conn_of i s' = conn_of i two_messages)
    /\ history s' = history two_messages.
Proof.
  apply (send_later_takes_blocks_from_pool 1 (replicate 400 "x"%char)
           two_messages).
  - exact two_messages_ready.
  - vm_compute. discriminate.
  - vm_compute. discriminate.
Defined.

(** X3.  When the message is longer than the room left for the
    connection, [send_later] ends the process through [take_buffer]'s
    [die("Memory limit exceeded")]. *)
Theorem send_later_dies_without_room client message s :
  ready client s -> room client s < strlen message ->
  send_later client message s = Exit "Memory limit exceeded".
Proof. apply send_later_exhausts. Qed.

Lemma send_later_dies_without_room_witness :
  send_later 1 (replicate 3000 "x"%char) two_messages
  = Exit "Memory limit exceeded".
Proof.
  apply (send_later_dies_without_room 1 (replicate 3000 "x"%char) two_messages).
  - exact two_messages_ready.
  - vm_compute. reflexivity.
Defined.

(** X4.  [send_package] queues the message followed by CR LF. *)
Theorem send_package_appends_line client message s :
  ready client s -> strlen message + 2 <= room client s ->
  exists s',
    send_package client message s = Ok (tt, s')
    /\ queue_bytes client s' = queue_bytes client s ++ message ++ CRLF
    /\ room client s' = room client s - (strlen message + 2).
Proof.
  intros Hready Hfit.
  destruct (send_package_spec client message s Hready Hfit)
    as (s' & Hrun & _ & Hbytes & Hroom & _).
  exists s'. now split_and!.
Qed.

Lemma send_package_appends_line_witness :
  exists s',
    send_package 1 (str "hello") two_messages = Ok (tt, s')
    /\ queue_bytes 1 s' = queue_bytes 1 two_messages ++ str "hello" ++ CRLF
    /\ room 1 s' = room 1 two_messages - (strlen (str "hello") + 2).
Proof.
  apply (send_package_appends_line 1 (str "hello") two_messages).
  - exact two_messages_ready.
  - vm_compute. discriminate.
Defined.

(** ** Draining: [handle_output], [release_buffer] *)

(** X5.  When the socket takes every block whole, [handle_output] puts
    exactly the queued bytes on the wire, in order, hands every block
    of the queue back to the pool, leaves the queue empty and sets the
    socket to wait for [POLLIN]. *)
Theorem handle_output_drains client s conn sock answers rest :
  conn_of client s = Some conn -> sock_of client s = Some sock ->
  pending_to_be_sent conn <> [] ->
  Forall wf_block (pending_to_be_sent conn) ->
  send_tape (world s) = map Room answers ++ rest ->
  Forall2 (fun b n => used b <= n) (pending_to_be_sent conn) answers ->
  exists s',
    handle_output client s = Ok (tt, s')
    /\ queue client s' = []
    /\ wire_bytes (fd sock) (world s')
       = wire_bytes (fd sock) (world s) ++ queue_bytes client s
    /\ free_blocks s'
       = free_blocks s + Z.of_nat (length (queue client s))
    /\ events <$> sock_of client s' = Some POLLIN
    /\ send_tape (world s') = rest.
Proof.
  intros Hconn Hsock Hne Hwf Htape Hfit.
  assert (Hwf' : Forall (fun b => 0 <= used b <= Z.of_nat (length (data b)))
                   (pending_to_be_sent conn)).
  { eapply Forall_impl; [exact Hwf|]. intros b [Hl Hu]. simpl.
    rewrite Hl. rewrite Z2Nat.id by (rewrite sizeof_data_eq; lia). exact Hu. }
  unfold handle_output.
  erewrite bind_Ok by (unfold read_data; apply in_bounds_Some; exact Hconn).
  erewrite bind_Ok by (unfold read_socket; apply in_bounds_Some; exact Hsock).
  destruct (pending_to_be_sent conn) as [|b next] eqn:Hpend; [congruence|].
  erewrite bind_Ok
    by (apply (handle_output_loop_drains (fd sock) (b :: next) answers rest);
        assumption).
  cbv beta iota.
  set (s1 := set_world _ _).
  assert (Hconn1 : conn_of client s1 = Some conn) by exact Hconn.
  assert (Hsock1 : sock_of client s1 = Some sock) by exact Hsock.
  erewrite bind_Ok by (unfold read_data; apply in_bounds_Some; exact Hconn1).
  destruct (array_get_set _ _ _ (set_pending_to_be_sent [] conn) Hconn1)
    as [_ Hget].
  erewrite bind_Ok by (eapply write_data_Ok; exact Hconn1).
  set (s2 := set_connections _ s1).
  assert (Hsock2 : sock_of client s2 = Some sock) by exact Hsock.
  erewrite bind_Ok by (apply read_socket_Ok; exact Hsock2).
  destruct (array_get_set _ _ _ (set_events POLLIN sock) Hsock2) as [_ Hsget].
  erewrite write_socket_Ok by exact Hsock2.
  eexists. split; [reflexivity|].
  unfold queue, queue_bytes, queue, conn_of, sock_of, free_blocks in *.
  subst s2 s1.
  cbn [connections set_connections set_world set_first_free_buffer sockets
       set_conn_data set_sockets conn_data first_free_buffer world
       with_wire with_send_tape wire send_tape] in *.
  rewrite Hget, Hsget, Hconn, Hpend.
  cbn [pending_to_be_sent set_pending_to_be_sent].
  split_and!; try reflexivity.
  - erewrite wire_bytes_app; [| reflexivity |].
    + f_equal. unfold chain_bytes. rewrite map_map. reflexivity.
    + apply Forall_forall. intros p Hp. apply list_elem_of_In in Hp.
      apply in_map_iff in Hp as (b0 & <- & _). reflexivity.
  - rewrite length_app, length_rev. lia.
Qed.

Lemma handle_output_drains_witness :
  exists s',
    handle_output 1 reply_pending = Ok (tt, s')
    /\ queue 1 s' = []
    /\ wire_bytes 5 (world s')
       = wire_bytes 5 (world reply_pending) ++ queue_bytes 1 reply_pending
    /\ free_blocks s'
       = free_blocks reply_pending + Z.of_nat (length (queue 1 reply_pending))
    /\ events <$> sock_of 1 s' = Some POLLIN
    /\ send_tape (world s') = [].
Proof.
  apply (handle_output_drains 1 reply_pending
           (default zero_ConnectionData (conn_of 1 reply_pending))
           {| fd := 5; events := POLLOUT; revents := POLLIN |} [1000] []).
  - vm_compute. reflexivity.
  - vm_compute. reflexivity.
  - vm_compute. discriminate.
  - vm_compute. repeat constructor; discriminate.
  - vm_compute. reflexivity.
  - vm_compute. repeat constructor. discriminate.
Defined.

(** X6.  When the socket would block at the first write (EWOULDBLOCK
    or EAGAIN), [handle_output] returns with the queue, the pool, the
    wire and the socket's events as they were. *)
Theorem handle_output_would_block client s conn sock rest :
  conn_of client s = Some conn -> sock_of client s = Some sock ->
  pending_to_be_sent conn <> [] ->
  send_tape (world s) = WouldBlock :: rest ->
  exists s',
    handle_output client s = Ok (tt, s')
    /\ conn_of client s' = Some conn
    /\ sock_of client s' = Some sock
    /\ first_free_buffer s' = first_free_buffer s
    /\ wire (world s') = wire (world s)
    /\ send_tape (world s') = rest.
Proof.
  intros Hconn Hsock Hne Htape.
  unfold handle_output.
  erewrite bind_Ok by (unfold read_data; apply in_bounds_Some; exact Hconn).
  erewrite bind_Ok by (unfold read_socket; apply in_bounds_Some; exact Hsock).
  destruct (pending_to_be_sent conn) as [|b next] eqn:Hpend; [congruence|].
  assert (Hloop : handle_output_loop (fd sock) (b :: next) s
                  = Ok ((b :: next, false),
                        set_world (with_send_tape rest (world s)) s)).
  { cbn [handle_output_loop].
    assert (Hsend : send (fd sock) (take (Z.to_nat (used b)) (data b)) s
                    = Ok (inr true, set_world (with_send_tape rest (world s)) s)).
    { unfold send. now rewrite Htape. }
    run Hsend. reflexivity. }
  run Hloop. cbv beta iota.
  set (s1 := set_world _ s).
  assert (Hconn1 : conn_of client s1 = Some conn) by exact Hconn.
  erewrite bind_Ok by (unfold read_data; apply in_bounds_Some; exact Hconn1).
  destruct (array_get_set _ _ _ (set_pending_to_be_sent (b :: next) conn) Hconn1)
    as [_ Hget].
  erewrite bind_Ok by (eapply write_data_Ok; exact Hconn1).
  eexists. split; [reflexivity|].
  unfold conn_of, sock_of in *. subst s1.
  cbn [connections set_connections set_world sockets set_conn_data conn_data
       first_free_buffer world with_send_tape wire send_tape] in *.
  rewrite Hget. split_and!; try reflexivity; try assumption.
  f_equal. destruct conn. cbn in *. now rewrite Hpend.
Qed.

Lemma handle_output_would_block_witness :
  exists s',
    handle_output 1 reply_blocked = Ok (tt, s')
    /\ conn_of 1 s' = Some (default zero_ConnectionData (conn_of 1 reply_blocked))
    /\ sock_of 1 s' = Some {| fd := 5; events := POLLOUT; revents := POLLIN |}
    /\ first_free_buffer s' = first_free_buffer reply_blocked
    /\ wire (world s') = wire (world reply_blocked)
    /\ send_tape (world s') = [].
Proof.
  apply (handle_output_would_block 1 reply_blocked).
  - vm_compute. reflexivity.
  - vm_compute. reflexivity.
  - vm_compute. discriminate.
  - vm_compute. reflexivity.
Defined.

(** ** Matching packets *)

Lemma cstring_eqb_eq a : forall b, cstring_eqb a b = true <-> a = b.
Proof.
  induction a as [|x a IH]; intros [|y b]; simpl; split; try congruence;
    try discriminate.
  - intros H. apply andb_true_iff in H as [Hx Hab].
    apply Ascii.eqb_eq in Hx. apply IH in Hab. congruence.
  - intros H. injection H as -> ->. apply andb_true_iff. split.
    + apply Ascii.eqb_refl.
    + now apply IH.
Qed.

Lemma starts_with_prefix string start :
  starts_with string start = true <-> exists rest, string = start ++ rest.
Proof.
  unfold starts_with. rewrite cstring_eqb_eq. split.
  - intros H. exists (drop (length start) string).
    rewrite <- H at 1. symmetry. apply take_drop.
  - intros [rest ->]. apply take_app_length.
Qed.

(** ** What the handlers change *)

Lemma get_time_inv t s s' :
  get_time s = Ok (t, s') ->
  exists rest, clock (world s) = t :: rest
               /\ s' = set_world (with_clock rest (world s)) s.
Proof.
  unfold get_time. destruct (clock (world s)) as [|t0 rest]; [discriminate|].
  intros H. injection H as <- <-. now exists rest.
Qed.

Lemma add_to_history_inv n m s s' :
  add_to_history n m s = Ok (tt, s') ->
  connections s' = connections s
  /\ first_free_buffer s' = first_free_buffer s
  /\ exists now rest, clock (world s) = now :: rest
                      /\ world s' = with_clock rest (world s).
Proof.
  unfold add_to_history. intros H.
  apply bind_inv in H as (now & s1 & Htime & H).
  apply get_time_inv in Htime as (rest & Hclock & ->).
  apply bind_inv in H as (s0 & s1 & Hget & H). injection Hget as <- <-.
  apply bind_inv in H as (moved & s1 & H1 & H). apply in_bounds_inv in H1 as [_ ->].
  apply bind_inv in H as (n' & s1 & H1 & H). apply in_bounds_inv in H1 as [_ ->].
  apply bind_inv in H as (d' & s1 & H1 & H). apply in_bounds_inv in H1 as [_ ->].
  apply bind_inv in H as (st & s1 & H1 & H). apply in_bounds_inv in H1 as [_ ->].
  injection H as <-. split_and!; try reflexivity.
  now exists now, rest.
Qed.

(** A slot whose record changes outside its queue is as ready as
    before. *)
Lemma ready_update client s conn conn' :
  conn_of client s = Some conn ->
  pending_to_be_sent conn' = pending_to_be_sent conn ->
  let s' := set_connections
              (set_conn_data (<[Z.to_nat client := conn']> (conn_data (connections s)))
                 (connections s)) s in
  conn_of client s' = Some conn'
  /\ (ready client s -> ready client s')
  /\ room client s' = room client s
  /\ queue_bytes client s' = queue_bytes client s.
Proof.
  intros Hconn Hpend s'.
  destruct (array_get_set _ _ _ conn' Hconn) as [_ Hget].
  assert (Hc' : conn_of client s' = Some conn') by exact Hget.
  split; [exact Hc'|].
  unfold ready, room, queue_bytes, queue. rewrite Hc', Hconn, Hpend.
  split_and!; try reflexivity.
  intros (_ & Hsock & Hq & Hpool). split_and!; try assumption. now eexists.
Qed.

Lemma queued_for_nicks client s s' :
  queued_for client s s' ->
  map nick (conn_data (connections s')) = map nick (conn_data (connections s)).
Proof.
  intros (_ & _ & _ & Hlen & _ & Hothers & _ & (conn & q & Hc & Hc') & _).
  apply list_eq. intros j. rewrite !list_lookup_fmap.
  destruct (Z.eq_dec (Z.of_nat j) client) as [<-|Hne].
  - unfold conn_of, array_get in Hc, Hc'.
    replace (0 <=? Z.of_nat j) with true in * by (symmetry; apply Z.leb_le; lia).
    rewrite Nat2Z.id in *. now rewrite Hc, Hc'.
  - specialize (Hothers (Z.of_nat j) Hne). unfold conn_of, array_get in Hothers.
    replace (0 <=? Z.of_nat j) with true in * by (symmetry; apply Z.leb_le; lia).
    rewrite Nat2Z.id in *. now rewrite Hothers.
Qed.

(** ** The protocol handler: [process_new_package], [starts_with] *)

(** X7.  [starts_with] holds exactly of the strings that begin with
    the given characters. *)
Theorem starts_with_iff_prefix string start :
  starts_with string start = true <-> exists rest, string = start ++ rest.
Proof. apply starts_with_prefix. Qed.

(** X8.  A packet [my name is <nick>] with a nick of at most
    [MAX_NICK_LENGTH] bytes stores the nick in the connection, queues
    the line [ok] and returns 0; the history and the world do not
    change. *)
Theorem my_name_is_sets_nick client rest s conn :
  ready client s -> conn_of client s = Some conn ->
  strlen rest <= MAX_NICK_LENGTH ->
  strlen PACKAGE_OK + 2 <= room client s ->
  exists s',
    process_new_package client (PACKAGE_BEGIN_MY_NAME_IS ++ rest) s = Ok (0, s')
    /\ nick <$> conn_of client s' = Some rest
    /\ queue_bytes client s' = queue_bytes client s ++ PACKAGE_OK ++ CRLF
    /\ history s' = history s /\ world s' = world s.
Proof.
  intros Hready Hconn Hlen Hroom. unfold process_new_package.
  change (starts_with (PACKAGE_BEGIN_MY_NAME_IS ++ rest) PACKAGE_BEGIN_MY_NAME_IS)
    with true. cbv iota.
  change (drop (length PACKAGE_BEGIN_MY_NAME_IS) (PACKAGE_BEGIN_MY_NAME_IS ++ rest))
    with rest.
  replace (MAX_NICK_LENGTH <? strlen rest) with false
    by (symmetry; apply Z.ltb_ge; lia).
  assert (Hcpy : strcpy (MAX_NICK_LENGTH + 1) rest = Some rest).
  { unfold strcpy.
    replace (strlen rest + 1 <=? MAX_NICK_LENGTH + 1) with true
      by (symmetry; apply Z.leb_le; lia). reflexivity. }
  erewrite bind_Ok by (apply in_bounds_Some; exact Hcpy).
  erewrite bind_Ok by (apply read_data_Ok; exact Hconn).
  erewrite bind_Ok by (eapply write_data_Ok; exact Hconn).
  destruct (ready_update client s conn (set_nick rest conn) Hconn eq_refl)
    as (Hconn1 & Hready1 & Hroom1 & Hbytes1).
  set (s1 := set_connections _ s) in *.
  destruct (send_package_spec client PACKAGE_OK s1 (Hready1 Hready))
    as (s' & Hrun & _ & Hbytes & _ & _); [rewrite Hroom1; exact Hroom|].
  run Hrun.
  pose proof (send_package_inv _ _ _ _ Hrun)
    as (Hh & Hw & _ & _ & _ & _ & _ & (c & q & Hc & Hc') & _).
  rewrite Hconn1 in Hc. injection Hc as <-.
  exists s'. split; [reflexivity|]. split_and!.
  - now rewrite Hc'.
  - now rewrite Hbytes, Hbytes1.
  - exact Hh.
  - exact Hw.
Qed.

Lemma my_name_is_sets_nick_witness :
  exists s',
    process_new_package 1 (PACKAGE_BEGIN_MY_NAME_IS ++ str "alice") two_messages
    = Ok (0, s')
    /\ nick <$> conn_of 1 s' = Some (str "alice")
    /\ queue_bytes 1 s' = queue_bytes 1 two_messages ++ PACKAGE_OK ++ CRLF
    /\ history s' = history two_messages /\ world s' = world two_messages.
Proof.
  apply (my_name_is_sets_nick 1 (str "alice") two_messages two_messages_conn).
  - exact two_messages_ready.
  - vm_compute. reflexivity.
  - vm_compute. discriminate.
  - vm_compute. discriminate.
Defined.

(** X9.  A packet [send <message>] with a message of at most
    [MAX_MESSAGE_LENGTH] bytes, received while the history has fewer
    than [MAX_HISTORY_LENGTH] entries, the clock can be read and the
    free blocks and the rest of the connection's last block have room
    for the four bytes of [ok] CR LF, puts the message in front of the
    history under the connection's current nick (of at most
    [MAX_NICK_LENGTH] bytes) and the time read from the clock, queues
    the line [ok] and returns 0. *)
Theorem send_posts_message client rest s conn now later :
  ready client s -> conn_of client s = Some conn ->
  strlen (nick conn) <= MAX_NICK_LENGTH ->
  strlen rest <= MAX_MESSAGE_LENGTH ->
  wf_history (history s) ->
  hist_length (history s) < MAX_HISTORY_LENGTH ->
  clock (world s) = now :: later ->
  strlen PACKAGE_OK + 2 <= room client s ->
  exists s',
    process_new_package client (PACKAGE_BEGIN_SEND ++ rest) s = Ok (0, s')
    /\ entries (history s')
       = {| msg_nick := nick conn; msg_data := rest; msg_time := now |}
         :: entries (history s)
    /\ queue_bytes client s' = queue_bytes client s ++ PACKAGE_OK ++ CRLF
    /\ clock (world s') = later.
Proof.
  intros Hready Hconn Hnick Hlen Hwf Hbelow Hclock Hroom.
  unfold process_new_package.
  change (starts_with (PACKAGE_BEGIN_SEND ++ rest) PACKAGE_BEGIN_MY_NAME_IS)
    with false.
  change (strcmp_eq (PACKAGE_BEGIN_SEND ++ rest) PACKAGE_FOLKS) with false.
  change (starts_with (PACKAGE_BEGIN_SEND ++ rest) PACKAGE_BEGIN_SEND) with true.
  cbv iota.
  change (drop (length PACKAGE_BEGIN_SEND) (PACKAGE_BEGIN_SEND ++ rest)) with rest.
  replace (MAX_MESSAGE_LENGTH <? strlen rest) with false
    by (symmetry; apply Z.ltb_ge; lia).
  erewrite bind_Ok by (apply read_data_Ok; exact Hconn).
  destruct (add_to_history_below_capacity (nick conn) rest s now later
              Hclock Hwf Hbelow Hnick Hlen) as (s1 & Hadd & Hentries & _).
  run Hadd.
  pose proof (add_to_history_inv _ _ _ _ Hadd)
    as (Hconns & Hfree & now' & rest' & Hclock' & Hworld).
  rewrite Hclock in Hclock'. injection Hclock' as <- <-.
  assert (Hready1 : ready client s1).
  { destruct Hready as (Hc & Hs & Hq & Hp).
    unfold ready, conn_of, queue, conn_of, wf_pool in *.
    rewrite Hconns, Hfree. now split_and!. }
  assert (Hroom1 : room client s1 = room client s).
  { unfold room, queue, conn_of, free_blocks. now rewrite Hconns, Hfree. }
  assert (Hbytes1 : queue_bytes client s1 = queue_bytes client s).
  { unfold queue_bytes, queue, conn_of. now rewrite Hconns. }
  destruct (send_package_spec client PACKAGE_OK s1 Hready1)
    as (s' & Hrun & _ & Hbytes & _ & (Hh & Hw & _)); [rewrite Hroom1; exact Hroom|].
  run Hrun. exists s'. split; [reflexivity|]. split_and!.
  - now rewrite Hh.
  - now rewrite Hbytes, Hbytes1.
  - now rewrite Hw, Hworld.
Qed.

Lemma send_posts_message_witness :
  exists s',
    process_new_package 1 (PACKAGE_BEGIN_SEND ++ str "hi") two_messages
    = Ok (0, s')
    /\ entries (history s')
       = {| msg_nick := nick two_messages_conn; msg_data := str "hi";
            msg_time := at_second 400 |}
         :: entries (history two_messages)
    /\ queue_bytes 1 s' = queue_bytes 1 two_messages ++ PACKAGE_OK ++ CRLF
    /\ clock (world s') = [].
Proof.
  apply (send_posts_message 1 (str "hi") two_messages two_messages_conn
           (at_second 400) []).
  - exact two_messages_ready.
  - vm_compute. reflexivity.
  - vm_compute. discriminate.
  - vm_compute. discriminate.
  - split; vm_compute; [reflexivity | split; discriminate].
  - vm_compute. reflexivity.
  - vm_compute. reflexivity.
  - vm_compute. discriminate.
Defined.

(** X10.  A packet that is none of [my name is ...], [folks],
    [send ...] and [new] closes the client's socket and returns -1;
    nothing else changes and nothing is queued. *)
Theorem unknown_packet_closes_socket client package s sock :
  sock_of client s = Some sock ->
  (forall rest, package <> PACKAGE_BEGIN_MY_NAME_IS ++ rest) ->
  package <> PACKAGE_FOLKS ->
  (forall rest, package <> PACKAGE_BEGIN_SEND ++ rest) ->
  package <> PACKAGE_NEW ->
  process_new_package client package s
  = Ok (-1, set_world
              (with_closed_fds (fd sock :: closed_fds (world s)) (world s)) s).
Proof.
  intros Hsock Hname Hfolks Hsend Hnew. unfold process_new_package.
  destruct (starts_with package PACKAGE_BEGIN_MY_NAME_IS) eqn:H1.
  { apply starts_with_prefix in H1 as [rest ->]. now destruct (Hname rest). }
  destruct (strcmp_eq package PACKAGE_FOLKS) eqn:H2.
  { apply cstring_eqb_eq in H2. contradiction. }
  destruct (starts_with package PACKAGE_BEGIN_SEND) eqn:H3.
  { apply starts_with_prefix in H3 as [rest ->]. now destruct (Hsend rest). }
  destruct (strcmp_eq package PACKAGE_NEW) eqn:H4.
  { apply cstring_eqb_eq in H4. contradiction. }
  unfold close_connection.
  erewrite bind_Ok by (apply read_socket_Ok; exact Hsock).
  reflexivity.
Qed.

Lemma unknown_packet_closes_socket_witness :
  process_new_package 1 (str "garble") two_messages
  = Ok (-1, set_world
              (with_closed_fds (5 :: closed_fds (world two_messages))
                 (world two_messages)) two_messages).
Proof.
  apply (unknown_packet_closes_socket 1 (str "garble") two_messages
           {| fd := 5; events := POLLOUT; revents := POLLIN |}).
  - vm_compute. reflexivity.
  - intros rest H. vm_compute in H. discriminate H.
  - intros H. vm_compute in H. discriminate H.
  - intros rest H. vm_compute in H. discriminate H.
  - intros H. vm_compute in H. discriminate H.
Defined.

(** ** [folks] *)

Lemma peer_count_fits (n : nat) :
  (n < Z.to_nat MAX_CONNECTIONS)%nat ->
  strlen (fmt_d (Z.of_nat n)) + 1 <= MAX_PACKAGE_LENGTH.
Proof.
  intros Hn. apply Z.leb_le.
  apply (forallb_upto
           (fun k => strlen (fmt_d (Z.of_nat k)) + 1 <=? MAX_PACKAGE_LENGTH)
           (Z.to_nat MAX_CONNECTIONS)); [vm_compute; reflexivity | lia].
Qed.

Lemma folks_loop_spec client (n : Z) : forall (k : nat) i s fuel,
  conn_length (connections s) = n ->
  Z.of_nat k = n - i -> 0 <= i ->
  (Z.to_nat n <= length (conn_data (connections s)))%nat ->
  (k <= fuel)%nat ->
  ready client s ->
  let lines :=
    concat (map (fun x => x ++ CRLF)
              (drop (Z.to_nat i)
                 (take (Z.to_nat n) (map nick (conn_data (connections s)))))) in
  strlen lines <= room client s ->
  exists s',
    folks_loop fuel client i s = Ok (tt, s')
    /\ queue_bytes client s' = queue_bytes client s ++ lines.
Proof.
  induction k as [|k IH]; intros i s fuel Hn Hk Hi Hcap Hfuel Hready lines Hfit.
  - exists s. assert (i = n) as -> by lia.
    assert (Hlines : lines = []).
    { unfold lines. rewrite drop_ge; [reflexivity|]. rewrite length_take. lia. }
    rewrite Hlines, app_nil_r. split; [|reflexivity].
    destruct fuel; cbn [folks_loop]; erewrite bind_Ok by reflexivity;
      rewrite Hn, Z.ltb_irrefl; reflexivity.
  - destruct fuel as [|fuel]; [lia|].
    cbn [folks_loop]. erewrite bind_Ok by reflexivity.
    rewrite Hn. replace (i <? n) with true by (symmetry; apply Z.ltb_lt; lia).
    destruct (lookup_lt_is_Some_2 (conn_data (connections s)) (Z.to_nat i)
                ltac:(lia)) as [c Hc].
    assert (Hci : conn_of i s = Some c).
    { unfold conn_of, array_get.
      replace (0 <=? i) with true by (symmetry; apply Z.leb_le; lia). exact Hc. }
    erewrite bind_Ok by (apply read_data_Ok; exact Hci).
    assert (Hsplit : drop (Z.to_nat i)
                       (take (Z.to_nat n) (map nick (conn_data (connections s))))
                     = nick c
                       :: drop (Z.to_nat (i + 1))
                            (take (Z.to_nat n)
                               (map nick (conn_data (connections s))))).
    { replace (Z.to_nat (i + 1)) with (S (Z.to_nat i)) by lia.
      apply drop_S. rewrite lookup_take_lt by lia.
      rewrite list_lookup_fmap, Hc. reflexivity. }
    unfold lines in *. rewrite Hsplit in *. cbn [map concat] in *.
    rewrite !strlen_app in Hfit. change (strlen CRLF) with 2 in Hfit.
    pose proof (strlen_nonneg
      (concat (map (fun x => x ++ CRLF)
         (drop (Z.to_nat (i + 1))
            (take (Z.to_nat n) (map nick (conn_data (connections s)))))))).
    destruct (send_package_spec client (nick c) s Hready)
      as (s1 & Hrun & Hready1 & Hbytes1 & Hroom1 & _); [lia|].
    run Hrun.
    pose proof (send_package_inv _ _ _ _ Hrun) as Hq.
    pose proof (queued_for_nicks _ _ _ Hq) as Hnicks.
    destruct Hq as (_ & _ & Hn1 & Hlen1 & _).
    assert (Hn' : conn_length (connections s1) = n) by congruence.
    assert (Hcap' : (Z.to_nat n <= length (conn_data (connections s1)))%nat)
      by (rewrite Hlen1; exact Hcap).
    destruct (IH (i + 1) s1 fuel Hn' ltac:(lia) ltac:(lia) Hcap' ltac:(lia)
                Hready1) as (s' & Hrun' & Hbytes').
    { rewrite Hnicks, Hroom1. lia. }
    exists s'. split; [exact Hrun'|].
    rewrite Hbytes', Hbytes1, Hnicks. now rewrite <- !app_assoc.
Qed.

(** X11.  When the free blocks and the rest of the connection's last
    block have room for the whole reply, [folks] answers with the number
    of slots after the listener's, [connections.length - 1], and then
    the nick of every one of these slots in table order, the requesting
    client's own included; the count is the number of nicks listed. *)
Theorem folks_lists_every_peer client s :
  ready client s ->
  1 <= conn_length (connections s) <= MAX_CONNECTIONS ->
  (Z.to_nat (conn_length (connections s))
   <= length (conn_data (connections s)))%nat ->
  strlen (folks_reply s) <= room client s ->
  exists s',
    process_new_package client PACKAGE_FOLKS s = Ok (0, s')
    /\ queue_bytes client s' = queue_bytes client s ++ folks_reply s
    /\ conn_length (connections s) - 1 = Z.of_nat (length (peer_nicks s)).
Proof.
  intros Hready Hn Hcap Hfit. unfold folks_reply, peer_nicks in *.
  set (n := conn_length (connections s)) in *.
  rewrite !strlen_app in Hfit. change (strlen CRLF) with 2 in Hfit.
  pose proof (strlen_nonneg
    (concat (map (fun x => x ++ CRLF)
       (drop 1 (take (Z.to_nat n) (map nick (conn_data (connections s)))))))).
  unfold process_new_package.
  change (starts_with PACKAGE_FOLKS PACKAGE_BEGIN_MY_NAME_IS) with false.
  change (strcmp_eq PACKAGE_FOLKS PACKAGE_FOLKS) with true. cbv iota.
  erewrite bind_Ok by reflexivity. fold n.
  assert (Hcount : strlen (fmt_d (n - 1)) + 1 <= MAX_PACKAGE_LENGTH).
  { replace (n - 1) with (Z.of_nat (Z.to_nat (n - 1))) by lia.
    apply peer_count_fits.
    change (Z.to_nat MAX_CONNECTIONS) with 1024%nat.
    change MAX_CONNECTIONS with 1024 in Hn. lia. }
  erewrite bind_Ok by (apply sprintf_outgoing_fits; exact Hcount).
  destruct (send_package_spec client (fmt_d (n - 1)) s Hready)
    as (s1 & Hrun & Hready1 & Hbytes1 & Hroom1 & _); [lia|].
  run Hrun.
  pose proof (send_package_inv _ _ _ _ Hrun) as Hq.
  pose proof (queued_for_nicks _ _ _ Hq) as Hnicks.
  destruct Hq as (_ & _ & Hn1 & Hlen1 & _).
  assert (Hn' : conn_length (connections s1) = n) by exact Hn1.
  assert (Hcap' : (Z.to_nat n <= length (conn_data (connections s1)))%nat)
    by (rewrite Hlen1; exact Hcap).
  destruct (folks_loop_spec client n (Z.to_nat (n - 1)) 1 s1 (Z.to_nat n)
              Hn' ltac:(lia) ltac:(lia) Hcap' ltac:(lia) Hready1)
    as (s' & Hrun' & Hbytes').
  { change (Z.to_nat 1) with 1%nat. rewrite Hnicks, Hroom1. lia. }
  run Hrun'. exists s'. split; [reflexivity|]. split.
  - rewrite Hbytes', Hbytes1, Hnicks. change (Z.to_nat 1) with 1%nat.
    now rewrite <- !app_assoc.
  - rewrite length_drop, length_take, length_map. lia.
Qed.

Lemma folks_lists_every_peer_witness :
  exists s',
    process_new_package 2 PACKAGE_FOLKS two_clients = Ok (0, s')
    /\ queue_bytes 2 s'
       = queue_bytes 2 two_clients ++ folks_reply two_clients
    /\ conn_length (connections two_clients) - 1
       = Z.of_nat (length (peer_nicks two_clients)).
Proof.
  apply (folks_lists_every_peer 2 two_clients).
  - unfold ready. split_and!.
    + vm_compute. eexists. reflexivity.
    + vm_compute. eexists. reflexivity.
    + vm_compute. repeat constructor; discriminate.
    + unfold wf_pool. vm_compute. repeat constructor.
  - split; vm_compute; discriminate.
  - apply Nat.leb_le. vm_compute. reflexivity.
  - vm_compute. discriminate.
Defined.

(** The reply to [folks] of the second of two clients. *)
Lemma two_clients_folks_reply :
  folks_reply two_clients = packet "2" ++ packet "anonym" ++ packet "bob".
Proof. vm_compute. reflexivity. Qed.

(** ** Start-up: [init], [prepare_server] *)


(** ** Timestamps: [older] *)

(** X13.  [older] is a strict total order on timestamps: nothing is
    older than itself, it is transitive, and of two different
    timestamps one is older than the other. *)
Theorem older_is_strict_total_order a b c :
  older a a = false
  /\ (older a b = true -> older b c = true -> older a c = true)
  /\ (older a b = false -> older b a = false -> a = b).
Proof.
  split_and!.
  - apply older_false. lia.
  - rewrite !older_true. lia.
  - rewrite !older_false. destruct a, b; simpl. intros H1 H2. f_equal; lia.
Qed.

(** ** Formatting: the [sprintf] of a history line *)

(** X14.  For a time of day (fields below 100) a history line has
    exactly 13 characters besides the nick and the message. *)
Theorem history_line_length t nick message :
  0 <= tm_hour t < 100 -> 0 <= tm_min t < 100 -> 0 <= tm_sec t < 100 ->
  strlen (format_line t nick message) = 13 + strlen nick + strlen message.
Proof. apply format_line_length. Qed.

Lemma history_line_length_witness :
  strlen (format_line {| tm_hour := 3; tm_min := 14; tm_sec := 48 |}
            (str "nick2") (str "message1"))
  = 13 + strlen (str "nick2") + strlen (str "message1").
Proof.
  apply (history_line_length {| tm_hour := 3; tm_min := 14; tm_sec := 48 |}
           (str "nick2") (str "message1"));
    simpl; lia.
Defined.

(** ** Accepting: [accept_new_client] *)

(** X15.  With a free slot behind the table, [accept_new_client] puts
    the new descriptor there, waiting for [POLLIN], with a zeroed
    record whose nick is [anonym] and whose cursor is the time read from
    the clock, and lengthens the table by one; the other slots, the
    pool and the history stay as they are. *)
Theorem accept_appends_slot s d tape now later stale old :
  accept_tape (world s) = d :: tape -> 0 <= d ->
  clock (world s) = now :: later ->
  conn_of (conn_length (connections s)) s = Some stale ->
  sock_of (conn_length (connections s)) s = Some old ->
  exists s',
    accept_new_client s = Ok (tt, s')
    /\ conn_length (connections s') = conn_length (connections s) + 1
    /\ conn_of (conn_length (connections s)) s'
       = Some (fresh_ConnectionData now)
    /\ sock_of (conn_length (connections s)) s'
       = Some {| fd := d; events := POLLIN; revents := revents old |}
    /\ (forall i, i <> conn_length (connections s) ->
          conn_of i s' = conn_of i s /\ sock_of i s' = sock_of i s)
    /\ first_free_buffer s' = first_free_buffer s
    /\ history s' = history s
    /\ clock (world s') = later.
Proof.
  intros Htape Hd Hclock Hconn Hsock.
  set (n := conn_length (connections s)) in *.
  pose proof (array_get_nonneg _ _ _ Hconn) as Hn.
  unfold accept_new_client.
  assert (Hacc : accept s = Ok (d, set_world (with_accept_tape tape (world s)) s)).
  { unfold accept. now rewrite Htape. }
  run Hacc.
  replace (d <? 0) with false by (symmetry; apply Z.ltb_ge; lia).
  erewrite bind_Ok by reflexivity.
  cbn [connections set_world]. fold n.
  set (s1 := set_world _ s).
  erewrite bind_Ok by (apply read_socket_Ok; exact Hsock).
  erewrite bind_Ok by (eapply write_socket_Ok; exact Hsock).
  set (s2 := set_connections _ s1).
  assert (Hc2 : conn_of n s2 = Some stale) by exact Hconn.
  erewrite bind_Ok by (eapply write_data_Ok; exact Hc2).
  set (s3 := set_connections _ s2).
  erewrite bind_Ok by (apply in_bounds_Some; reflexivity).
  destruct (array_get_set _ _ _ zero_ConnectionData Hc2) as [_ Hc3].
  erewrite bind_Ok by (apply read_data_Ok; exact Hc3).
  erewrite bind_Ok by (eapply write_data_Ok; exact Hc3).
  set (s4 := set_connections _ s3).
  assert (Htime : get_time s4 = Ok (now, set_world (with_clock later (world s4)) s4)).
  { unfold get_time. subst s4 s3 s2 s1. cbn [world set_connections set_world
      with_accept_tape clock]. now rewrite Hclock. }
  run Htime.
  set (s5 := set_world _ s4).
  destruct (array_get_set _ _ _ (set_nick (str "anonym") zero_ConnectionData) Hc3)
    as [_ Hc4].
  assert (Hc5 : conn_of n s5 = Some (set_nick (str "anonym") zero_ConnectionData))
    by exact Hc4.
  erewrite bind_Ok by (apply read_data_Ok; exact Hc5).
  erewrite bind_Ok by (eapply write_data_Ok; exact Hc5).
  destruct (array_get_set _ _ _
              (set_last_received_message now
                 (set_nick (str "anonym") zero_ConnectionData)) Hc5)
    as [_ Hc6].
  destruct (array_get_set _ _ _
              {| fd := d; events := POLLIN; revents := revents old |} Hsock)
    as [_ Hs2].
  eexists. split; [reflexivity|].
  unfold conn_of, sock_of in *. subst s5 s4 s3 s2 s1.
  cbn [connections set_connections set_world sockets set_conn_data set_sockets
       set_conn_length conn_data conn_length first_free_buffer history world
       with_clock with_accept_tape clock modify] in *.
  fold n. split_and!; try reflexivity.
  - exact Hc6.
  - exact Hs2.
  - intros i Hi. split.
    + rewrite !array_get_insert_ne by assumption. reflexivity.
    + rewrite !array_get_insert_ne by assumption. reflexivity.
Qed.

Lemma accept_appends_slot_witness :
  exists s',
    accept_new_client listening = Ok (tt, s')
    /\ conn_length (connections s') = conn_length (connections listening) + 1
    /\ conn_of (conn_length (connections listening)) s'
       = Some (fresh_ConnectionData (at_second 100))
    /\ sock_of (conn_length (connections listening)) s'
       = Some {| fd := 5; events := POLLIN; revents := revents zero_pollfd |}
    /\ (forall i, i <> conn_length (connections listening) ->
          conn_of i s' = conn_of i listening /\ sock_of i s' = sock_of i listening)
    /\ first_free_buffer s' = first_free_buffer listening
    /\ history s' = history listening
    /\ clock (world s') = [].
Proof.
  apply (accept_appends_slot listening 5 [] (at_second 100) []
           zero_ConnectionData zero_pollfd).
  - vm_compute. reflexivity.
  - lia.
  - vm_compute. reflexivity.
  - vm_compute. reflexivity.
  - vm_compute. reflexivity.
Defined.

(** ** End of input: [handle_input] *)

(** X16.  When [recv] reports the end of the stream or an error,
    [handle_input] marks the slot closed and does nothing else: no
    descriptor is closed, nothing is queued and the input buffer is left
    as it was. *)
Theorem handle_input_marks_closed client s conn sock answer rest :
  conn_of client s = Some conn -> sock_of client s = Some sock ->
  recv_tape (world s) = answer :: rest ->
  answer = PeerClosed \/ answer = RecvFailed ->
  exists s',
    handle_input client s = Ok (tt, s')
    /\ conn_of client s' = Some (set_closed true conn)
    /\ (forall i, i <> client -> conn_of i s' = conn_of i s)
    /\ sockets (connections s') = sockets (connections s)
    /\ closed_fds (world s') = closed_fds (world s)
    /\ first_free_buffer s' = first_free_buffer s
    /\ history s' = history s.
Proof.
  intros Hconn Hsock Htape Hanswer. unfold handle_input.
  pose proof (array_get_nonneg _ _ _ Hconn) as Hc.
  erewrite bind_Ok by (apply read_socket_Ok; exact Hsock).
  erewrite bind_Ok by (apply read_data_Ok; exact Hconn).
  set (s1 := set_world (with_recv_tape rest (world s)) s).
  assert (Hrecv : exists r,
            recv (size_t (sizeof_data - used (input_buffer conn) - 1)) s
            = Ok ((r, []), s1) /\ (r = 0 \/ r = -1)).
  { unfold recv. rewrite Htape. destruct Hanswer as [-> | ->].
    - exists 0. split; [reflexivity | now left].
    - exists (-1). split; [reflexivity | now right]. }
  destruct Hrecv as (r & Hrecv & Hr).
  run Hrecv. cbv beta iota.
  assert (Hmark : mark_closed client s1
                  = Ok (tt, set_connections
                              (set_conn_data
                                 (<[Z.to_nat client := set_closed true conn]>
                                    (conn_data (connections s1)))
                                 (connections s1)) s1)).
  { unfold mark_closed.
    erewrite bind_Ok by (apply read_data_Ok; exact Hconn).
    eapply write_data_Ok. exact Hconn. }
  assert (Hrun : forall k : M unit,
            (if r =? 0 then mark_closed client
             else if r =? -1 then mark_closed client else k) s1
            = mark_closed client s1).
  { intros k. destruct Hr as [-> | ->]; reflexivity. }
  rewrite Hrun, Hmark.
  destruct (array_get_set _ _ _ (set_closed true conn) Hconn) as [_ Hget].
  eexists. split; [reflexivity|].
  unfold conn_of. subst s1.
  cbn [connections set_connections set_world sockets set_conn_data conn_data
       first_free_buffer history world with_recv_tape closed_fds].
  split_and!; try reflexivity.
  - exact Hget.
  - intros i Hi. now apply array_get_insert_ne.
Qed.

Lemma handle_input_marks_closed_witness :
  exists s',
    handle_input 1 hung_up = Ok (tt, s')
    /\ conn_of 1 s' = Some (set_closed true (fresh_ConnectionData (at_second 100)))
    /\ (forall i, i <> 1 -> conn_of i s' = conn_of i hung_up)
    /\ sockets (connections s') = sockets (connections hung_up)
    /\ closed_fds (world s') = closed_fds (world hung_up)
    /\ first_free_buffer s' = first_free_buffer hung_up
    /\ history s' = history hung_up.
Proof.
  apply (handle_input_marks_closed 1 hung_up
           (fresh_ConnectionData (at_second 100))
           {| fd := 5; events := POLLIN; revents := 0 |} PeerClosed []).
  - vm_compute. reflexivity.
  - vm_compute. reflexivity.
  - vm_compute. reflexivity.
  - now left.
Defined.

(** ** Compaction: [clean_closed_sockets] *)

Lemma combine_snoc {A B} (l1 : list A) : forall (l2 : list B) a b,
  length l1 = length l2 ->
  combine (l1 ++ [a]) (l2 ++ [b]) = combine l1 l2 ++ [(a, b)].
Proof.
  induction l1 as [|x l1 IH]; intros [|y l2] a b Hlen; simpl in *;
    try discriminate; [reflexivity|].
  f_equal. apply IH. lia.
Qed.

Lemma take_snoc_insert {A} (l : list A) d x :
  (d < length l)%nat -> take (S d) (<[d:=x]> l) = take d l ++ [x].
Proof.
  intros Hd. rewrite (take_S_r _ _ x) by (now apply list_lookup_insert_eq).
  now rewrite take_insert_ge by lia.
Qed.

Lemma drop_lookup_head {A} (l l0 : list A) i :
  drop i l = drop i l0 -> l !! i = l0 !! i.
Proof.
  intros H.
  assert (H0 : drop i l !! 0%nat = drop i l0 !! 0%nat) by (now rewrite H).
  rewrite !lookup_drop, Nat.add_0_r in H0. exact H0.
Qed.

Lemma drop_S_eq {A} (l l0 : list A) i :
  drop i l = drop i l0 -> drop (S i) l = drop (S i) l0.
Proof.
  intros H. replace (S i) with (i + 1)%nat by lia.
  rewrite <- !drop_drop. now rewrite H.
Qed.

Lemma clean_closed_sockets_loop_spec data0 socks0 (n : nat) :
  (n <= length data0)%nat -> (n <= length socks0)%nat ->
  forall (k si d : nat) st fuel,
  conn_length (connections st) = Z.of_nat n ->
  length (conn_data (connections st)) = length data0 ->
  length (sockets (connections st)) = length socks0 ->
  (si + k = n)%nat -> (d <= si)%nat -> (k <= fuel)%nat ->
  let kept := List.filter open_slot (combine (take si data0) (take si socks0)) in
  d = length kept ->
  take d (conn_data (connections st)) = map fst kept ->
  take d (sockets (connections st)) = map snd kept ->
  drop si (conn_data (connections st)) = drop si data0 ->
  drop si (sockets (connections st)) = drop si socks0 ->
  exists st',
    let kept' := List.filter open_slot (combine (take n data0) (take n socks0)) in
    clean_closed_sockets_loop fuel (Z.of_nat si) (Z.of_nat d) st
    = Ok (Z.of_nat (length kept'), st')
    /\ take (length kept') (conn_data (connections st')) = map fst kept'
    /\ take (length kept') (sockets (connections st')) = map snd kept'
    /\ conn_length (connections st') = Z.of_nat n
    /\ first_free_buffer st' = first_free_buffer st
    /\ history st' = history st /\ world st' = world st.
Proof.
  intros Hn1 Hn2.
  induction k as [|k IH];
    intros si d st fuel Hlen Hl1 Hl2 Hsum Hd Hfuel kept Hdk Ht1 Ht2 Hd1 Hd2.
  - assert (si = n) as -> by lia. exists st. cbv zeta. fold kept.
    split.
    { destruct fuel; cbn [clean_closed_sockets_loop];
        erewrite bind_Ok by reflexivity; rewrite Hlen, Z.ltb_irrefl, Hdk;
        reflexivity. }
    rewrite <- Hdk. now split_and!.
  - destruct fuel as [|fuel]; [lia|].
    cbn [clean_closed_sockets_loop]. erewrite bind_Ok by reflexivity.
    rewrite Hlen.
    replace (Z.of_nat si <? Z.of_nat n) with true by (symmetry; apply Z.ltb_lt; lia).
    destruct (lookup_lt_is_Some_2 data0 si ltac:(lia)) as [c Hc0].
    destruct (lookup_lt_is_Some_2 socks0 si ltac:(lia)) as [p Hp0].
    assert (Hc : conn_of (Z.of_nat si) st = Some c).
    { unfold conn_of, array_get.
      replace (0 <=? Z.of_nat si) with true by (symmetry; apply Z.leb_le; lia).
      rewrite Nat2Z.id. rewrite (drop_lookup_head _ _ _ Hd1). exact Hc0. }
    assert (Hp : sock_of (Z.of_nat si) st = Some p).
    { unfold sock_of, array_get.
      replace (0 <=? Z.of_nat si) with true by (symmetry; apply Z.leb_le; lia).
      rewrite Nat2Z.id. rewrite (drop_lookup_head _ _ _ Hd2). exact Hp0. }
    erewrite bind_Ok by (apply read_data_Ok; exact Hc).
    assert (Hkept : List.filter open_slot
                      (combine (take (S si) data0) (take (S si) socks0))
                    = kept ++ (if closed c then [] else [(c, p)])).
    { rewrite (take_S_r _ _ _ Hc0), (take_S_r _ _ _ Hp0).
      rewrite combine_snoc by (rewrite !length_take; lia).
      rewrite List.filter_app. cbn [List.filter open_slot fst].
      unfold open_slot at 2. cbn [fst]. now destruct (closed c). }
    replace (Z.of_nat si + 1) with (Z.of_nat (S si)) by lia.
    destruct (closed c) eqn:Hclosed.
    + rewrite app_nil_r in Hkept.
      destruct (IH (S si) d st fuel) as (st' & Hrun & Hrest); try assumption;
        try lia.
      * rewrite Hkept. exact Hdk.
      * rewrite Hkept. exact Ht1.
      * rewrite Hkept. exact Ht2.
      * now apply drop_S_eq.
      * now apply drop_S_eq.
      * exists st'. split; [exact Hrun | exact Hrest].
    + erewrite bind_Ok by (apply read_socket_Ok; exact Hp).
      assert (Hdlt1 : (d < length (conn_data (connections st)))%nat) by lia.
      assert (Hdlt2 : (d < length (sockets (connections st)))%nat) by lia.
      destruct (lookup_lt_is_Some_2 _ d Hdlt1) as [cd Hcd].
      destruct (lookup_lt_is_Some_2 _ d Hdlt2) as [pd Hpd].
      assert (Hsd : sock_of (Z.of_nat d) st = Some pd).
      { unfold sock_of, array_get.
        replace (0 <=? Z.of_nat d) with true by (symmetry; apply Z.leb_le; lia).
        now rewrite Nat2Z.id. }
      erewrite bind_Ok by (eapply write_socket_Ok; exact Hsd).
      set (st1 := set_connections _ st).
      assert (Hcd1 : conn_of (Z.of_nat d) st1 = Some cd).
      { unfold conn_of, array_get.
        replace (0 <=? Z.of_nat d) with true by (symmetry; apply Z.leb_le; lia).
        now rewrite Nat2Z.id. }
      erewrite bind_Ok by (eapply write_data_Ok; exact Hcd1).
      set (st2 := set_connections _ st1).
      replace (Z.of_nat d + 1) with (Z.of_nat (S d)) by lia.
      destruct (IH (S si) (S d) st2 fuel) as (st' & Hrun & Hrest);
        subst st2 st1;
        cbn [connections set_connections sockets set_conn_data set_sockets
             conn_data conn_length first_free_buffer history world];
        rewrite ?Nat2Z.id, ?length_insert; try assumption; try lia.
      * rewrite Hkept, length_app. simpl. lia.
      * rewrite Hkept, map_app. cbn [map fst].
        rewrite take_snoc_insert by lia. now rewrite Ht1.
      * rewrite Hkept, map_app. cbn [map snd].
        rewrite take_snoc_insert by lia. now rewrite Ht2.
      * rewrite drop_insert_lt by lia. now apply drop_S_eq.
      * rewrite drop_insert_lt by lia. now apply drop_S_eq.
      * rewrite ?Nat2Z.id in Hrun. exists st'. split; [exact Hrun | exact Hrest].
Qed.

Lemma clean_closed_sockets_spec s :
  0 <= conn_length (connections s) ->
  (Z.to_nat (conn_length (connections s))
   <= length (conn_data (connections s)))%nat ->
  (Z.to_nat (conn_length (connections s))
   <= length (sockets (connections s)))%nat ->
  exists s',
    clean_closed_sockets s = Ok (tt, s')
    /\ table s' = open_slots s
    /\ conn_length (connections s') = Z.of_nat (length (open_slots s))
    /\ first_free_buffer s' = first_free_buffer s
    /\ history s' = history s /\ world s' = world s.
Proof.
  intros Hn Hl1 Hl2. unfold clean_closed_sockets.
  erewrite bind_Ok by reflexivity.
  destruct (clean_closed_sockets_loop_spec
              (conn_data (connections s)) (sockets (connections s))
              (Z.to_nat (conn_length (connections s))) Hl1 Hl2
              (Z.to_nat (conn_length (connections s))) O O s
              (Z.to_nat (conn_length (connections s))))
    as (st' & Hrun & Ht1 & Ht2 & Hlen & Hfree & Hh & Hw);
    try reflexivity; try lia.
  cbv zeta in Hrun. change (Z.of_nat 0) with 0 in Hrun.
  run Hrun. eexists. split; [reflexivity|].
  unfold open_slots, table.
  cbn [connections set_connections set_conn_length conn_length conn_data
       sockets first_free_buffer history world modify].
  rewrite Nat2Z.id.
  set (kept := List.filter _ _) in *.
  split_and!; try assumption; try reflexivity.
  rewrite Ht1, Ht2. clear.
  induction kept as [|[c p] kept IH]; [reflexivity|]. simpl. now rewrite IH.
Qed.

(** X17.  [clean_closed_sockets] keeps exactly the slots of the table
    that are not marked closed, each with its descriptor, in their
    order, at the front of the table, and sets the length of the table
    to their number; it changes neither the pool nor the history nor
    the world. *)
Theorem clean_closed_sockets_keeps_open_slots s :
  0 <= conn_length (connections s) ->
  (Z.to_nat (conn_length (connections s))
   <= length (conn_data (connections s)))%nat ->
  (Z.to_nat (conn_length (connections s))
   <= length (sockets (connections s)))%nat ->
  exists s',
    clean_closed_sockets s = Ok (tt, s')
    /\ table s' = open_slots s
    /\ conn_length (connections s') = Z.of_nat (length (open_slots s))
    /\ first_free_buffer s' = first_free_buffer s
    /\ history s' = history s /\ world s' = world s.
Proof. apply clean_closed_sockets_spec. Qed.

Lemma clean_closed_sockets_keeps_open_slots_witness :
  exists s',
    clean_closed_sockets one_of_three_closed = Ok (tt, s')
    /\ table s' = open_slots one_of_three_closed
    /\ conn_length (connections s')
       = Z.of_nat (length (open_slots one_of_three_closed))
    /\ first_free_buffer s' = first_free_buffer one_of_three_closed
    /\ history s' = history one_of_three_closed
    /\ world s' = world one_of_three_closed.
Proof.
  apply (clean_closed_sockets_keeps_open_slots one_of_three_closed).
  - vm_compute. discriminate.
  - apply Nat.leb_le. vm_compute. reflexivity.
  - apply Nat.leb_le. vm_compute. reflexivity.
Defined.

(** The descriptors left in the table after the second of three
    clients was closed. *)
Lemma one_of_three_closed_slots :
  map (fun p => fd (snd p)) (open_slots one_of_three_closed) = [3; 5; 7].
Proof. vm_compute. reflexivity. Qed.

(** ** What handling a packet leaves alone *)

Lemma keeps_framing_refl s : keeps_framing s s.
Proof.
  unfold keeps_framing. split_and!; [reflexivity| |].
  - intros i c H. exists c. now split_and!.
  - intros i p H. exists p. now split.
Qed.

Lemma keeps_framing_trans s1 s2 s3 :
  keeps_framing s1 s2 -> keeps_framing s2 s3 -> keeps_framing s1 s3.
Proof.
  intros (Hn1 & Hc1 & Hp1) (Hn2 & Hc2 & Hp2). unfold keeps_framing.
  split_and!; [congruence| |].
  - intros i c H. destruct (Hc1 i c H) as (c' & H' & Hb & Hcl).
    destruct (Hc2 i c' H') as (c'' & H'' & Hb' & Hcl').
    exists c''. split_and!; congruence.
  - intros i p H. destruct (Hp1 i p H) as (p' & H' & Hf).
    destruct (Hp2 i p' H') as (p'' & H'' & Hf').
    exists p''. split; congruence.
Qed.

Lemma keeps_framing_world w s : keeps_framing s (set_world w s).
Proof.
  unfold keeps_framing. split_and!; [reflexivity| |].
  - intros i c H. exists c. now split_and!.
  - intros i p H. exists p. now split.
Qed.

Lemma queued_for_keeps_framing client s s' :
  queued_for client s s' -> keeps_framing s s'.
Proof.
  intros (_ & _ & Hn & _ & _ & Ho & Hp & (c0 & q & Hc & Hc') & (p0 & Hk & Hk') & _).
  unfold keeps_framing. split_and!; [exact Hn| |].
  - intros i c H. destruct (Z.eq_dec i client) as [->|Hne].
    + rewrite Hc in H. injection H as <-.
      eexists. split_and!; [exact Hc'|reflexivity|reflexivity].
    + exists c. rewrite Ho by assumption. now split_and!.
  - intros i p H. destruct (Z.eq_dec i client) as [->|Hne].
    + rewrite Hk in H. injection H as <-.
      eexists. split; [exact Hk'|reflexivity].
    + exists p. rewrite Hp by assumption. now split.
Qed.

Lemma write_data_keeps_framing client c c' s s' :
  conn_of client s = Some c ->
  input_buffer c' = input_buffer c -> closed c' = closed c ->
  write_data client c' s = Ok (tt, s') -> keeps_framing s s'.
Proof.
  intros Hc Hb Hcl H. rewrite (write_data_Ok _ _ _ _ Hc) in H. injection H as <-.
  pose proof (array_get_nonneg _ _ _ Hc) as H0.
  unfold keeps_framing, conn_of, sock_of.
  cbn [connections set_connections conn_data set_conn_data conn_length sockets].
  split_and!; [reflexivity| |].
  - intros i x H. destruct (Z.eq_dec i client) as [->|Hne].
    + unfold conn_of in Hc. rewrite Hc in H. injection H as <-.
      exists c'. split_and!; [|assumption|assumption].
      now destruct (array_get_set _ _ _ c' Hc).
    + exists x. rewrite array_get_insert_ne by assumption. now split_and!.
  - intros i p H. exists p. now split.
Qed.

Lemma send_package_keeps_framing client m s s' :
  send_package client m s = Ok (tt, s') -> keeps_framing s s'.
Proof. intros H. eapply queued_for_keeps_framing, send_package_inv, H. Qed.

Lemma close_connection_keeps_framing client s r s' :
  close_connection client s = Ok (r, s') -> keeps_framing s s'.
Proof.
  unfold close_connection. intros H.
  apply bind_inv in H as (sock & s1 & Hs & H). apply read_socket_state in Hs as ->.
  apply bind_inv in H as ([] & s1 & Hc & H). unfold close in Hc.
  injection Hc as <-. injection H as _ <-. apply keeps_framing_world.
Qed.

Lemma folks_loop_keeps_framing fuel client : forall i s s',
  folks_loop fuel client i s = Ok (tt, s') -> keeps_framing s s'.
Proof.
  induction fuel as [|fuel IH]; intros i s s' H; cbn [folks_loop] in H;
    apply bind_inv in H as (s0 & s1 & Hget & H); injection Hget as <- <-;
    destruct (i <? conn_length (connections s)); try discriminate;
    try (injection H as <-; apply keeps_framing_refl).
  apply bind_inv in H as (conn & s1 & Hr & H). apply read_data_state in Hr as ->.
  apply bind_inv in H as ([] & s1 & Hs & H).
  eapply keeps_framing_trans; [eapply send_package_keeps_framing, Hs|].
  eapply IH, H.
Qed.

Lemma new_emit_keeps_framing fuel client : forall i s r s',
  new_emit fuel client i s = Ok (r, s') -> keeps_framing s s'.
Proof.
  induction fuel as [|fuel IH]; intros i s r s' H; cbn [new_emit] in H;
    destruct (0 <=? i); try discriminate;
    try (injection H as _ <-; apply keeps_framing_refl).
  apply bind_inv in H as (s0 & s1 & Hget & H). injection Hget as <- <-.
  apply bind_inv in H as (t & s1 & Ht & H). unfold localtime_r in Ht.
  injection Ht as <- <-.
  destruct (localtime (world s) _) as [t|];
    [|injection H as _ <-; apply keeps_framing_refl].
  apply bind_inv in H as (o & s1 & Ho & H).
  unfold sprintf_outgoing in Ho. apply in_bounds_inv in Ho as [_ ->].
  apply bind_inv in H as ([] & s1 & Hs & H).
  eapply keeps_framing_trans; [eapply send_package_keeps_framing, Hs|].
  eapply IH, H.
Qed.

Lemma process_new_package_frame client package s r s' :
  process_new_package client package s = Ok (r, s') -> keeps_framing s s'.
Proof.
  unfold process_new_package. intros H.
  destruct (starts_with package PACKAGE_BEGIN_MY_NAME_IS).
  { destruct (MAX_NICK_LENGTH <? _).
    - eapply close_connection_keeps_framing, H.
    - apply bind_inv in H as (n & s1 & Hn & H). apply in_bounds_inv in Hn as [_ ->].
      apply bind_inv in H as (conn & s1 & Hr & H).
      unfold read_data in Hr. apply in_bounds_inv in Hr as [Hconn ->].
      apply bind_inv in H as ([] & s1 & Hw & H).
      apply bind_inv in H as ([] & s2 & Hs & H). injection H as _ <-.
      eapply keeps_framing_trans;
        [eapply (write_data_keeps_framing _ conn); [exact Hconn| | |exact Hw];
         reflexivity|].
      eapply send_package_keeps_framing, Hs. }
  destruct (strcmp_eq package PACKAGE_FOLKS).
  { apply bind_inv in H as (s0 & s1 & Hget & H). injection Hget as <- <-.
    apply bind_inv in H as (o & s1 & Ho & H).
    unfold sprintf_outgoing in Ho. apply in_bounds_inv in Ho as [_ ->].
    apply bind_inv in H as ([] & s1 & Hs & H).
    apply bind_inv in H as ([] & s2 & Hf & H). injection H as _ <-.
    eapply keeps_framing_trans; [eapply send_package_keeps_framing, Hs|].
    eapply folks_loop_keeps_framing, Hf. }
  destruct (starts_with package PACKAGE_BEGIN_SEND).
  { destruct (MAX_MESSAGE_LENGTH <? _).
    - injection H as _ <-. apply keeps_framing_refl.
    - apply bind_inv in H as (conn & s1 & Hr & H). apply read_data_state in Hr as ->.
      apply bind_inv in H as ([] & s1 & Ha & H).
      apply bind_inv in H as ([] & s2 & Hs & H). injection H as _ <-.
      eapply keeps_framing_trans; [|eapply send_package_keeps_framing, Hs].
      apply add_to_history_inv in Ha as (Hc & _ & _).
      unfold keeps_framing, conn_of, sock_of. rewrite Hc.
      split_and!; [reflexivity| |].
      + intros i c Hi. exists c. now split_and!.
      + intros i p Hi. exists p. now split. }
  destruct (strcmp_eq package PACKAGE_NEW).
  { apply bind_inv in H as (conn & s1 & Hr & H). apply read_data_state in Hr as ->.
    apply bind_inv in H as (s0 & s1 & Hget & H). injection Hget as <- <-.
    destruct (new_scan _ _ _ _ _) as [[i reads]|]; [|discriminate].
    apply bind_inv in H as (o & s1 & Ho & H).
    unfold sprintf_outgoing in Ho. apply in_bounds_inv in Ho as [_ ->].
    apply bind_inv in H as ([] & s1 & Hs & H).
    apply bind_inv in H as (sent & s2 & He & H).
    eapply keeps_framing_trans; [eapply send_package_keeps_framing, Hs|].
    eapply keeps_framing_trans; [eapply new_emit_keeps_framing, He|].
    destruct sent; [|eapply close_connection_keeps_framing, H].
    apply bind_inv in H as (now & s3 & Ht & H).
    apply get_time_inv in Ht as (rest & _ & ->).
    apply bind_inv in H as (c2 & s3 & Hr & H).
    unfold read_data in Hr. apply in_bounds_inv in Hr as [Hc2 ->].
    apply bind_inv in H as ([] & s3 & Hw & H). injection H as _ <-.
    eapply keeps_framing_trans; [apply keeps_framing_world|].
    eapply (write_data_keeps_framing _ c2); [exact Hc2| | |exact Hw]; reflexivity. }
  eapply close_connection_keeps_framing, H.
Qed.

(** X18.  Handling a packet, whatever the packet and however it ends,
    changes no input buffer, no [closed] mark, no descriptor and not the
    length of the table. *)
Theorem process_new_package_keeps_framing client package s r s' :
  process_new_package client package s = Ok (r, s') -> keeps_framing s s'.
Proof. apply process_new_package_frame. Qed.

Lemma state_after_returned {A} (m : M A) s a :
  returned (m s) = Ok a -> m s = Ok (a, state_after m s).
Proof.
  unfold state_after, returned.
  destruct (m s) as [[a' s']| | | |]; try discriminate.
  intros H. now injection H as ->.
Qed.

Lemma process_new_package_keeps_framing_witness :
  keeps_framing two_messages
    (state_after (process_new_package 1 PACKAGE_NEW) two_messages).
Proof.
  apply (process_new_package_keeps_framing 1 PACKAGE_NEW two_messages 0).
  apply state_after_returned. vm_compute. reflexivity.
Defined.

(** ** The line framer: [process_new_data] *)

Lemma c_str_app p mem :
  Forall (fun c => c <> NUL) p -> c_str (p ++ mem) = p ++ c_str mem.
Proof.
  induction 1 as [|c p Hc _ IH]; [reflexivity|]. cbn [app c_str].
  unfold ascii_eqb. destruct (Ascii.eqb_spec c NUL) as [->|_]; [contradiction|].
  now rewrite IH.
Qed.

Lemma c_str_NUL tail : c_str (NUL :: tail) = [].
Proof. reflexivity. Qed.

Lemma find_sub_CRLF p : forall rest,
  Forall (fun c => c <> LF) p -> find_sub CRLF (p ++ CRLF ++ rest) = Some (length p).
Proof.
  induction p as [|x p IH]; intros rest Hp; [reflexivity|].
  apply Forall_cons in Hp as [Hx Hp].
  cbn [app find_sub length].
  assert (Hstart : starts_with (x :: p ++ CRLF ++ rest) CRLF = false).
  { unfold starts_with. cbn [length CRLF take].
    destruct p as [|y p]; cbn [app take cstring_eqb CRLF].
    - apply andb_false_iff. right. reflexivity.
    - apply Forall_cons in Hp as [Hy _].
      apply andb_false_iff. right. apply andb_false_iff. left.
      unfold ascii_eqb. now destruct (Ascii.eqb_spec y LF). }
  rewrite Hstart. cbn [app] in IH. now rewrite IH.
Qed.

Lemma write_input_buffer_Ok client b s conn :
  conn_of client s = Some conn ->
  write_input_buffer client b s
  = Ok (tt, set_connections
              (set_conn_data
                 (<[Z.to_nat client := set_input_buffer b conn]>
                    (conn_data (connections s)))
                 (connections s)) s).
Proof.
  intros H. unfold write_input_buffer.
  erewrite bind_Ok by (apply read_data_Ok; exact H).
  now apply write_data_Ok with conn.
Qed.

Lemma conn_of_written client v s conn :
  conn_of client s = Some conn ->
  conn_of client
    (set_connections
       (set_conn_data (<[Z.to_nat client := v]> (conn_data (connections s)))
          (connections s)) s) = Some v.
Proof.
  intros H. unfold conn_of in *.
  cbn [connections set_connections conn_data set_conn_data].
  now destruct (array_get_set _ _ _ v H).
Qed.

Lemma conn_of_written_ne client i v s :
  i <> client -> 0 <= client ->
  conn_of i
    (set_connections
       (set_conn_data (<[Z.to_nat client := v]> (conn_data (connections s)))
          (connections s)) s) = conn_of i s.
Proof.
  intros Hne H0. unfold conn_of.
  cbn [connections set_connections conn_data set_conn_data].
  now apply array_get_insert_ne.
Qed.

(** One turn of the loop that finds no line. *)
Lemma process_new_data_loop_no_line fuel client begin process s conn :
  conn_of client s = Some conn ->
  strstr (drop (Z.to_nat begin) (data (input_buffer conn))) CRLF = None ->
  (begin =? 0) && (sizeof_data - 1 =? used (input_buffer conn)) = false ->
  process_new_data_loop (S fuel) client begin process s = Ok (inr begin, s).
Proof.
  intros Hconn Hnone Hroom. cbn [process_new_data_loop].
  erewrite bind_Ok by (apply read_data_Ok; exact Hconn).
  cbv zeta. rewrite Hnone, Hroom. reflexivity.
Qed.

(** One turn of the loop on a full buffer with no line. *)
Lemma process_new_data_loop_full fuel client process s conn sock :
  conn_of client s = Some conn -> sock_of client s = Some sock ->
  strstr (data (input_buffer conn)) CRLF = None ->
  used (input_buffer conn) = sizeof_data - 1 ->
  process_new_data_loop (S fuel) client 0 process s
  = Ok (inl (-1),
        set_world
          (with_closed_fds (fd sock :: closed_fds (world s)) (world s)) s).
Proof.
  intros Hconn Hsock Hnone Hused. cbn [process_new_data_loop].
  erewrite bind_Ok by (apply read_data_Ok; exact Hconn).
  cbv zeta. change (Z.to_nat 0) with O. rewrite drop_0, Hnone, Hused.
  rewrite !Z.eqb_refl. cbn [andb].
  erewrite bind_Ok by (apply read_socket_Ok; exact Hsock).
  reflexivity.
Qed.

Lemma state_eta s :
  set_connections
    (set_conn_data (conn_data (connections s)) (connections s)) s = s.
Proof. destruct s as [f [so da le] h w]. reflexivity. Qed.

(** X19.  A line of [sizeof(data) - 1] = 172 bytes with no CR LF fills
    the input buffer: [process_new_data] closes the client's socket and
    returns -1. *)
Theorem process_new_data_closes_on_full_buffer client s conn sock :
  conn_of client s = Some conn -> sock_of client s = Some sock ->
  strstr (data (input_buffer conn)) CRLF = None ->
  used (input_buffer conn) = sizeof_data - 1 ->
  process_new_data client s
  = Ok (-1, set_world
              (with_closed_fds (fd sock :: closed_fds (world s)) (world s)) s).
Proof.
  intros Hconn Hsock Hnone Hused. unfold process_new_data.
  replace (Z.to_nat sizeof_data) with (S 172) by reflexivity.
  erewrite bind_Ok
    by (apply (process_new_data_loop_full _ _ _ _ conn sock); assumption).
  reflexivity.
Qed.

Lemma process_new_data_closes_on_full_buffer_witness :
  process_new_data 1 (with_input (replicate 172 "a"%char))
  = Ok (-1, set_world
              (with_closed_fds
                 (5 :: closed_fds (world (with_input (replicate 172 "a"%char))))
                 (world (with_input (replicate 172 "a"%char))))
              (with_input (replicate 172 "a"%char))).
Proof.
  apply (process_new_data_closes_on_full_buffer 1
           (with_input (replicate 172 "a"%char))
           (default zero_ConnectionData
              (conn_of 1 (with_input (replicate 172 "a"%char))))
           {| fd := 5; events := POLLIN; revents := 0 |}).
  - vm_compute. reflexivity.
  - vm_compute. reflexivity.
  - vm_compute. reflexivity.
  - vm_compute. reflexivity.
Defined.

(** X20.  Bytes with no CR LF that do not fill the input buffer are
    an unfinished line: [process_new_data] returns 0 and leaves the
    whole state, the buffer included, as it was. *)
Theorem process_new_data_keeps_partial_line client s conn :
  conn_of client s = Some conn ->
  strstr (data (input_buffer conn)) CRLF = None ->
  used (input_buffer conn) <> sizeof_data - 1 ->
  0 <= used (input_buffer conn) <= Z.of_nat (length (data (input_buffer conn))) ->
  process_new_data client s = Ok (0, s).
Proof.
  intros Hconn Hnone Hused Hrange. unfold process_new_data.
  replace (Z.to_nat sizeof_data) with (S 172) by reflexivity.
  erewrite bind_Ok.
  2:{ apply process_new_data_loop_no_line with conn; [exact Hconn| |].
      - change (Z.to_nat 0) with O. now rewrite drop_0.
      - apply andb_false_iff. right. apply Z.eqb_neq. congruence. }
  cbv beta iota.
  erewrite bind_Ok by (apply read_data_Ok; exact Hconn).
  cbv zeta. unfold memmove_down. rewrite Z.sub_0_r.
  replace ((0 <=? 0) && (0 <=? used (input_buffer conn))
           && (0 + used (input_buffer conn)
               <=? Z.of_nat (length (data (input_buffer conn)))))
    with true
    by (symmetry; rewrite !andb_true_iff, !Z.leb_le; lia).
  change (Z.to_nat 0) with O. rewrite drop_0, take_drop.
  erewrite bind_Ok by reflexivity.
  erewrite bind_Ok by (apply write_input_buffer_Ok; exact Hconn).
  replace (set_input_buffer _ conn) with conn
    by (destruct conn as [c n l q [d u]]; reflexivity).
  unfold conn_of, array_get in Hconn.
  destruct (0 <=? client); [|discriminate].
  rewrite list_insert_id by exact Hconn. now rewrite state_eta.
Qed.

Lemma process_new_data_keeps_partial_line_witness :
  process_new_data 1 (with_input (str "fol")) = Ok (0, with_input (str "fol")).
Proof.
  apply (process_new_data_keeps_partial_line 1 (with_input (str "fol"))
           (default zero_ConnectionData (conn_of 1 (with_input (str "fol"))))).
  - vm_compute. reflexivity.
  - vm_compute. reflexivity.
  - vm_compute. discriminate.
  - vm_compute. split; discriminate.
Defined.

(** X21.  When the input buffer holds one whole line [p], its CR LF
    and the start [rest] of a next line, [process_new_data] ends the
    line with a NUL in place of the CR and hands [p] to
    [process_new_package].  If that returns -1 so does
    [process_new_data], at once; otherwise [process_new_data] returns 0
    and moves [rest] to the front of the buffer, and changes nothing
    else in the state the handler left. *)
Theorem process_new_data_hands_over_line client s conn p rest tail r s1 :
  conn_of client s = Some conn ->
  data (input_buffer conn) = p ++ CRLF ++ rest ++ NUL :: tail ->
  used (input_buffer conn) = strlen p + 2 + strlen rest ->
  Forall (fun c => c <> NUL) p -> Forall (fun c => c <> LF) p ->
  Forall (fun c => c <> NUL) rest -> find_sub CRLF rest = None ->
  (write_input_buffer client
     {| data := p ++ NUL :: LF :: rest ++ NUL :: tail;
        used := used (input_buffer conn) |};;
   process_new_package client p) s = Ok (r, s1) ->
  (r = -1 -> process_new_data client s = Ok (-1, s1))
  /\ (r <> -1 ->
      exists c1 b' s',
        process_new_data client s = Ok (0, s')
        /\ conn_of client s1 = Some c1
        /\ conn_of client s' = Some (set_input_buffer b' c1)
        /\ used b' = strlen rest
        /\ take (length rest) (data b') = rest
        /\ length (data b') = length (data (input_buffer conn))
        /\ (forall i, i <> client -> conn_of i s' = conn_of i s1)
        /\ sockets (connections s') = sockets (connections s1)
        /\ conn_length (connections s') = conn_length (connections s1)
        /\ first_free_buffer s' = first_free_buffer s1
        /\ history s' = history s1 /\ world s' = world s1).
Proof.
  intros Hconn Hdata Hused Hp0 Hpl Hr0 Hrest Hrun.
  apply bind_inv in Hrun as ([] & s0 & Hwrite & Hproc).
  pose proof (array_get_nonneg _ _ _ Hconn) as Hclient.
  set (marked := p ++ NUL :: LF :: rest ++ NUL :: tail) in *.
  assert (Hstr : strstr (drop (Z.to_nat 0) (data (input_buffer conn))) CRLF
                 = Some (length p)).
  { change (Z.to_nat 0) with O. rewrite drop_0, Hdata. unfold strstr.
    rewrite c_str_app by exact Hp0.
    change (CRLF ++ rest ++ NUL :: tail) with (CR :: LF :: rest ++ NUL :: tail).
    change (c_str (CR :: LF :: rest ++ NUL :: tail))
      with (CR :: LF :: c_str (rest ++ NUL :: tail)).
    rewrite c_str_app, c_str_NUL, app_nil_r by exact Hr0.
    apply (find_sub_CRLF p rest Hpl). }
  assert (Hset : array_set (data (input_buffer conn)) (0 + Z.of_nat (length p)) NUL
                 = Some marked).
  { unfold array_set. rewrite Z.add_0_l, Nat2Z.id.
    destruct ((0 <=? Z.of_nat (length p))
              && (Z.of_nat (length p) <? Z.of_nat (length (data (input_buffer conn)))))
      eqn:Hin.
    - f_equal. rewrite Hdata, insert_app_r_alt by lia.
      now rewrite Nat.sub_diag.
    - apply andb_false_iff in Hin as [Hin|Hin];
        [apply Z.leb_gt in Hin | apply Z.ltb_ge in Hin;
                                 rewrite Hdata, length_app in Hin;
                                 cbn [CRLF app length] in Hin]; lia. }
  assert (Hpkg : c_str (drop (Z.to_nat 0) marked) = p).
  { change (Z.to_nat 0) with O. rewrite drop_0. subst marked.
    rewrite c_str_app, c_str_NUL by exact Hp0. apply app_nil_r. }
  assert (Hstep : forall fuel,
            process_new_data_loop (S fuel) client 0 process_new_package s
            = (if r =? -1 then mret (inl (-1))
               else process_new_data_loop fuel client
                      (0 + Z.of_nat (length p) + 2) process_new_package) s1).
  { intros fuel. cbn [process_new_data_loop].
    erewrite bind_Ok by (apply read_data_Ok; exact Hconn).
    cbv zeta. rewrite Hstr.
    erewrite bind_Ok by (apply in_bounds_Some; exact Hset).
    erewrite bind_Ok by (exact Hwrite).
    rewrite Hpkg.
    erewrite bind_Ok by (exact Hproc).
    reflexivity. }
  unfold process_new_data.
  replace (Z.to_nat sizeof_data) with (S (S 171)) by reflexivity.
  split.
  - intros ->. erewrite bind_Ok by (rewrite Hstep; reflexivity). reflexivity.
  - intros Hr.
    rewrite (write_input_buffer_Ok _ _ _ _ Hconn) in Hwrite.
    injection Hwrite as Hs0.
    assert (Hc0 : conn_of client s0
                  = Some (set_input_buffer
                            {| data := marked; used := used (input_buffer conn) |}
                            conn)).
    { rewrite <- Hs0. now apply conn_of_written with conn. }
    destruct (process_new_package_frame _ _ _ _ _ Hproc)
      as (_ & Hframe & _).
    destruct (Hframe _ _ Hc0) as (c1 & Hc1 & Hbuf & _).
    cbn [input_buffer set_input_buffer] in Hbuf.
    set (begin := 0 + Z.of_nat (length p) + 2) in *.
    assert (Hbegin : Z.to_nat begin = (length p + 2)%nat) by (subst begin; lia).
    assert (Hdrop : drop (Z.to_nat begin) marked = rest ++ NUL :: tail).
    { rewrite Hbegin. subst marked.
      rewrite <- drop_drop, drop_app_length. reflexivity. }
    erewrite bind_Ok.
    2:{ rewrite Hstep.
        replace (r =? -1) with false by (symmetry; now apply Z.eqb_neq).
        apply process_new_data_loop_no_line with c1; [exact Hc1| |].
        - rewrite Hbuf. cbn [data]. rewrite Hdrop. unfold strstr.
          rewrite c_str_app, c_str_NUL, app_nil_r by exact Hr0. exact Hrest.
        - apply andb_false_iff. left. apply Z.eqb_neq. subst begin. lia. }
    cbv beta iota.
    erewrite bind_Ok by (apply read_data_Ok; exact Hc1).
    cbv zeta. rewrite Hbuf. cbn [data used].
    assert (Hlen : length marked = length (data (input_buffer conn))).
    { subst marked. rewrite Hdata, !length_app. cbn [length].
      rewrite !length_app. reflexivity. }
    assert (Hcount : used (input_buffer conn) - begin = Z.of_nat (length rest)).
    { rewrite Hused. subst begin. unfold strlen. lia. }
    assert (Hmove : memmove_down marked begin (used (input_buffer conn) - begin)
                    = Some (rest ++ drop (length rest) marked)).
    { unfold memmove_down. rewrite Hcount.
      replace ((0 <=? begin) && (0 <=? Z.of_nat (length rest))
               && (begin + Z.of_nat (length rest) <=? Z.of_nat (length marked)))
        with true.
      - rewrite Hdrop, Nat2Z.id, take_app_length. reflexivity.
      - symmetry. rewrite !andb_true_iff, !Z.leb_le. subst begin marked.
        rewrite !length_app. cbn [length]. rewrite !length_app. cbn [length]. lia. }
    erewrite bind_Ok by (apply in_bounds_Some; exact Hmove).
    erewrite bind_Ok by (apply write_input_buffer_Ok; exact Hc1).
    eexists c1, _, _. split; [reflexivity|].
    split; [exact Hc1|].
    split; [now apply conn_of_written with c1|].
    cbn [used data]. split; [exact Hcount|].
    split; [now rewrite take_app_length|].
    split.
    { rewrite length_app, length_drop, <- Hlen.
      assert (length rest <= length marked)%nat; [|lia].
      subst marked. rewrite !length_app. cbn [length]. rewrite !length_app. lia. }
    split; [intros i Hi; now apply conn_of_written_ne|].
    now split_and!.
Qed.

Lemma process_new_data_hands_over_line_witness :
  (0 = -1 -> process_new_data 1 line_and_a_half = Ok (-1, line_handled))
  /\ (0 <> -1 ->
      exists c1 b' s',
        process_new_data 1 line_and_a_half = Ok (0, s')
        /\ conn_of 1 line_handled = Some c1
        /\ conn_of 1 s' = Some (set_input_buffer b' c1)
        /\ used b' = strlen (str "ne")
        /\ take (length (str "ne")) (data b') = str "ne"
        /\ length (data b')
           = length (data (input_buffer
                             (default zero_ConnectionData
                                (conn_of 1 line_and_a_half))))
        /\ (forall i, i <> 1 -> conn_of i s' = conn_of i line_handled)
        /\ sockets (connections s') = sockets (connections line_handled)
        /\ conn_length (connections s') = conn_length (connections line_handled)
        /\ first_free_buffer s' = first_free_buffer line_handled
        /\ history s' = history line_handled
        /\ world s' = world line_handled).
Proof.
  apply (process_new_data_hands_over_line 1 line_and_a_half
           (default zero_ConnectionData (conn_of 1 line_and_a_half))
           (str "folks") (str "ne") (replicate 163 NUL) 0 line_handled).
  - vm_compute. reflexivity.
  - vm_compute. reflexivity.
  - vm_compute. reflexivity.
  - vm_compute. repeat constructor; discriminate.
  - vm_compute. repeat constructor; discriminate.
  - vm_compute. repeat constructor; discriminate.
  - vm_compute. reflexivity.
  - replace (used (input_buffer
                     (default zero_ConnectionData (conn_of 1 line_and_a_half))))
      with 9 by (vm_compute; reflexivity).
    apply state_after_returned. vm_compute. reflexivity.
Defined.

(** ** One turn of the loop of [main] *)

Lemma has_0 flag : has 0 flag = false.
Proof. unfold has. now rewrite Z.land_0_l. Qed.

Lemma mark_closed_Ok client s c :
  conn_of client s = Some c ->
  mark_closed client s
  = Ok (tt, set_connections
              (set_conn_data
                 (<[Z.to_nat client := set_closed true c]>
                    (conn_data (connections s)))
                 (connections s)) s).
Proof.
  intros H. unfold mark_closed.
  erewrite bind_Ok by (apply read_data_Ok; exact H).
  now apply write_data_Ok with c.
Qed.

(** The loop over slots that report nothing. *)
Lemma dispatch_loop_idle fuel : forall i n s,
  (forall j, i <= j < n -> exists p, sock_of j s = Some p /\ revents p = 0) ->
  (Z.to_nat (n - i) <= fuel)%nat ->
  dispatch_loop fuel i n s = Ok (tt, s).
Proof.
  induction fuel as [|fuel IH]; intros i n s Hidle Hfuel;
    cbn [dispatch_loop]; destruct (i <? n) eqn:Hi; try reflexivity;
    apply Z.ltb_lt in Hi; [lia|].
  destruct (Hidle i ltac:(lia)) as (p & Hp & Hrev).
  erewrite bind_Ok by (apply read_socket_Ok; exact Hp).
  cbv zeta. rewrite Hrev, !has_0.
  erewrite bind_Ok by reflexivity. erewrite bind_Ok by reflexivity.
  apply IH; [|lia]. intros j Hj. apply Hidle. lia.
Qed.

(** The loop when one slot reports an error condition and the others
    nothing. *)
Lemma dispatch_loop_error fuel : forall i n s k c pk,
  i <= k < n ->
  (forall j, i <= j < n -> j <> k ->
     exists p, sock_of j s = Some p /\ revents p = 0) ->
  sock_of k s = Some pk -> conn_of k s = Some c ->
  has (revents pk) POLLIN = false -> has (revents pk) POLLOUT = false ->
  has (revents pk) (Z.lor POLLERR (Z.lor POLLHUP POLLNVAL)) = true ->
  (Z.to_nat (n - i) <= fuel)%nat ->
  dispatch_loop fuel i n s
  = Ok (tt, set_connections
              (set_conn_data
                 (<[Z.to_nat k := set_closed true c]> (conn_data (connections s)))
                 (connections s)) s).
Proof.
  induction fuel as [|fuel IH]; intros i n s k c pk Hk Hidle Hpk Hc Hin Hout Herr Hfuel;
    [lia|].
  cbn [dispatch_loop]. replace (i <? n) with true by (symmetry; apply Z.ltb_lt; lia).
  destruct (Z.eq_dec i k) as [->|Hne].
  - erewrite bind_Ok by (apply read_socket_Ok; exact Hpk).
    cbv zeta. rewrite Hin, Hout, Herr.
    erewrite bind_Ok by reflexivity.
    erewrite bind_Ok by (apply mark_closed_Ok; exact Hc).
    apply dispatch_loop_idle; [|lia].
    intros j Hj. apply Hidle; lia.
  - destruct (Hidle i ltac:(lia) Hne) as (p & Hp & Hrev).
    erewrite bind_Ok by (apply read_socket_Ok; exact Hp).
    cbv zeta. rewrite Hrev, !has_0.
    erewrite bind_Ok by reflexivity. erewrite bind_Ok by reflexivity.
    apply IH with pk; try assumption; try lia.
    intros j Hj. apply Hidle. lia.
Qed.

Lemma lookup_combine {A B} (l1 : list A) : forall (l2 : list B) j a b,
  combine l1 l2 !! j = Some (a, b) <-> l1 !! j = Some a /\ l2 !! j = Some b.
Proof.
  induction l1 as [|x l1 IH]; intros [|y l2] [|j] a b; simpl;
    try (split; [discriminate | intros [? ?]; discriminate]).
  - split; [intros H; injection H as -> ->; now split
           | intros [H1 H2]; congruence].
  - apply IH.
Qed.

Lemma map_fst_combine {A B} (l1 : list A) : forall (l2 : list B),
  length l1 = length l2 -> map fst (combine l1 l2) = l1.
Proof.
  induction l1 as [|x l1 IH]; intros [|y l2] H; simpl in *; try discriminate;
    [reflexivity|]. f_equal. apply IH. lia.
Qed.

Lemma map_snd_combine {A B} (l1 : list A) : forall (l2 : list B),
  length l1 = length l2 -> map snd (combine l1 l2) = l2.
Proof.
  induction l1 as [|x l1 IH]; intros [|y l2] H; simpl in *; try discriminate;
    [reflexivity|]. f_equal. apply IH. lia.
Qed.

Lemma map_delete {A B} (f : A -> B) (l : list A) : forall k,
  map f (delete k l) = delete k (map f l).
Proof.
  induction l as [|x l IH]; intros [|k]; simpl; try reflexivity.
  f_equal. apply IH.
Qed.

Lemma delete_insert_same {A} (l : list A) : forall k x,
  delete k (<[k:=x]> l) = delete k l.
Proof.
  induction l as [|y l IH]; intros [|k] x; simpl; try reflexivity.
  f_equal. apply IH.
Qed.

Lemma filter_delete {A} (P : A -> bool) (l : list A) : forall k x,
  l !! k = Some x -> P x = false ->
  (forall j y, j <> k -> l !! j = Some y -> P y = true) ->
  List.filter P l = delete k l.
Proof.
  induction l as [|y l IH]; intros [|k] x Hk Hx Hrest; simpl in *;
    try discriminate.
  - injection Hk as ->. rewrite Hx.
    apply filter_all, Forall_lookup. intros j z Hj.
    now apply (Hrest (S j)).
  - rewrite (Hrest O y) by (try reflexivity; lia). f_equal.
    apply (IH k x); try assumption.
    intros j z Hj Hz. apply (Hrest (S j)); [lia | exact Hz].
Qed.

Lemma map_fd_imap (f : nat -> pollfd -> pollfd) (l : list pollfd) :
  (forall i p, fd (f i p) = fd p) -> map fd (imap f l) = map fd l.
Proof.
  revert f. induction l as [|p l IH]; intros f Hf; [reflexivity|].
  simpl. rewrite Hf. f_equal. apply IH. intros i q. apply Hf.
Qed.

Lemma land_lor_absorb a b : Z.land (Z.lor a b) b = b.
Proof.
  apply Z.bits_inj'. intros i Hi. rewrite Z.land_spec, Z.lor_spec.
  destruct (Z.testbit a i), (Z.testbit b i); reflexivity.
Qed.

(** What [poll] reports for an answer that holds none of a flag. *)
Lemma has_masked_none e mask flag :
  Z.land e flag = 0 -> has (Z.land e mask) flag = false.
Proof.
  intros H. unfold has.
  rewrite <- Z.land_assoc, (Z.land_comm mask), Z.land_assoc, H, Z.land_0_l.
  reflexivity.
Qed.

Lemma has_masked_error e asked errors :
  Z.land e errors <> 0 -> has (Z.land e (Z.lor asked errors)) errors = true.
Proof.
  intros H. unfold has.
  rewrite <- Z.land_assoc, land_lor_absorb.
  apply negb_true_iff, Z.eqb_neq, H.
Qed.

(** X22.  When [poll] reports an error condition ([POLLERR], [POLLHUP]
    or [POLLNVAL]) and neither [POLLIN] nor [POLLOUT] for one slot, and
    nothing for the other slots, the turn of the loop of [main] takes
    exactly that slot out of the table: the records and descriptors of
    the other slots stay, in their order, and the table is one shorter.
    The descriptor of the slot taken out is not closed and the pool
    gets nothing back. *)
Theorem error_event_drops_slot s answer rest (k : nat) e :
  poll_tape (world s) = answer :: rest ->
  (k < Z.to_nat (conn_length (connections s)))%nat ->
  (Z.to_nat (conn_length (connections s))
   <= length (conn_data (connections s)))%nat ->
  (Z.to_nat (conn_length (connections s))
   <= length (sockets (connections s)))%nat ->
  Forall (fun p => closed (fst p) = false) (table s) ->
  answer !! k = Some e ->
  Z.land e POLLIN = 0 -> Z.land e POLLOUT = 0 ->
  Z.land e (Z.lor POLLERR (Z.lor POLLHUP POLLNVAL)) <> 0 ->
  (forall j, j <> k -> default 0 (answer !! j) = 0) ->
  exists s',
    iteration s = Ok (tt, s')
    /\ map fst (table s') = delete k (map fst (table s))
    /\ map (fun p => fd (snd p)) (table s')
       = delete k (map (fun p => fd (snd p)) (table s))
    /\ conn_length (connections s') = conn_length (connections s) - 1
    /\ closed_fds (world s') = closed_fds (world s)
    /\ first_free_buffer s' = first_free_buffer s
    /\ history s' = history s.
Proof.
  intros Htape Hk Hdata Hsocks Hopen He Hin Hout Herr Hquiet.
  set (n := Z.to_nat (conn_length (connections s))) in *.
  assert (Hn : conn_length (connections s) = Z.of_nat n) by lia.
  set (reportable := fun p : pollfd =>
         Z.lor (events p) (Z.lor POLLERR (Z.lor POLLHUP POLLNVAL))).
  set (f := fun (i : nat) (p : pollfd) =>
         if (i <? n)%nat
         then set_revents (Z.land (default 0 (answer !! i)) (reportable p)) p
         else p).
  set (polled := imap f (sockets (connections s))).
  set (sp := set_world (with_poll_tape rest (world s))
               (set_connections (set_sockets polled (connections s)) s)).
  assert (Hpoll : poll s = Ok (tt, sp)).
  { unfold poll. rewrite Htape. reflexivity. }
  destruct (lookup_lt_is_Some_2 (conn_data (connections s)) k ltac:(lia))
    as [c Hc].
  destruct (lookup_lt_is_Some_2 (sockets (connections s)) k ltac:(lia))
    as [pk Hpk].
  assert (Hsock : forall j p, (j < n)%nat ->
            sockets (connections s) !! j = Some p ->
            sock_of (Z.of_nat j) sp
            = Some (set_revents
                      (Z.land (default 0 (answer !! j)) (reportable p)) p)).
  { intros j p Hj Hp. unfold sock_of, array_get.
    replace (0 <=? Z.of_nat j) with true by (symmetry; apply Z.leb_le; lia).
    rewrite Nat2Z.id. subst sp polled.
    cbn [connections set_world set_connections sockets set_sockets].
    rewrite list_lookup_imap, Hp. cbn [fmap option_fmap option_map]. subst f.
    cbv beta. now replace (j <? n)%nat with true by (symmetry; apply Nat.ltb_lt; lia). }
  set (sd := set_connections
               (set_conn_data
                  (<[k := set_closed true c]> (conn_data (connections sp)))
                  (connections sp)) sp).
  assert (Hdispatch :
            dispatch_loop n 0 (Z.of_nat n) sp = Ok (tt, sd)).
  { subst sd. rewrite <- (Nat2Z.id k) at 1.
    apply dispatch_loop_error
      with (pk := set_revents (Z.land (default 0 (answer !! k)) (reportable pk)) pk);
      try lia.
    - intros j Hj Hjk.
      destruct (lookup_lt_is_Some_2 (sockets (connections s)) (Z.to_nat j)
                  ltac:(lia)) as [p Hp].
      exists (set_revents
                (Z.land (default 0 (answer !! Z.to_nat j)) (reportable p)) p).
      split.
      + pose proof (Hsock (Z.to_nat j) p ltac:(lia) Hp) as H.
        rewrite Z2Nat.id in H by lia. exact H.
      + cbn [revents set_revents]. rewrite Hquiet by lia. apply Z.land_0_l.
    - now apply Hsock.
    - unfold conn_of, array_get.
      replace (0 <=? Z.of_nat k) with true by (symmetry; apply Z.leb_le; lia).
      now rewrite Nat2Z.id.
    - cbn [revents set_revents]. rewrite He. now apply has_masked_none.
    - cbn [revents set_revents]. rewrite He. now apply has_masked_none.
    - cbn [revents set_revents]. rewrite He. now apply has_masked_error. }
  destruct (clean_closed_sockets_spec sd) as (s' & Hclean & Htable & Hlen & Hfree & Hhist & Hworld).
  { subst sd sp. cbn [connections set_connections set_world conn_length set_conn_data set_sockets]. lia. }
  { subst sd sp. cbn [connections set_connections set_world conn_length
                      set_conn_data set_sockets conn_data].
    rewrite length_insert. exact Hdata. }
  { subst sd sp polled. cbn [connections set_connections set_world conn_length
                      set_conn_data set_sockets sockets].
    rewrite length_imap. exact Hsocks. }
  exists s'. split.
  { unfold iteration. run Hpoll. erewrite bind_Ok by reflexivity. cbv zeta.
    replace (conn_length (connections sp)) with (Z.of_nat n) by (symmetry; exact Hn).
    rewrite Nat2Z.id. run Hdispatch. exact Hclean. }
  assert (Htd : table sd
                = combine (<[k := set_closed true c]>
                             (take n (conn_data (connections s))))
                    (take n polled)).
  { unfold table. subst sd sp.
    cbn [connections set_connections set_world conn_length set_conn_data
         set_sockets sockets conn_data]. fold n.
    now rewrite take_insert_lt by lia. }
  assert (Hl1 : length (<[k := set_closed true c]>
                          (take n (conn_data (connections s)))) = n).
  { rewrite length_insert, length_take. lia. }
  assert (Hl2 : length (take n polled) = n).
  { rewrite length_take. subst polled. rewrite length_imap. lia. }
  assert (Hkept : open_slots sd = delete k (table sd)).
  { unfold open_slots.
    apply filter_delete
      with (x := (set_closed true c, f k pk)).
    - rewrite Htd. apply lookup_combine. split.
      + apply list_lookup_insert_eq. rewrite length_take. lia.
      + rewrite lookup_take_lt by lia. subst polled.
        now rewrite list_lookup_imap, Hpk.
    - reflexivity.
    - intros j [y1 y2] Hj Hy. rewrite Htd in Hy.
      apply lookup_combine in Hy as [Hy1 Hy2].
      rewrite list_lookup_insert_ne in Hy1 by lia.
      assert (Hjn : (j < n)%nat).
      { apply lookup_lt_Some in Hy2. lia. }
      destruct (lookup_lt_is_Some_2 (take n (sockets (connections s))) j)
        as [q Hq]; [rewrite length_take; lia|].
      assert (Hin' : table s !! j = Some (y1, q)).
      { unfold table. fold n. now apply lookup_combine. }
      apply (Forall_lookup_1 _ _ _ _ Hopen) in Hin'.
      unfold open_slot. cbn [fst] in *. now rewrite Hin'. }
  rewrite Htable, Hkept in *. rewrite Htd in *.
  split_and!.
  - rewrite map_delete, map_fst_combine by lia.
    rewrite delete_insert_same. unfold table. fold n.
    rewrite map_fst_combine by (rewrite !length_take; lia). reflexivity.
  - rewrite map_delete. f_equal.
    rewrite <- !(map_map snd fd). rewrite map_snd_combine by lia.
    unfold table. fold n.
    rewrite map_snd_combine by (rewrite !length_take; lia).
    rewrite <- !firstn_map. f_equal. subst polled.
    apply map_fd_imap. intros i p. subst f. cbv beta.
    now destruct (i <? n)%nat.
  - rewrite Hlen, length_delete.
    + rewrite length_combine, Hl1, Hl2. lia.
    + apply lookup_lt_is_Some_2. rewrite length_combine, Hl1, Hl2. lia.
  - now rewrite Hworld.
  - now rewrite Hfree.
  - now rewrite Hhist.
Qed.

Lemma error_event_drops_slot_witness :
  exists s',
    iteration hangup_pending = Ok (tt, s')
    /\ map fst (table s') = delete 1%nat (map fst (table hangup_pending))
    /\ map (fun p => fd (snd p)) (table s')
       = delete 1%nat (map (fun p => fd (snd p)) (table hangup_pending))
    /\ conn_length (connections s')
       = conn_length (connections hangup_pending) - 1
    /\ closed_fds (world s') = closed_fds (world hangup_pending)
    /\ first_free_buffer s' = first_free_buffer hangup_pending
    /\ history s' = history hangup_pending.
Proof.
  apply (error_event_drops_slot hangup_pending [0; POLLHUP] [] 1 POLLHUP).
  - vm_compute. reflexivity.
  - apply Nat.ltb_lt. vm_compute. reflexivity.
  - apply Nat.leb_le. vm_compute. reflexivity.
  - apply Nat.leb_le. vm_compute. reflexivity.
  - vm_compute. repeat constructor.
  - reflexivity.
  - reflexivity.
  - reflexivity.
  - vm_compute. discriminate.
  - intros [|[|j]] Hj; [reflexivity | contradiction | reflexivity].
Defined.

(** The descriptors of the table before the turn. *)
Lemma hangup_pending_descriptors :
  map (fun p => fd (snd p)) (table hangup_pending) = [3; 5; 6].
Proof. vm_compute. reflexivity. Qed.
